(** * Anchor: the snapshot store and the session core, embedded in Rocq

    A shallow embedding of the parts of the Anchor server and client that the
    specification makes claims about, followed by the vocabulary of the
    properties and by the properties themselves.

    The embedding:
    - [apps/backend/svcs.py]          (module [Svcs]):   [init_repo],
      [save_snapshot], [_build_tree], [_store_tree], [get_history];
      (module [SvcsUsers]): the profile, the keys, the two-factor state and
      the password hash of a user; (module [SvcsDiff]): [get_diff];
    - [apps/backend/routers/repo.py]  (module [RepoRouter]): [get_tree] and
      [get_file], behind [check_repo_access];
    - [apps/cli/git.py]               (module [Cli]):    [_build_tree_object],
      [_store_object], the identifiers [commit] computes;
    - [apps/backend/token_manager.py] (modules [TokenManager],
      [RefreshTokenManager] and [RecursionLimit]);
    - [apps/backend/fingerprint.py]   (modules [Fingerprint] and
      [DeviceFingerprint]);
    - [apps/backend/dependencies.py]  (modules [Dependencies] and [StepUp]);
    - [apps/backend/authorization.py] (modules [Authorization] and [Access]).

    Conventions of the embedding.
    - A Python [str] is a [string]; each character is a code point below
      256.  [bytes] are [list byte].  [str.encode()] is UTF-8.
    - [hashlib.sha256] is SHA-256 itself (module [SHA256]), so digests are
      computed, not assumed.
    - A Python [dict] with [str] keys is an insertion-ordered association
      list ([dict_set], [dict_get], [dict_del]).
    - A path is the list of its components; [os.path.join p c] is
      [p ++ [c]] for a component [c] (repository names are single
      components: the HTTP layer only admits [^[a-zA-Z0-9_-]+$]).
    - The file system is a finite map from paths to contents together with
      the set of directories.  A file written through [json.dump] is
      represented by the value dumped; [json.load] of any other file raises.
    - The working directory handed to [save_snapshot] is a value of its own
      (a tree of directories and files), not a part of that file system.
    - Every I/O call that can raise consumes one entry of a list of
      injected faults; an exhausted list means no fault.  Calls that open a
      file for writing are logged with their outcome.
    - [secrets.token_urlsafe] and [datetime.utcnow] are arguments: the
      token drawn and the current time.
    - [get_history] only reads; no fault is injected into it.  Its loop
      takes a bound on the number of iterations.
    - An [HTTPException], and the [KeyError] or [TypeError] of an
      expression on a JSON value of an unexpected shape, are returned as
      [inr] (module [Raised]) by the functions that can raise them.
    - A string joined to a path must be one component ([Paths.part]); for
      any other string the embedding stops, with [NotRendered].
    - The order in which Python iterates over a [set] of strings is a
      parameter ([set_order] in [SvcsDiff]).
    - The depth of recursion the interpreter allows is a parameter of the
      functions of [RecursionLimit], where [None] is [RecursionError];
      [TokenManager] has the results of the calls that return.             *)

From Stdlib Require Import ZArith NArith List String Ascii Lia Bool.
From Stdlib Require Import Strings.Byte.
From Stdlib Require Import Sorting.Permutation Sorting.Sorted.
From stdpp Require Import base option gmap sets list strings.
Import ListNotations.

Local Open Scope string_scope.
Local Open Scope list_scope.

(* ===================================================================== *)
(** ** Python strings and bytes *)
(* ===================================================================== *)

Module Py.

(** The double quote character, and literals written with single quotes. *)
Definition dq : ascii := ascii_of_nat 34.
Definition bslash : ascii := ascii_of_nat 92.

Fixpoint q (s : string) : string :=
  match s with
  | EmptyString => EmptyString
  | String c r => String (if Ascii.eqb c "'"%char then dq else c) (q r)
  end.

Definition nl : string := String (ascii_of_nat 10) EmptyString.

Definition code (c : ascii) : N := N_of_ascii c.

(** [sep.join(l)] *)
Definition join (sep : string) (l : list string) : string := String.concat sep l.

(** [s.split(sep)] for a one-character separator. *)
Fixpoint split_go (sep : ascii) (cur : string) (s : string) : list string :=
  match s with
  | EmptyString => [cur]
  | String c r =>
      if Ascii.eqb c sep then cur :: split_go sep EmptyString r
      else split_go sep (cur +:+ String c EmptyString) r
  end.
Definition split (sep : ascii) (s : string) : list string := split_go sep EmptyString s.

(** [sub in s] for a one-character [sub]. *)
Fixpoint contains (c : ascii) (s : string) : bool :=
  match s with
  | EmptyString => false
  | String d r => Ascii.eqb c d || contains c r
  end.

(** [str.isspace] on code points below 256. *)
Definition is_space (c : ascii) : bool :=
  let n := code c in
  ((9 <=? n) && (n <=? 13) || (28 <=? n) && (n <=? 32) || (n =? 133) || (n =? 160))%N.

Fixpoint lstrip (s : string) : string :=
  match s with
  | EmptyString => EmptyString
  | String c r => if is_space c then lstrip r else s
  end.

(** [s.strip()] *)
Definition strip (s : string) : string := String.rev (lstrip (String.rev (lstrip s))).

(** [s[:n]] and [s[a:b]] *)
Definition slice (a b : nat) (s : string) : string := String.substring a (b - a) s.

(** [s.encode()]: UTF-8 of code points below 256. *)
Definition encode_char (c : ascii) : list byte :=
  let n := code c in
  if (n <? 128)%N then [byte_of_ascii c]
  else [byte_of_ascii (ascii_of_N (N.lor 192 (N.shiftr n 6)));
        byte_of_ascii (ascii_of_N (N.lor 128 (N.land n 63)))].

Fixpoint encode (s : string) : list byte :=
  match s with
  | EmptyString => []
  | String c r => encode_char c ++ encode r
  end.

(** [b.decode()]: [None] stands for [UnicodeDecodeError] (and for text
    outside the code points the embedding represents). *)
Definition decode_char (bs : list byte) : option (ascii * list byte) :=
  match bs with
  | [] => None
  | b :: r =>
      let n := Byte.to_N b in
      if (n <? 128)%N then Some (ascii_of_byte b, r)
      else if ((n =? 194) || (n =? 195))%N then
        match r with
        | b2 :: r2 =>
            let m := Byte.to_N b2 in
            if ((128 <=? m) && (m <? 192))%N
            then Some (ascii_of_N (N.lor (N.shiftl (N.land n 3) 6) (N.land m 63)), r2)
            else None
        | [] => None
        end
      else None
  end.

Fixpoint decode_go (fuel : nat) (bs : list byte) : option string :=
  match bs with
  | [] => Some EmptyString
  | _ =>
      match fuel with
      | O => None
      | S f =>
          match decode_char bs with
          | Some (c, r) => String c <$> decode_go f r
          | None => None
          end
      end
  end.
Definition decode (bs : list byte) : option string := decode_go (length bs) bs.

(** Decimal rendering of a natural number: [str(n)]. *)
Definition digit (n : N) : ascii := ascii_of_N (48 + n).

Fixpoint dec_go (fuel : nat) (n : N) (acc : string) : string :=
  match fuel with
  | O => acc
  | S f =>
      let acc' := String (digit (n mod 10)) acc in
      if (n <? 10)%N then acc' else dec_go f (n / 10) acc'
  end.
Definition dec (n : N) : string := dec_go (S (N.to_nat (N.log2 n))) n EmptyString.

Definition str_of_Z (z : Z) : string :=
  if (z <? 0)%Z then String "-" (dec (Z.to_N (- z))) else dec (Z.to_N z).

(** [int(s, 16)] on strings of hexadecimal digits; [None] is [ValueError]. *)
Definition hex_value (c : ascii) : option N :=
  let n := code c in
  if ((48 <=? n) && (n <=? 57))%N then Some (n - 48)%N
  else if ((97 <=? n) && (n <=? 102))%N then Some (n - 87)%N
  else if ((65 <=? n) && (n <=? 70))%N then Some (n - 55)%N
  else None.

Fixpoint int16_go (acc : N) (s : string) : option N :=
  match s with
  | EmptyString => Some acc
  | String c r =>
      match hex_value c with
      | Some d => int16_go (16 * acc + d) r
      | None => None
      end
  end.
Definition int16 (s : string) : option N :=
  match s with
  | EmptyString => None
  | _ => int16_go 0 s
  end.

(** Lower-case hexadecimal rendering, two digits per byte. *)
Definition hex_digit (n : N) : ascii :=
  if (n <? 10)%N then ascii_of_N (48 + n) else ascii_of_N (87 + n).

Fixpoint hex_of_bytes (bs : list byte) : string :=
  match bs with
  | [] => EmptyString
  | b :: r =>
      let n := Byte.to_N b in
      String (hex_digit (N.shiftr n 4)) (String (hex_digit (N.land n 15)) (hex_of_bytes r))
  end.

(** [format(n, '04x')] for [n < 65536]. *)
Definition hex4 (n : N) : string :=
  String (hex_digit (N.land (N.shiftr n 12) 15))
    (String (hex_digit (N.land (N.shiftr n 8) 15))
       (String (hex_digit (N.land (N.shiftr n 4) 15))
          (String (hex_digit (N.land n 15)) EmptyString))).

End Py.

(* ===================================================================== *)
(** ** SHA-256 (FIPS 180-4), as [hashlib.sha256] computes it *)
(* ===================================================================== *)

Module SHA256.
Local Open Scope Z_scope.

Definition mask32 : Z := 0xFFFFFFFF.
Definition add32 (a b : Z) : Z := Z.land (a + b) mask32.
Definition rotr (n x : Z) : Z :=
  Z.lor (Z.shiftr x n) (Z.land (Z.shiftl x (32 - n)) mask32).
Definition Ch (x y z : Z) : Z :=
  Z.lxor (Z.land x y) (Z.land (Z.lxor x mask32) z).
Definition Maj (x y z : Z) : Z :=
  Z.lxor (Z.lxor (Z.land x y) (Z.land x z)) (Z.land y z).
Definition bsig0 (x : Z) : Z := Z.lxor (Z.lxor (rotr 2 x) (rotr 13 x)) (rotr 22 x).
Definition bsig1 (x : Z) : Z := Z.lxor (Z.lxor (rotr 6 x) (rotr 11 x)) (rotr 25 x).
Definition ssig0 (x : Z) : Z := Z.lxor (Z.lxor (rotr 7 x) (rotr 18 x)) (Z.shiftr x 3).
Definition ssig1 (x : Z) : Z := Z.lxor (Z.lxor (rotr 17 x) (rotr 19 x)) (Z.shiftr x 10).

(** The constants are derived as the standard defines them: the first
    thirty-two bits of the fractional parts of the cube roots (for [K]) and
    of the square roots (for [H0]) of the first primes. *)
Definition is_prime (n : Z) : bool :=
  forallb (fun d => negb (n mod Z.of_nat d =? 0)) (seq 2 (Z.to_nat n - 2)).

Definition primes : list Z := filter is_prime (map Z.of_nat (seq 2 310)).

(** The largest [r] below [2 ^ bits] with [r ^ 3 <= n], found bit by bit. *)
Fixpoint cube_root (bits : nat) (n r : Z) : Z :=
  match bits with
  | O => r
  | S b =>
      let c := r + 2 ^ Z.of_nat b in
      if c * c * c <=? n then cube_root b n c else cube_root b n r
  end.

Definition K : list Z :=
  Eval vm_compute in
    map (fun p => Z.land (cube_root 36 (p * 2 ^ 96) 0) mask32) primes.

Definition H0 : list Z :=
  Eval vm_compute in
    map (fun p => Z.land (Z.sqrt (p * 2 ^ 64)) mask32) (firstn 8 primes).

(** The low [n] bytes of [x], most significant first. *)
Fixpoint be_bytes (n : nat) (x : Z) : list Z :=
  match n with
  | O => []
  | S n' => Z.land (Z.shiftr x (8 * Z.of_nat n')) 0xFF :: be_bytes n' x
  end.

Definition pad (msg : list Z) : list Z :=
  let len := Z.of_nat (length msg) in
  let zeros := Z.to_nat ((55 - len) mod 64) in
  msg ++ [0x80] ++ repeat 0 zeros ++ be_bytes 8 (8 * len).

Fixpoint words (n : nat) (bs : list Z) : list Z :=
  match n, bs with
  | S n', b0 :: b1 :: b2 :: b3 :: r =>
      (Z.shiftl b0 24 + Z.shiftl b1 16 + Z.shiftl b2 8 + b3) :: words n' r
  | _, _ => []
  end.

Definition nthw (i : nat) (w : list Z) : Z := nth i w 0.

(** Message schedule; [w] holds the sixteen most recent words. *)
Fixpoint schedule (n : nat) (w : list Z) : list Z :=
  match n with
  | O => []
  | S n' =>
      let new := add32 (add32 (ssig1 (nthw 14 w)) (nthw 9 w))
                       (add32 (ssig0 (nthw 1 w)) (nthw 0 w)) in
      nthw 0 w :: schedule n' (tl w ++ [new])
  end.

Record regs := Regs { ra : Z; rb : Z; rc : Z; rd : Z; re : Z; rf : Z; rg : Z; rh : Z }.

Definition round (s : regs) (kw : Z * Z) : regs :=
  let '(k, w) := kw in
  let t1 := add32 (add32 (add32 (rh s) (bsig1 (re s))) (add32 (Ch (re s) (rf s) (rg s)) k)) w in
  let t2 := add32 (bsig0 (ra s)) (Maj (ra s) (rb s) (rc s)) in
  Regs (add32 t1 t2) (ra s) (rb s) (rc s) (add32 (rd s) t1) (re s) (rf s) (rg s).

Definition regs_of (h : list Z) : regs :=
  Regs (nthw 0 h) (nthw 1 h) (nthw 2 h) (nthw 3 h) (nthw 4 h) (nthw 5 h) (nthw 6 h) (nthw 7 h).

Definition compress (h : list Z) (block : list Z) : list Z :=
  let w := schedule 64 (words 16 block) in
  let s := fold_left round (combine K w) (regs_of h) in
  [add32 (nthw 0 h) (ra s); add32 (nthw 1 h) (rb s); add32 (nthw 2 h) (rc s);
   add32 (nthw 3 h) (rd s); add32 (nthw 4 h) (re s); add32 (nthw 5 h) (rf s);
   add32 (nthw 6 h) (rg s); add32 (nthw 7 h) (rh s)].

Fixpoint blocks (fuel : nat) (h : list Z) (bs : list Z) : list Z :=
  match fuel with
  | O => h
  | S f =>
      match bs with
      | [] => h
      | _ => blocks f (compress h (firstn 64 bs)) (skipn 64 bs)
      end
  end.

Definition byte_of_Z (z : Z) : byte := byte_of_ascii (ascii_of_N (Z.to_N z)).

Definition digest (msg : list byte) : list byte :=
  let p := pad (map (fun b => Z.of_N (Byte.to_N b)) msg) in
  map byte_of_Z (flat_map (be_bytes 4) (blocks (length p) H0 p)).

End SHA256.

(** [hashlib.sha256(b).hexdigest()] *)
Definition sha256_hexdigest (b : list byte) : string := Py.hex_of_bytes (SHA256.digest b).

(* ===================================================================== *)
(** ** Python dictionaries and JSON values *)
(* ===================================================================== *)

(** A [dict] keyed by [str]: insertion-ordered, a key bound at most once
    by [dict_set]. *)
Section Dict.
Context {V : Type}.

Fixpoint dict_get (k : string) (d : list (string * V)) : option V :=
  match d with
  | [] => None
  | (k', v) :: r => if String.eqb k k' then Some v else dict_get k r
  end.

(** [d[k] = v]: an existing key keeps its position. *)
Fixpoint dict_set (k : string) (v : V) (d : list (string * V)) : list (string * V) :=
  match d with
  | [] => [(k, v)]
  | (k', v') :: r =>
      if String.eqb k k' then (k, v) :: r else (k', v') :: dict_set k v r
  end.

(** [del d[k]] *)
Fixpoint dict_del (k : string) (d : list (string * V)) : list (string * V) :=
  match d with
  | [] => []
  | (k', v') :: r =>
      if String.eqb k k' then dict_del k r else (k', v') :: dict_del k r
  end.

Definition dict_has (k : string) (d : list (string * V)) : bool :=
  match dict_get k d with Some _ => true | None => false end.

(** [d.update(e)] *)
Definition dict_update (d e : list (string * V)) : list (string * V) :=
  fold_left (fun acc kv => dict_set (fst kv) (snd kv) acc) e d.

(** [sorted(d.items())]: keys are distinct, so items are ordered by key. *)
Fixpoint insert_item (x : string * V) (l : list (string * V)) : list (string * V) :=
  match l with
  | [] => [x]
  | y :: r => if String.leb (fst x) (fst y) then x :: l else y :: insert_item x r
  end.

Definition sort_items (l : list (string * V)) : list (string * V) :=
  fold_right insert_item [] l.
End Dict.

#[warnings="-register-all"]
Inductive json : Type :=
| JNull
| JBool (b : bool)
| JInt (n : Z)
| JStr (s : string)
| JList (l : list json)
| JDict (d : list (string * json)).

Module Json.

(** [json.encoder.py_encode_basestring_ascii] *)
Definition escape_char (c : ascii) : string :=
  let n := Py.code c in
  if (n =? 34)%N then String Py.bslash (String Py.dq EmptyString)
  else if (n =? 92)%N then String Py.bslash (String Py.bslash EmptyString)
  else if (n =? 10)%N then String Py.bslash "n"
  else if (n =? 13)%N then String Py.bslash "r"
  else if (n =? 9)%N then String Py.bslash "t"
  else if (n =? 8)%N then String Py.bslash "b"
  else if (n =? 12)%N then String Py.bslash "f"
  else if ((32 <=? n) && (n <=? 126))%N then String c EmptyString
  else String Py.bslash (String "u" (Py.hex4 n)).

Fixpoint escape (s : string) : string :=
  match s with
  | EmptyString => EmptyString
  | String c r => escape_char c +:+ escape r
  end.

Definition quote (s : string) : string :=
  String Py.dq (escape s +:+ String Py.dq EmptyString).

Definition item_text (kt : string * string) : string :=
  quote (fst kt) +:+ ": " +:+ snd kt.

(** [json.dumps(j, sort_keys=sort_keys)] with the default separators
    [", "] and [": "] and [ensure_ascii=True]. *)
Fixpoint dumps (sort_keys : bool) (j : json) : string :=
  match j with
  | JNull => "null"
  | JBool true => "true"
  | JBool false => "false"
  | JInt n => Py.str_of_Z n
  | JStr s => quote s
  | JList l => "[" +:+ Py.join ", " (List.map (dumps sort_keys) l) +:+ "]"
  | JDict d =>
      let items := List.map (fun kv => (fst kv, dumps sort_keys (snd kv))) d in
      let items := if sort_keys then sort_items items else items in
      "{" +:+ Py.join ", " (List.map item_text items) +:+ "}"
  end.

(** Truth value of a JSON value as Python tests it. *)
Definition truthy (j : json) : bool :=
  match j with
  | JNull => false
  | JBool b => b
  | JInt n => negb (n =? 0)%Z
  | JStr s => negb (String.eqb s "")
  | JList l => match l with [] => false | _ => true end
  | JDict d => match d with [] => false | _ => true end
  end.

(** [j == s] for a [str] [s]. *)
Definition eq_str (j : json) (s : string) : bool :=
  match j with
  | JStr t => String.eqb t s
  | _ => false
  end.

End Json.

(* ===================================================================== *)
(** ** The file system, injected faults, and the I/O monad *)
(* ===================================================================== *)

Module FS.

Definition path := list string.

(** What a file holds: raw bytes, or the value [json.dump] was given. *)
Inductive content :=
| Data (b : list byte)
| Doc (j : json).

(** An injected fault: none; the call raises before changing anything; the
    file is created or truncated and then the call raises. *)
Inductive fault := Pass | FailClean | FailTorn.

Inductive outcome := Written | Failed | Torn.

(** A call that opens a file for writing, and how it ended. *)
Inductive event := EvWrite (p : path) (o : outcome).

Definition ev_path (e : event) : path := match e with EvWrite p _ => p end.
Definition ev_outcome (e : event) : outcome := match e with EvWrite _ o => o end.

Record world := World {
  files : gmap path content;
  dirs : gset path;
  faults : list fault;
  log : list event
}.

(** The exceptions of Python that occur, and [NotRendered] for the one
    place where the embedding stops short of what Python does (see
    [Svcs.format_id]). *)
Inductive exn :=
| OSError
| FileExistsError
| FileNotFoundError
| IsADirectoryError
| NotADirectoryError
| UnicodeDecodeError
| JSONDecodeError
| ValueError
| AttributeError
| NotRendered.

Inductive result (A : Type) :=
| Ok (a : A)
| Raise (e : exn).
Arguments Ok {A} a.
Arguments Raise {A} e.

Definition M (A : Type) : Type := world -> result A * world.

Definition ret {A} (a : A) : M A := fun w => (Ok a, w).
Definition raise {A} (e : exn) : M A := fun w => (Raise e, w).
Definition bind {A B} (m : M A) (k : A -> M B) : M B :=
  fun w => match m w with
           | (Ok a, w1) => k a w1
           | (Raise e, w1) => (Raise e, w1)
           end.

(** [try: body finally: cleanup] *)
Definition try_finally {A} (body : M A) (cleanup : M unit) : M A :=
  fun w => match body w with
           | (r, w1) =>
               match cleanup w1 with
               | (Ok _, w2) => (r, w2)
               | (Raise e, w2) => (Raise e, w2)
               end
           end.

Definition is_dir (w : world) (p : path) : bool :=
  match p with
  | [] => true
  | _ => bool_decide (p ∈ dirs w)
  end.

Definition is_file (w : world) (p : path) : bool :=
  match files w !! p with Some _ => true | None => false end.

Definition parent (p : path) : path := removelast p.

(** The next injected fault. *)
Definition pop_fault : M fault :=
  fun w => match faults w with
           | [] => (Ok Pass, w)
           | f :: r => (Ok f, World (files w) (dirs w) r (log w))
           end.

Definition set_file (p : path) (c : content) (o : outcome) : M unit :=
  fun w => (Ok tt, World (<[p := c]> (files w)) (dirs w) (faults w) (log w ++ [EvWrite p o])).

Definition note (p : path) (o : outcome) : M unit :=
  fun w => (Ok tt, World (files w) (dirs w) (faults w) (log w ++ [EvWrite p o])).

Definition add_dirs (ps : list path) : M unit :=
  fun w => (Ok tt, World (files w) (dirs w ∪ list_to_set ps) (faults w) (log w)).

Definition get_world : M world := fun w => (Ok w, w).

(** The same disk, with the faults the next calls will meet. *)
Definition with_faults (fl : list fault) (w : world) : world :=
  World (files w) (dirs w) fl (log w).

(** The non-empty prefixes of a path, shortest first. *)
Definition prefixes (p : path) : list path :=
  List.map (fun n => firstn n p) (seq 1 (length p)).

(** [os.makedirs(p, exist_ok=True)] *)
Definition makedirs (p : path) : M unit :=
  bind pop_fault (fun f =>
  match f with
  | Pass =>
      bind get_world (fun w =>
      if existsb (is_file w) (prefixes p) then raise FileExistsError
      else add_dirs (prefixes p))
  | _ => raise OSError
  end).

(** [os.path.exists(p)]; never raises. *)
Definition exists_ (p : path) : M bool :=
  fun w => (Ok (is_file w p || is_dir w p), w).

(** [with open(p, "w") as f: f.write(...)] and its binary and JSON forms. *)
Definition open_write (p : path) (c : content) : M unit :=
  bind pop_fault (fun f =>
  bind get_world (fun w =>
  if is_dir w p then bind (note p Failed) (fun _ => raise IsADirectoryError)
  else if negb (is_dir w (parent p)) then bind (note p Failed) (fun _ => raise FileNotFoundError)
  else match f with
       | Pass => set_file p c Written
       | FailClean => bind (note p Failed) (fun _ => raise OSError)
       | FailTorn => bind (set_file p (Data []) Torn) (fun _ => raise OSError)
       end)).

Definition write_text (p : path) (s : string) : M unit := open_write p (Data (Py.encode s)).
Definition write_bytes (p : path) (b : list byte) : M unit := open_write p (Data b).
Definition json_dump (p : path) (j : json) : M unit := open_write p (Doc j).

(** The bytes on disk. *)
Definition content_bytes (c : content) : list byte :=
  match c with
  | Data b => b
  | Doc j => Py.encode (Json.dumps false j)
  end.

(** [open(p, "rb").read()] *)
Definition read_bytes (p : path) : M (list byte) :=
  bind pop_fault (fun f =>
  match f with
  | Pass =>
      bind get_world (fun w =>
      if is_dir w p then raise IsADirectoryError
      else match files w !! p with
           | Some c => ret (content_bytes c)
           | None => raise FileNotFoundError
           end)
  | _ => raise OSError
  end).

(** [open(p).read()] *)
Definition read_text (p : path) : M string :=
  bind (read_bytes p) (fun b =>
  match Py.decode b with
  | Some s => ret s
  | None => raise UnicodeDecodeError
  end).

(** [json.load(open(p))] *)
Definition json_load (p : path) : M json :=
  bind pop_fault (fun f =>
  match f with
  | Pass =>
      bind get_world (fun w =>
      if is_dir w p then raise IsADirectoryError
      else match files w !! p with
           | Some (Doc j) => ret j
           | Some (Data _) => raise JSONDecodeError
           | None => raise FileNotFoundError
           end)
  | _ => raise OSError
  end).

End FS.

Import FS.

Notation "x <- m ;; k" := (FS.bind m (fun x => k))
  (at level 100, m at next level, right associativity).
Notation "m ;;; k" := (FS.bind m (fun _ => k))
  (at level 100, right associativity).

(** A working directory as [os.walk] sees it. *)
#[warnings="-register-all"]
Inductive wnode : Type :=
| WFile (data : list byte)
| WDir (children : list (string * wnode)).

(* ===================================================================== *)
(** ** apps/backend/svcs.py *)
(* ===================================================================== *)

Module Svcs.

Fixpoint foldM {A B : Type} (f : B -> A -> M B) (l : list A) (b : B) : M B :=
  match l with
  | [] => ret b
  | x :: r => b' <- f b x ;; foldM f r b'
  end.

(** [_lock_repo]: [os.open(lock_file, O_CREAT | O_RDWR)] creates the lock
    file when it is missing; [flock] has no effect on a single caller. *)
Definition _lock_repo (repo_path : path) : M path :=
  let lock_file := repo_path ++ ["repo.lock"] in
  f <- pop_fault ;;
  match f with
  | Pass =>
      w <- get_world ;;
      if is_dir w lock_file then raise IsADirectoryError
      else if negb (is_dir w repo_path) then raise FileNotFoundError
      else if is_file w lock_file then ret lock_file
      else (set_file lock_file (Data []) Written ;;; ret lock_file)
  | _ => raise OSError
  end.

Definition _unlock_repo (fd : path) : M unit := ret tt.

(** [_hash_content] *)
Definition _hash_content (content : list byte) : string := sha256_hexdigest content.

Definition rel_file (rel_root : list string) (f : string) : string :=
  match rel_root with
  | [] => f
  | _ => Py.join "/" (rel_root ++ [f])
  end.

(** The [(rel_file, data)] pairs in the order [os.walk] yields them: the
    files of a directory first, then its subdirectories in turn. *)
Fixpoint walk (rel_root : list string) (n : wnode) : list (string * list byte) :=
  match n with
  | WFile _ => []
  | WDir children =>
      flat_map (fun c => match snd c with
                         | WFile data => [(rel_file rel_root (fst c), data)]
                         | WDir _ => []
                         end) children
      ++ flat_map (fun c => match snd c with
                            | WFile _ => []
                            | WDir _ => walk (rel_root ++ [fst c]) (snd c)
                            end) children
  end.

Definition read_work_file (data : list byte) : M (list byte) :=
  f <- pop_fault ;;
  match f with
  | Pass => ret data
  | _ => raise OSError
  end.

Definition blob_entry (blob_id : string) : json :=
  JDict [("type", JStr "blob"); ("id", JStr blob_id)].

Definition blob_sub (blobs_dir : path) (blob_id : string) : path :=
  blobs_dir ++ [Py.slice 0 2 blob_id; Py.slice 2 4 blob_id].

Definition blob_file (blobs_dir : path) (blob_id : string) : path :=
  blob_sub blobs_dir blob_id ++ [blob_id +:+ ".blob"].

(** The body of the loop of [_build_tree] for one file. *)
Definition build_tree_step (blobs_dir : path) (entries : list (string * json))
    (file : string * list byte) : M (list (string * json)) :=
  data <- read_work_file (snd file) ;;
  let blob_id := _hash_content data in
  makedirs (blob_sub blobs_dir blob_id) ;;;
  let blob_path := blob_file blobs_dir blob_id in
  present <- exists_ blob_path ;;
  (if present then ret tt else write_bytes blob_path data) ;;;
  ret (dict_set (fst file) (blob_entry blob_id) entries).

Definition _build_tree (base_path : wnode) (blobs_dir : path) : M json :=
  entries <- foldM (build_tree_step blobs_dir) (walk [] base_path) [] ;;
  ret (JDict [("entries", JDict entries)]).

Definition tree_file (trees_dir : path) (tree_id : string) : path :=
  trees_dir ++ [tree_id +:+ ".json"].

Definition _store_tree (tree : json) (trees_dir : path) : M string :=
  let tree_json := Py.encode (Json.dumps true tree) in
  let tree_id := sha256_hexdigest tree_json in
  json_dump (tree_file trees_dir tree_id) tree ;;;
  ret tree_id.

(** ["s_" + str(int(sha256((tree_id + parent).encode()).hexdigest()[:8], 16))] *)
Definition snapshot_id_of (tree_id parent : string) : option string :=
  match Py.int16 (Py.slice 0 8 (sha256_hexdigest (Py.encode (tree_id +:+ parent)))) with
  | Some n => Some ("s_" +:+ Py.dec n)
  | None => None
  end.

Definition timestamp : string := "2025-12-19T09:00:00Z".

Definition snapshot_doc (snapshot_id tree_id parent message : string) : json :=
  JDict [("snapshot_id", JStr snapshot_id);
         ("root_tree", JStr tree_id);
         ("parent", if String.eqb parent "" then JNull else JStr parent);
         ("message", JStr message);
         ("timestamp", JStr timestamp)].

Definition snapshot_file (snapshots_dir : path) (snapshot_id : string) : path :=
  snapshots_dir ++ [snapshot_id +:+ ".json"].

Section Root.
Variable SVCS_ROOT : path.

Definition repo_path (name : string) : path := SVCS_ROOT ++ [name].
Definition ref_path (name : string) : path := repo_path name ++ ["refs"; "main"].
Definition blobs_dir (name : string) : path := repo_path name ++ ["objects"; "blobs"].
Definition trees_dir (name : string) : path := repo_path name ++ ["objects"; "trees"].
Definition snapshots_dir (name : string) : path := repo_path name ++ ["objects"; "snapshots"].
Definition meta_path (name : string) : path := repo_path name ++ ["meta.json"].

Definition meta_doc (name : string) : json :=
  JDict [("name", JStr name); ("created_at", JStr timestamp)].

Definition init_repo (name : string) : M path :=
  makedirs (repo_path name) ;;;
  json_dump (meta_path name) (meta_doc name) ;;;
  makedirs (repo_path name ++ ["refs"]) ;;;
  write_text (ref_path name) "" ;;;
  ret (repo_path name).

(** The body of the [try] block of [save_snapshot]. *)
Definition save_snapshot_locked (repo_name message : string) (work_dir : wnode) : M string :=
  present <- exists_ (ref_path repo_name) ;;
  parent <- (if present
             then s <- read_text (ref_path repo_name) ;; ret (Py.strip s)
             else ret "") ;;
  makedirs (blobs_dir repo_name) ;;;
  makedirs (trees_dir repo_name) ;;;
  makedirs (snapshots_dir repo_name) ;;;
  tree <- _build_tree work_dir (blobs_dir repo_name) ;;
  tree_id <- _store_tree tree (trees_dir repo_name) ;;
  match snapshot_id_of tree_id parent with
  | None => raise ValueError
  | Some snapshot_id =>
      json_dump (snapshot_file (snapshots_dir repo_name) snapshot_id)
                (snapshot_doc snapshot_id tree_id parent message) ;;;
      write_text (ref_path repo_name) snapshot_id ;;;
      ret snapshot_id
  end.

Definition save_snapshot (repo_name message : string) (work_dir : wnode) : M string :=
  lock_fd <- _lock_repo (repo_path repo_name) ;;
  try_finally (save_snapshot_locked repo_name message work_dir) (_unlock_repo lock_fd).

(** [f"{current_id}.json"] for the values a snapshot written by
    [save_snapshot] can hold as parent, and for the other scalars.  Python
    formats a list or an object by its [repr]; the embedding does not, and
    [history_loop] stops with [NotRendered] there. *)
Definition format_id (j : json) : option string :=
  match j with
  | JStr s => Some s
  | JInt n => Some (Py.str_of_Z n)
  | JBool true => Some "True"
  | JBool false => Some "False"
  | JNull => Some "None"
  | _ => None
  end.

(** The [while current_id:] loop of [get_history]; [None] when [fuel]
    iterations did not reach the end of the loop. *)
Fixpoint history_loop (fuel : nat) (w : world) (repo_name : string)
    (current_id : json) (history : list json) : option (result (list json)) :=
  match fuel with
  | O => None
  | S fuel' =>
      if negb (Json.truthy current_id) then Some (Ok history)
      else
        match format_id current_id with
        | None => Some (Raise NotRendered)
        | Some id =>
            let snapshot_path := snapshot_file (snapshots_dir repo_name) id in
            if negb (is_file w snapshot_path || is_dir w snapshot_path) then Some (Ok history)
            else
              match files w !! snapshot_path with
              | Some (Doc (JDict d as snapshot)) =>
                  history_loop fuel' w repo_name
                    (default JNull (dict_get "parent" d)) (history ++ [snapshot])
              | Some (Doc _) => Some (Raise AttributeError)
              | Some (Data _) => Some (Raise JSONDecodeError)
              | None => Some (Raise IsADirectoryError)
              end
        end
  end.

Definition get_history (fuel : nat) (repo_name : string) (w : world)
    : option (result (list json)) :=
  if negb (is_file w (ref_path repo_name) || is_dir w (ref_path repo_name)) then Some (Ok [])
  else
    match files w !! ref_path repo_name with
    | None => Some (Raise IsADirectoryError)
    | Some c =>
        match Py.decode (content_bytes c) with
        | None => Some (Raise UnicodeDecodeError)
        | Some s => history_loop fuel w repo_name (JStr (Py.strip s)) []
        end
    end.
End Root.

End Svcs.

(* ===================================================================== *)
(** ** apps/cli/git.py: the tree and snapshot identifiers of [commit] *)
(* ===================================================================== *)

Module Cli.

(** [_build_tree_object]; the index maps a relative path to a blob id. *)
Definition _build_tree_object (index : list (string * string)) : json :=
  JDict [("entries",
          JDict (fold_left
                   (fun entries ph =>
                      dict_set (fst ph) (JDict [("type", JStr "blob"); ("id", JStr (snd ph))]) entries)
                   index []))].

(** The hash [_store_object] returns. *)
Definition _store_object (content : json) : string :=
  let data_json := Json.dumps true content in
  sha256_hexdigest (Py.encode data_json).

(** [f.read().strip() or None] on the file the current ref names, when it
    exists. *)
Definition read_parent (ref_contents : option string) : option string :=
  match ref_contents with
  | Some s => if String.eqb (Py.strip s) "" then None else Some (Py.strip s)
  | None => None
  end.

(** The [(snapshot_id, tree_id)] of [commit]; [None] when the index is
    empty ("nothing to commit"). *)
Definition commit (index : list (string * string)) (ref_contents : option string)
    : option (string * string) :=
  match index with
  | [] => None
  | _ =>
      let tree := _build_tree_object index in
      let tree_id := _store_object tree in
      let parent := read_parent ref_contents in
      let parent_str := default "" parent in
      let snap_hash := Py.slice 0 8 (sha256_hexdigest (Py.encode (tree_id +:+ parent_str))) in
      match Py.int16 snap_hash with
      | Some n => Some ("s_" +:+ Py.dec n, tree_id)
      | None => None
      end
  end.

End Cli.

(* ===================================================================== *)
(** ** apps/backend/token_manager.py *)
(* ===================================================================== *)

Module TokenManager.

Record token_data := TokenData {
  username : string;
  fingerprint : option string;
  created_at : Z;
  expires_at : Z;
  used : bool;
  rotated_to : option string
}.

(** [self.tokens]: token hash to record.  Times are microseconds (counted
    from the least [datetime], see [TimeSpec]).
    [_save_tokens] catches every exception and does not touch [self.tokens],
    so the file it writes is left out. *)
Definition store := list (string * token_data).

Definition hash_token (token : string) : string := sha256_hexdigest (Py.encode token).

Definition day : Z := 86400000000.

(** Truth value of an optional [str]. *)
Definition truthy (o : option string) : bool :=
  match o with
  | Some s => negb (String.eqb s "")
  | None => false
  end.

(** [generate_refresh_token]; [token] is the value [secrets.token_urlsafe]
    draws and [now] the value of [datetime.utcnow()].  The expiry is the
    sum in [Z]: where it is no [datetime] ([TimeSpec.is_datetime]) the
    source raises [OverflowError] and stores nothing. *)
Definition generate_refresh_token (token : string) (now : Z) (user : string)
    (fp : option string) (expires_days : Z) (tokens : store) : string * store :=
  let token_hash := hash_token token in
  let expires := (now + expires_days * day)%Z in
  (token,
   dict_set token_hash
     {| username := user; fingerprint := fp; created_at := now;
        expires_at := expires; used := false; rotated_to := None |} tokens).

Definition opt_eqb (o : option string) (s : string) : bool :=
  match o with
  | Some t => String.eqb t s
  | None => false
  end.

(** [_invalidate_token_family], with a bound on the depth of recursion;
    [None] when the bound is reached. *)
Fixpoint invalidate_fuel (fuel : nat) (token_hash : string) (tokens : store) : option store :=
  match fuel with
  | O => None
  | S fuel' =>
      let tokens1 := if dict_has token_hash tokens then dict_del token_hash tokens else tokens in
      fold_left
        (fun acc item =>
           match acc with
           | None => None
           | Some cur =>
               if opt_eqb (rotated_to (snd item)) token_hash
               then invalidate_fuel fuel' (fst item) cur
               else Some cur
           end)
        tokens1 (Some tokens1)
  end.

(** The store a call of [_invalidate_token_family] that returns leaves.
    The call returns when the interpreter leaves room for more nested calls
    than the store has records; under a lower recursion limit the source
    may raise [RecursionError] instead ([RecursionLimit], further down). *)
Definition _invalidate_token_family (token_hash : string) (tokens : store) : store :=
  default tokens (invalidate_fuel (S (length tokens)) token_hash tokens).

Definition set_used (d : token_data) : token_data :=
  {| username := username d; fingerprint := fingerprint d; created_at := created_at d;
     expires_at := expires_at d; used := true; rotated_to := rotated_to d |}.

Definition set_rotated_to (h : string) (d : token_data) : token_data :=
  {| username := username d; fingerprint := fingerprint d; created_at := created_at d;
     expires_at := expires_at d; used := used d; rotated_to := Some h |}.

(** [validate_and_rotate]; [fresh] is the token the nested
    [generate_refresh_token] draws.  The result is [(username, new_token)]. *)
Definition validate_and_rotate (token : string) (fp : option string) (now : Z)
    (fresh : string) (tokens : store) : option (string * string) * store :=
  let token_hash := hash_token token in
  match dict_get token_hash tokens with
  | None => (None, tokens)
  | Some data =>
      if used data then (None, _invalidate_token_family token_hash tokens)
      else if (expires_at data <? now)%Z then (None, dict_del token_hash tokens)
      else if truthy fp && truthy (fingerprint data)
                && negb (bool_decide (fingerprint data = fp))
      then (None, _invalidate_token_family token_hash tokens)
      else
        let data1 := set_used data in
        let tokens1 := dict_set token_hash data1 tokens in
        let '(new_token, tokens2) :=
          generate_refresh_token fresh now (username data)
            (if truthy fp then fp else fingerprint data) 7 tokens1 in
        let new_token_hash := hash_token new_token in
        (* [token_data] is the record stored under [token_hash] unless the
           new token replaced it *)
        let tokens3 :=
          if String.eqb new_token_hash token_hash then tokens2
          else dict_set token_hash (set_rotated_to new_token_hash data1) tokens2 in
        (Some (username data, new_token), tokens3)
  end.

(** [revoke_token] *)
Definition revoke_token (token : string) (tokens : store) : bool * store :=
  let token_hash := hash_token token in
  if dict_has token_hash tokens then (true, _invalidate_token_family token_hash tokens)
  else (false, tokens).

End TokenManager.

(* ===================================================================== *)
(** ** apps/backend/fingerprint.py *)
(* ===================================================================== *)

Module Fingerprint.

(** What [generate] reads of a request: the headers (names in lower case,
    as Starlette keeps them) and the host of [request.client], if any. *)
Record request := Request {
  headers : list (string * string);
  client : option string
}.

Definition header (r : request) (name : string) : string :=
  default "" (dict_get name (headers r)).

Definition partial_ip (client_ip : string) : string :=
  if Py.contains ":" client_ip
  then Py.join ":" (firstn 6 (Py.split ":" client_ip))
  else Py.join "." (firstn 3 (Py.split "." client_ip)).

(** The list [components] at the end of [generate]. *)
Definition components (r : request) : list string :=
  let user_agent := header r "user-agent" in
  let client_ip := default "" (client r) in
  [user_agent]
  ++ (if String.eqb client_ip "" then [] else [partial_ip client_ip])
  ++ [header r "accept-language"]
  ++ [header r "accept-encoding"].

Definition fingerprint_string (r : request) : string := Py.join "|" (components r).

Definition generate (r : request) : string :=
  sha256_hexdigest (Py.encode (fingerprint_string r)).

Definition get_device_fingerprint (r : request) : string := generate r.

End Fingerprint.

(* ===================================================================== *)
(** ** apps/backend/dependencies.py *)
(* ===================================================================== *)

Module Dependencies.

Record http_exception := HTTPException { status_code : Z; detail : string }.

Definition HTTP_401_UNAUTHORIZED : Z := 401.

(** How [jwt.decode] ends when it raises. *)
Inductive jwt_error := ExpiredSignatureError | PyJWTError.

Definition ACCESS_TOKEN_EXPIRE_MINUTES : Z := 5.

Definition get_fingerprint (r : Fingerprint.request) : string :=
  Fingerprint.get_device_fingerprint r.

(** The PyJWT codec is a parameter: tokens of some type, [jwt.encode] and
    [jwt.decode] under a key, the latter at a given time (seconds). *)
Section Jwt.
Variable token : Type.
Variable jwt_encode : list (string * json) -> string -> token.
Variable jwt_decode : token -> string -> Z -> list (string * json) + jwt_error.
Variable SECRET_KEY : string.

(** [create_access_token]; [now] is [datetime.utcnow()] in seconds and
    [expires_delta] a number of seconds. *)
Definition create_access_token (data : list (string * json)) (fingerprint : string)
    (expires_delta : option Z) (step_up : bool) (now : Z) : token :=
  let to_encode := data in
  let expire := (now + default (ACCESS_TOKEN_EXPIRE_MINUTES * 60) expires_delta)%Z in
  let to_encode := dict_update to_encode [("exp", JInt expire); ("fpt", JStr fingerprint)] in
  let to_encode :=
    if step_up
    then dict_update to_encode [("step_up", JBool true); ("step_up_at", JInt now)]
    else to_encode in
  jwt_encode to_encode SECRET_KEY.

Definition verify_token (tok : token) (request : option Fingerprint.request) (now : Z)
    : list (string * json) + http_exception :=
  match jwt_decode tok SECRET_KEY now with
  | inl payload =>
      match request, dict_get "fpt" payload with
      | Some r, Some fpt =>
          let current_fpt := get_fingerprint r in
          if negb (Json.eq_str fpt current_fpt)
          then inr (HTTPException HTTP_401_UNAUTHORIZED "Device fingerprint mismatch")
          else inl payload
      | _, _ => inl payload
      end
  | inr ExpiredSignatureError => inr (HTTPException HTTP_401_UNAUTHORIZED "Token expired")
  | inr PyJWTError => inr (HTTPException HTTP_401_UNAUTHORIZED "Invalid token")
  end.
End Jwt.

End Dependencies.

(* ===================================================================== *)
(** ** apps/backend/authorization.py *)
(* ===================================================================== *)

Module Authorization.

Inductive Permission :=
| READ_REPO | WRITE_REPO | DELETE_REPO | CREATE_REPO | ADMIN_REPO
| READ_PROFILE | WRITE_PROFILE | MANAGE_KEYS | EXPORT_KEYS
| ADMIN_ALL
| CREATE_SNAPSHOT | READ_SNAPSHOT | RESTORE_SNAPSHOT.

Inductive Role := ADMIN | USER | GUEST.

#[global] Instance Permission_eq_dec : EqDecision Permission.
Proof. solve_decision. Defined.

#[global] Instance Role_eq_dec : EqDecision Role.
Proof. solve_decision. Defined.

Definition permission_value (p : Permission) : string :=
  match p with
  | READ_REPO => "read:repo" | WRITE_REPO => "write:repo" | DELETE_REPO => "delete:repo"
  | CREATE_REPO => "create:repo" | ADMIN_REPO => "admin:repo"
  | READ_PROFILE => "read:profile" | WRITE_PROFILE => "write:profile"
  | MANAGE_KEYS => "manage:keys" | EXPORT_KEYS => "export:keys"
  | ADMIN_ALL => "admin:*"
  | CREATE_SNAPSHOT => "create:snapshot" | READ_SNAPSHOT => "read:snapshot"
  | RESTORE_SNAPSHOT => "restore:snapshot"
  end.

Definition ROLE_PERMISSIONS (r : Role) : list Permission :=
  match r with
  | ADMIN => [ADMIN_ALL; READ_REPO; WRITE_REPO; DELETE_REPO; CREATE_REPO; ADMIN_REPO;
              READ_PROFILE; WRITE_PROFILE; MANAGE_KEYS; EXPORT_KEYS;
              CREATE_SNAPSHOT; READ_SNAPSHOT; RESTORE_SNAPSHOT]
  | USER => [READ_REPO; WRITE_REPO; CREATE_REPO; READ_PROFILE; WRITE_PROFILE;
             MANAGE_KEYS; CREATE_SNAPSHOT; READ_SNAPSHOT]
  | GUEST => [READ_REPO; READ_PROFILE]
  end.

Definition mem (p : Permission) (l : list Permission) : bool :=
  existsb (fun x => bool_decide (x = p)) l.

Section Config.
(** [config.get("ADMIN_USERNAME", "admin", use_env_fallback=False)] *)
Variable admin_username : string.

(** [username] is whatever the token carries under ["sub"]. *)
Definition get_user_role (username : json) : Role :=
  if Json.eq_str username admin_username then ADMIN else GUEST.

Definition has_permission (user : list (string * json)) (permission : Permission) : bool :=
  match dict_get "sub" user with
  | None => false
  | Some username =>
      if negb (Json.truthy username) then false
      else
        let role := get_user_role username in
        let permissions := ROLE_PERMISSIONS role in
        if mem ADMIN_ALL permissions then true
        else mem permission permissions
  end.
End Config.

End Authorization.

(* ===================================================================== *)
(** ** apps/backend/token_manager.py: the other methods of
       [RefreshTokenManager] *)
(* ===================================================================== *)

Module RefreshTokenManager.
Import TokenManager.

(** [_cleanup_expired]; [now] is [datetime.utcnow()].  The source compares
    the ISO texts of the two times, which are ordered as the times are. *)
Definition _cleanup_expired (now : Z) (tokens : store) : store :=
  let expired_keys :=
    List.map fst (List.filter (fun item => (expires_at (snd item) <? now)%Z) tokens) in
  fold_left (fun acc key => dict_del key acc) expired_keys tokens.

(** [revoke_all_user_tokens]: the number of records removed, and the
    store. *)
Definition revoke_all_user_tokens (user : string) (tokens : store) : nat * store :=
  fold_left
    (fun st item =>
       if String.eqb (username (snd item)) user
       then (S (fst st), dict_del (fst item) (snd st))
       else st)
    tokens (0, tokens).

(** [get_user_token_count] *)
Definition get_user_token_count (user : string) (tokens : store) : nat :=
  list_sum
    (List.map (fun _ => 1)
       (List.filter
          (fun item => String.eqb (username (snd item)) user && negb (used (snd item)))
          tokens)).

End RefreshTokenManager.

(* ===================================================================== *)
(** ** apps/backend/token_manager.py: the recursion limit *)
(* ===================================================================== *)

(** [_invalidate_token_family] calls itself once for each record that was
    rotated into the one it removes, and nothing on the way catches the
    [RecursionError] Python raises when the calls nest deeper than the
    interpreter allows.  Here [depth] is the number of nested calls of the
    method that the interpreter lets complete at the place it is called
    from (what [sys.getrecursionlimit()] leaves once the frames on the
    stack and those a call needs for itself are taken off), and [None] is
    the [RecursionError].  What [self.tokens] holds when the error is raised
    depends on where the interpreter stops, and is not modelled. *)

Module RecursionLimit.
Import TokenManager.

(** [_invalidate_token_family] *)
Definition _invalidate_token_family_within (depth : nat) (token_hash : string)
    (tokens : store) : option store :=
  invalidate_fuel depth token_hash tokens.

(** [validate_and_rotate]; [fresh] is the token the nested
    [generate_refresh_token] draws. *)
Definition validate_and_rotate_within (depth : nat) (token : string) (fp : option string)
    (now : Z) (fresh : string) (tokens : store)
    : option (option (string * string) * store) :=
  let token_hash := hash_token token in
  match dict_get token_hash tokens with
  | None => Some (None, tokens)
  | Some data =>
      if used data then
        match _invalidate_token_family_within depth token_hash tokens with
        | Some tokens' => Some (None, tokens')
        | None => None
        end
      else if (expires_at data <? now)%Z then Some (None, dict_del token_hash tokens)
      else if truthy fp && truthy (fingerprint data)
                && negb (bool_decide (fingerprint data = fp))
      then
        match _invalidate_token_family_within depth token_hash tokens with
        | Some tokens' => Some (None, tokens')
        | None => None
        end
      else
        let data1 := set_used data in
        let tokens1 := dict_set token_hash data1 tokens in
        let '(new_token, tokens2) :=
          generate_refresh_token fresh now (username data)
            (if truthy fp then fp else fingerprint data) 7 tokens1 in
        let new_token_hash := hash_token new_token in
        let tokens3 :=
          if String.eqb new_token_hash token_hash then tokens2
          else dict_set token_hash (set_rotated_to new_token_hash data1) tokens2 in
        Some (Some (username data, new_token), tokens3)
  end.

End RecursionLimit.

(* ===================================================================== *)
(** ** apps/backend/fingerprint.py: the other methods of
       [DeviceFingerprint] *)
(* ===================================================================== *)

Module DeviceFingerprint.
Import Fingerprint.

(** [validate]: both branches compare the fingerprints for equality. *)
Definition validate (r : request) (stored_fingerprint : string) (strict : bool) : bool :=
  let current_fingerprint := generate r in
  if strict
  then String.eqb current_fingerprint stored_fingerprint
  else String.eqb current_fingerprint stored_fingerprint.

(** [get_fingerprint_info] *)
Definition get_fingerprint_info (r : request) : list (string * json) :=
  let client_ip := default "unknown" (client r) in
  [("fingerprint", JStr (generate r));
   ("user_agent", JStr (header r "user-agent"));
   ("ip", JStr client_ip);
   ("accept_language", JStr (header r "accept-language"));
   ("accept_encoding", JStr (header r "accept-encoding"))].

End DeviceFingerprint.

(* ===================================================================== *)
(** ** apps/backend/authorization.py: checks on a resource *)
(* ===================================================================== *)

Module Access.
Import Authorization Dependencies.

Definition HTTP_403_FORBIDDEN : Z := 403.

Section Config.
Variable admin_username : string.

(** [user.get("sub")]: [None] when the key is missing. *)
Definition sub (user : list (string * json)) : json := default JNull (dict_get "sub" user).

(** [check_resource_ownership]; the type and the identifier of the resource
    are not looked at. *)
Definition check_resource_ownership (user : list (string * json))
    (resource_type resource_id : json) : bool :=
  let username := sub user in
  if negb (Json.truthy username) then false
  else
    let role := get_user_role admin_username username in
    if bool_decide (role = ADMIN) then true
    else false.

(** [can]; [resource] is [None] or a dictionary. *)
Definition can (user : list (string * json)) (action : Permission)
    (resource : option (list (string * json))) : bool :=
  if negb (has_permission admin_username user action) then false
  else
    match resource with
    | None => true
    | Some [] => true
    | Some r =>
        let resource_type := default JNull (dict_get "type" r) in
        let resource_id := default JNull (dict_get "id" r) in
        if Json.truthy resource_type && Json.truthy resource_id
        then check_resource_ownership user resource_type resource_id
        else true
    end.

(** [require_permission]: [inl tt] when it returns. *)
Definition require_permission (user : list (string * json)) (permission : Permission)
    (resource : option (list (string * json))) : unit + http_exception :=
  if negb (can user permission resource)
  then inr (HTTPException HTTP_403_FORBIDDEN
              ("Permission denied: " +:+ permission_value permission))
  else inl tt.

(** [require_ownership], for a resource type that is a [str] as the
    signature says. *)
Definition require_ownership (user : list (string * json))
    (resource_type : string) (resource_id : json) : unit + http_exception :=
  if negb (check_resource_ownership user (JStr resource_type) resource_id)
  then inr (HTTPException HTTP_403_FORBIDDEN
              ("You do not have access to this " +:+ resource_type))
  else inl tt.

(** [require_admin] *)
Definition require_admin (user : list (string * json)) : unit + http_exception :=
  if negb (bool_decide (get_user_role admin_username (sub user) = ADMIN))
  then inr (HTTPException HTTP_403_FORBIDDEN "Admin access required")
  else inl tt.

End Config.

End Access.

(* ===================================================================== *)
(** ** What the code raises besides the exceptions of the file system *)
(* ===================================================================== *)

Module Raised.
Import Dependencies.

(** An [HTTPException], or the [KeyError] or [TypeError] of an expression
    evaluated on a value of another shape than the code expects.  A
    computation that can raise these returns [inr] of what was raised. *)
Inductive raised :=
| Http (e : http_exception)
| KeyError
| TypeError.

Definition bindr {A B} (m : M (A + raised)) (k : A -> M (B + raised)) : M (B + raised) :=
  r <- m ;;
  match r with
  | inl a => k a
  | inr e => ret (inr e)
  end.

End Raised.

Notation "x <-! m ;; k" := (Raised.bindr m (fun x => k))
  (at level 100, m at next level, right associativity).

(* ===================================================================== *)
(** ** apps/backend/dependencies.py: refresh tokens and step-up *)
(* ===================================================================== *)

Module StepUp.
Import Dependencies Raised.

Definition REFRESH_TOKEN_EXPIRE_DAYS : Z := 7.

(** [now - step_up_at] for a truthy [step_up_at]: [bool] is a subtype of
    [int]; any other value raises [TypeError]. *)
Definition elapsed (now : Z) (step_up_at : json) : option Z :=
  match step_up_at with
  | JInt n => Some (now - n)%Z
  | JBool b => Some (now - (if b then 1 else 0))%Z
  | _ => None
  end.

(** [require_step_up]; [now] is [datetime.utcnow().timestamp()], in
    seconds as in [create_access_token]. *)
Definition require_step_up (user : list (string * json)) (now : Z)
    : list (string * json) + raised :=
  if negb (Json.truthy (default JNull (dict_get "step_up" user)))
  then inr (Http (HTTPException Access.HTTP_403_FORBIDDEN "Step-up authentication required"))
  else
    let step_up_at := default JNull (dict_get "step_up_at" user) in
    if negb (Json.truthy step_up_at)
    then inr (Http (HTTPException Access.HTTP_403_FORBIDDEN "Step-up authentication expired"))
    else
      match elapsed now step_up_at with
      | None => inr TypeError
      | Some d =>
          if (d >? 300)%Z
          then inr (Http (HTTPException Access.HTTP_403_FORBIDDEN
                            "Step-up authentication expired"))
          else inl user
      end.

Section Jwt.
Variable token : Type.
Variable jwt_encode : list (string * json) -> string -> token.
Variable jwt_decode : token -> string -> Z -> list (string * json) + jwt_error.
Variable SECRET_KEY : string.

(** [create_refresh_token]; [now] is [datetime.utcnow()] in seconds. *)
Definition create_refresh_token (data : list (string * json)) (fingerprint : string)
    (now : Z) : token :=
  let to_encode := data in
  let expire := (now + REFRESH_TOKEN_EXPIRE_DAYS * 86400)%Z in
  let to_encode :=
    dict_update to_encode
      [("exp", JInt expire); ("fpt", JStr fingerprint); ("type", JStr "refresh")] in
  jwt_encode to_encode SECRET_KEY.

(** [get_current_user] *)
Definition get_current_user (request : Fingerprint.request) (tok : token) (now : Z)
    : list (string * json) + http_exception :=
  verify_token token jwt_decode SECRET_KEY tok (Some request) now.

End Jwt.

End StepUp.

(* ===================================================================== *)
(** ** Expressions on decoded JSON, and strings used as file names *)
(* ===================================================================== *)

Module Dyn.
Import Raised.

(** [j[k]] for a [str] [k]: a missing key is a [KeyError]; a list, a
    string, a number, [None] and a boolean raise [TypeError]. *)
Definition subscript (j : json) (k : string) : json + raised :=
  match j with
  | JDict d =>
      match dict_get k d with
      | Some v => inl v
      | None => inr KeyError
      end
  | _ => inr TypeError
  end.

(** [j.get(k, default)]: only a dictionary has the method. *)
Definition get (j : json) (k : string) (dflt : json) : M json :=
  match j with
  | JDict d => ret (default dflt (dict_get k d))
  | _ => raise AttributeError
  end.

(** [j.keys()] *)
Definition keys (j : json) : M (list string) :=
  match j with
  | JDict d => ret (d.*1)
  | _ => raise AttributeError
  end.

(** [a == b] on decoded JSON: [True] and [False] are the integers 1 and
    0; lists are equal item by item; dictionaries are equal when they have
    as many keys and equal values under each. *)
Fixpoint py_eqb (a b : json) {struct a} : bool :=
  match a, b with
  | JNull, JNull => true
  | JBool x, JBool y => Bool.eqb x y
  | JBool x, JInt n => ((if x then 1 else 0) =? n)%Z
  | JInt n, JBool y => (n =? (if y then 1 else 0))%Z
  | JInt n, JInt m => (n =? m)%Z
  | JStr s, JStr t => String.eqb s t
  | JList l, JList m =>
      (fix items (l m : list json) {struct l} : bool :=
         match l, m with
         | [], [] => true
         | x :: l', y :: m' => py_eqb x y && items l' m'
         | _, _ => false
         end) l m
  | JDict d, JDict e =>
      Nat.eqb (length d) (length e)
      && (fix values (d : list (string * json)) {struct d} : bool :=
            match d with
            | [] => true
            | (k, v) :: d' =>
                match dict_get k e with
                | Some v' => py_eqb v v' && values d'
                | None => false
                end
            end) d
  | _, _ => false
  end.

(** The characters of a [str], as iterating over it yields them. *)
Fixpoint chars (s : string) : list string :=
  match s with
  | EmptyString => []
  | String c r => String c EmptyString :: chars r
  end.

(** [[x for x in j]]: a list yields its items, a dictionary its keys, a
    string its characters; nothing else can be iterated. *)
Definition iterate (j : json) : list json + raised :=
  match j with
  | JList l => inl l
  | JDict d => inl (List.map JStr (d.*1))
  | JStr s => inl (List.map JStr (chars s))
  | _ => inr TypeError
  end.

End Dyn.

Module Paths.

Definition NUL : ascii := ascii_of_nat 0.

(** A string that names one entry of a directory. *)
Definition component (s : string) : bool :=
  negb (String.eqb s "") && negb (String.eqb s ".") && negb (String.eqb s "..")
  && negb (Py.contains "/" s) && negb (Py.contains NUL s).

(** [os.path.join(p, s)] is [p ++ [s]] for such a string.  For any other
    (several components, an absolute path, [..]) the embedding stops. *)
Definition part (s : string) : M string :=
  if component s then ret s else raise NotRendered.

End Paths.

(* ===================================================================== *)
(** ** apps/backend/svcs.py: the files of a user *)
(* ===================================================================== *)

(** Files written with [json.dump(..., indent=2)] are represented by the
    value dumped, like the others: the indentation changes the text, which
    only [json.load] reads. *)

Module SvcsUsers.
Import Svcs Raised Dyn Paths.

Definition default_profile (username : string) : json :=
  JDict [("username", JStr username);
         ("bio", JStr "No bio yet.");
         ("location", JStr "Unknown");
         ("website", JStr "");
         ("avatar_url",
          JStr ("https://api.dicebear.com/7.x/avataaars/svg?seed=" +:+ username
                +:+ "&accessories=prescription02"))].

Definition default_2fa : json := JDict [("enabled", JBool false); ("secret", JNull)].

(** The new entry of [add_user_key]: the values under ["key"] and
    ["title"], in the order the source evaluates them. *)
Definition new_key (key_data : list (string * json)) : M (json + raised) :=
  match dict_get "key" key_data with
  | None => ret (inr KeyError)
  | Some (JStr key) =>
      match dict_get "title" key_data with
      | None => ret (inr KeyError)
      | Some title =>
          ret (inl (JDict [("id", JStr (Py.slice 0 8 (sha256_hexdigest (Py.encode key))));
                           ("title", title);
                           ("key", JStr key);
                           ("created_at", JStr timestamp)]))
      end
  | Some _ => raise AttributeError
  end.

(** [[k for k in keys if k["id"] != key_id]] on the items of [keys]. *)
Fixpoint other_keys (key_id : string) (items : list json) : list json + raised :=
  match items with
  | [] => inl []
  | k :: rest =>
      match subscript k "id" with
      | inr e => inr e
      | inl id =>
          match other_keys key_id rest with
          | inr e => inr e
          | inl kept => inl (if negb (Json.eq_str id key_id) then k :: kept else kept)
          end
      end
  end.

Section Root.
Variable SVCS_ROOT : path.

Definition user_dir (username : string) : path := SVCS_ROOT ++ ["users"; username].
Definition profile_path (username : string) : path := user_dir username ++ ["profile.json"].
Definition keys_path (username : string) : path := user_dir username ++ ["keys.json"].
Definition auth_path (username : string) : path := user_dir username ++ ["auth_2fa.json"].
Definition hash_path (username : string) : path := user_dir username ++ ["password.hash"].

(** [get_user_profile] *)
Definition get_user_profile (username : string) : M json :=
  username <- part username ;;
  present <- exists_ (profile_path username) ;;
  if present then json_load (profile_path username)
  else ret (default_profile username).

(** [update_user_profile]; [current.update] is a method of dictionaries
    only. *)
Definition update_user_profile (username : string) (data : list (string * json)) : M json :=
  name <- part username ;;
  makedirs (user_dir name) ;;;
  current <- get_user_profile username ;;
  match current with
  | JDict d =>
      let current := JDict (dict_update d data) in
      json_dump (profile_path name) current ;;;
      ret current
  | _ => raise AttributeError
  end.

(** [get_user_keys] *)
Definition get_user_keys (username : string) : M json :=
  username <- part username ;;
  present <- exists_ (keys_path username) ;;
  if present then json_load (keys_path username)
  else ret (JList []).

(** [add_user_key]; [keys.append] is a method of lists only. *)
Definition add_user_key (username : string) (key_data : list (string * json))
    : M (json + raised) :=
  name <- part username ;;
  makedirs (user_dir name) ;;;
  keys <- get_user_keys username ;;
  new <-! new_key key_data ;;
  match keys with
  | JList l =>
      let keys := JList (l ++ [new]) in
      json_dump (keys_path name) keys ;;;
      ret (inl keys)
  | _ => raise AttributeError
  end.

(** [delete_user_key] *)
Definition delete_user_key (username key_id : string) : M (json + raised) :=
  name <- part username ;;
  present <- exists_ (keys_path name) ;;
  if negb present then ret (inl (JList []))
  else
    keys <- get_user_keys username ;;
    match iterate keys with
    | inr e => ret (inr e)
    | inl items =>
        match other_keys key_id items with
        | inr e => ret (inr e)
        | inl kept =>
            json_dump (keys_path name) (JList kept) ;;;
            ret (inl (JList kept))
        end
    end.

(** [get_user_2fa] *)
Definition get_user_2fa (username : string) : M json :=
  username <- part username ;;
  present <- exists_ (auth_path username) ;;
  if present then json_load (auth_path username)
  else ret default_2fa.

(** [update_user_2fa] *)
Definition update_user_2fa (username : string) (enabled : bool) (secret : option string)
    : M json :=
  username <- part username ;;
  makedirs (user_dir username) ;;;
  let data := JDict [("enabled", JBool enabled);
                     ("secret", match secret with Some s => JStr s | None => JNull end)] in
  json_dump (auth_path username) data ;;;
  ret data.

(** [update_user_password] *)
Definition update_user_password (username password_hash : string) : M unit :=
  username <- part username ;;
  makedirs (user_dir username) ;;;
  write_text (hash_path username) password_hash.

(** [get_persisted_password_hash] *)
Definition get_persisted_password_hash (username : string) : M (option string) :=
  username <- part username ;;
  present <- exists_ (hash_path username) ;;
  if present then s <- read_text (hash_path username) ;; ret (Some (Py.strip s))
  else ret None.

End Root.

End SvcsUsers.

(* ===================================================================== *)
(** ** apps/backend/svcs.py: [get_diff] *)
(* ===================================================================== *)

Module SvcsDiff.
Import Svcs Dependencies Raised Dyn Paths.

(** The three lists of [diff], in the order paths are appended. *)
Record diff := Diff { added : list string; removed : list string; modified : list string }.

Definition diff_json (d : diff) : json :=
  JDict [("added", JList (List.map JStr (added d)));
         ("removed", JList (List.map JStr (removed d)));
         ("modified", JList (List.map JStr (modified d)))].

(** The body of the loop over [all_paths], for dictionaries
    [entries_from] and [entries_to]. *)
Definition diff_step (entries_from entries_to : list (string * json)) (d : diff)
    (path : string) : diff + raised :=
  match dict_get path entries_from with
  | None => inl (Diff (added d ++ [path]) (removed d) (modified d))
  | Some e_from =>
      match dict_get path entries_to with
      | None => inl (Diff (added d) (removed d ++ [path]) (modified d))
      | Some e_to =>
          match subscript e_from "id" with
          | inr e => inr e
          | inl id_from =>
              match subscript e_to "id" with
              | inr e => inr e
              | inl id_to =>
                  if negb (py_eqb id_from id_to)
                  then inl (Diff (added d) (removed d) (modified d ++ [path]))
                  else inl d
              end
          end
      end
  end.

Fixpoint diff_loop (entries_from entries_to : list (string * json)) (paths : list string)
    (d : diff) : diff + raised :=
  match paths with
  | [] => inl d
  | path :: rest =>
      match diff_step entries_from entries_to d path with
      | inr e => inr e
      | inl d' => diff_loop entries_from entries_to rest d'
      end
  end.

Section Root.
Variable SVCS_ROOT : path.

(** The order in which Python iterates over
    [set(entries_from.keys()) | set(entries_to.keys())], from the keys of
    the two dictionaries: it depends on the hashes of the strings, which
    change from one process to the next. *)
Variable set_order : list string -> list string -> list string.

(** [_load_tree], the function local to [get_diff]. *)
Definition _load_tree (repo_name snapshot_id : string) : M (json + raised) :=
  file <- part (snapshot_id +:+ ".json") ;;
  snap <- json_load (snapshots_dir SVCS_ROOT repo_name ++ [file]) ;;
  match subscript snap "root_tree" with
  | inr e => ret (inr e)
  | inl root_tree =>
      match format_id root_tree with
      | None => raise NotRendered
      | Some tree_id =>
          file <- part (tree_id +:+ ".json") ;;
          tree <- json_load (trees_dir SVCS_ROOT repo_name ++ [file]) ;;
          ret (inl tree)
      end
  end.

(** [get_diff] *)
Definition get_diff (repo_name from_id to_id : string) : M (json + raised) :=
  repo_name <- part repo_name ;;
  tree_from <-! _load_tree repo_name from_id ;;
  tree_to <-! _load_tree repo_name to_id ;;
  entries_from <- get tree_from "entries" (JDict []) ;;
  entries_to <- get tree_to "entries" (JDict []) ;;
  keys_from <- keys entries_from ;;
  keys_to <- keys entries_to ;;
  match entries_from, entries_to with
  | JDict d_from, JDict d_to =>
      match diff_loop d_from d_to (set_order keys_from keys_to) (Diff [] [] []) with
      | inr e => ret (inr e)
      | inl d => ret (inl (diff_json d))
      end
  | _, _ => raise AttributeError
  end.

End Root.

End SvcsDiff.

(* ===================================================================== *)
(** ** apps/backend/routers/repo.py: reading a snapshot *)
(* ===================================================================== *)

Module RepoRouter.
Import Svcs Dependencies Raised Dyn Paths.

Definition HTTP_404 (detail : string) : raised := Http (HTTPException 404 detail).

Section Root.
(** The value of the configuration key [SVCS_ROOT]: the router reads it at
    each call and svcs.py once, when it is imported; the embedding has one
    value for both. *)
Variable SVCS_ROOT : path.

(** [check_repo_access] of dependencies.py, which FastAPI calls on the
    name before the body of each of the endpoints below.  Its parameter
    [user] is the result of [get_current_user], called before it; the body
    does not use it. *)
Definition check_repo_access (name : string) : M (string + raised) :=
  file <- part name ;;
  present <- exists_ (repo_path SVCS_ROOT file) ;;
  if negb present then ret (inr (HTTP_404 "Repository not found"))
  else ret (inl name).

(** The part [get_tree] and [get_file] have in common: from the snapshot
    to its tree. *)
Definition snapshot_tree (snapshot_id name : string) : M (json + raised) :=
  name <- part name ;;
  file <- part (snapshot_id +:+ ".json") ;;
  let snapshot_path := snapshots_dir SVCS_ROOT name ++ [file] in
  present <- exists_ snapshot_path ;;
  if negb present then ret (inr (HTTP_404 "Snapshot not found"))
  else
    snapshot <- json_load snapshot_path ;;
    match subscript snapshot "root_tree" with
    | inr e => ret (inr e)
    | inl tree_id =>
        match format_id tree_id with
        | None => raise NotRendered
        | Some tree_id =>
            file <- part (tree_id +:+ ".json") ;;
            let tree_path := trees_dir SVCS_ROOT name ++ [file] in
            present <- exists_ tree_path ;;
            if negb present then ret (inr (HTTP_404 "Tree not found"))
            else
              tree <- json_load tree_path ;;
              ret (inl tree)
        end
    end.

(** [get_tree] *)
Definition get_tree (snapshot_id name : string) : M (json + raised) :=
  snapshot_tree snapshot_id name.

(** The path [get_file] gives the blob, from [blob_info['id']]: slicing
    needs a string or a list, and [os.path.join] a string.  Slicing a
    dictionary raises [TypeError] or [KeyError] with the version of Python:
    the embedding stops there. *)
Definition blob_path (name : string) (blob_id : json) : M (path + raised) :=
  match blob_id with
  | JStr id =>
      a <- part (Py.slice 0 2 id) ;;
      b <- part (Py.slice 2 4 id) ;;
      file <- part (id +:+ ".blob") ;;
      ret (inl (blobs_dir SVCS_ROOT name ++ [a; b; file]))
  | JDict _ => raise NotRendered
  | _ => ret (inr TypeError)
  end.

(** [get_file]: the bytes of the response. *)
Definition get_file (snapshot_id file_path name : string) : M (list byte + raised) :=
  tree <-! snapshot_tree snapshot_id name ;;
  entries <- get tree "entries" (JDict []) ;;
  blob_info <- get entries file_path JNull ;;
  if negb (Json.truthy blob_info) then ret (inr (HTTP_404 "File not found in snapshot"))
  else
    match subscript blob_info "id" with
    | inr e => ret (inr e)
    | inl blob_id =>
        blob_path <-! blob_path name blob_id ;;
        present <- exists_ blob_path ;;
        if negb present then ret (inr (HTTP_404 "Blob not found"))
        else
          content <- read_bytes blob_path ;;
          ret (inl content)
    end.

End Root.

End RepoRouter.

(* ===================================================================== *)
(** * Vocabulary of the properties *)
(* ===================================================================== *)

(** ** States of the disk *)

Module FSSpec.

(** [os.path.exists] *)
Definition exists_on (w : world) (p : path) : bool := is_file w p || is_dir w p.

(** [trans evs w w']: going from [w] to [w'] logged the events [evs],
    changed no file outside their paths, removed no file and no directory,
    and left a file wherever a write succeeded. *)
Definition trans (evs : list event) (w w' : world) : Prop :=
  log w' = log w ++ evs
  /\ (forall p, p ∉ ev_path <$> evs -> files w' !! p = files w !! p)
  /\ (forall p, is_Some (files w !! p) -> is_Some (files w' !! p))
  /\ (forall p, EvWrite p Written ∈ evs -> is_Some (files w' !! p))
  /\ dirs w ⊆ dirs w'.

Definition raised {A} (r : result A) : Prop := exists e, r = Raise e.

End FSSpec.

(** ** Text *)

Module PySpec.

Fixpoint nonspace (s : string) : bool :=
  match s with
  | EmptyString => true
  | String c r => negb (Py.is_space c) && nonspace r
  end.

End PySpec.

(** ** Refresh tokens *)

Module TokenSpec.
Import TokenManager.

(** The store [_invalidate_token_family] starts its loop from. *)
Definition after_delete (h : string) (s : store) : store :=
  if dict_has h s then dict_del h s else s.

Definition visit (fuel : nat) (h : string) (acc : option store) (item : string * token_data)
    : option store :=
  match acc with
  | None => None
  | Some cur =>
      if opt_eqb (rotated_to (snd item)) h then invalidate_fuel fuel (fst item) cur else Some cur
  end.

(** The scenario of the specification: issue R1, rotate it to R2, present
    R1 again, then present R2. *)
Definition issued : store :=
  snd (generate_refresh_token "R1" 0 "admin" (Some "fp") 7 []).

Definition rotated : store :=
  snd (validate_and_rotate "R1" (Some "fp") 10 "R2" issued).

Definition replayed : store :=
  snd (validate_and_rotate "R1" (Some "fp") 20 "R3" rotated).

End TokenSpec.

(** ** Device fingerprint *)

Module FingerprintSpec.
Import Fingerprint.

Fixpoint count_char (c : ascii) (s : string) : nat :=
  match s with
  | EmptyString => 0
  | String d r => (if Ascii.eqb c d then 1 else 0) + count_char c r
  end.

(** The string the specification describes: four segments, an empty one for
    each missing signal. *)
Definition four_segments (r : request) : string :=
  header r "user-agent" +:+ "|" +:+ partial_ip (default "" (client r)) +:+ "|"
  +:+ header r "accept-language" +:+ "|" +:+ header r "accept-encoding".

Definition no_peer : request := Request [("user-agent", "curl/8.0")] None.

End FingerprintSpec.

(** ** Access tokens *)

Module DependenciesSpec.
Import Dependencies.

(** A codec to run the statements on: a token is the signed claims with the
    key; decoding checks the key, then ["exp"]. *)
Definition toy_encode (payload : list (string * json)) (key : string)
    : list (string * json) * string := (payload, key).

Definition toy_decode (tok : list (string * json) * string) (key : string) (now : Z)
    : list (string * json) + jwt_error :=
  if String.eqb (snd tok) key then
    match dict_get "exp" (fst tok) with
    | Some (JInt e) => if (e <? now)%Z then inr ExpiredSignatureError else inl (fst tok)
    | _ => inl (fst tok)
    end
  else inr PyJWTError.

Definition browser : Fingerprint.request :=
  Fingerprint.Request [("user-agent", "curl/8.0"); ("accept-encoding", "gzip")] (Some "10.1.2.3").

End DependenciesSpec.

(** ** The snapshot engine *)

Module SvcsSpec.
Import Svcs FSSpec.

(** What [_build_tree] computes, as a function of the working directory. *)
Definition tree_step (entries : list (string * json)) (f : string * list byte)
    : list (string * json) :=
  dict_set (fst f) (blob_entry (_hash_content (snd f))) entries.

Definition tree_entries (work_dir : wnode) : list (string * json) :=
  fold_left tree_step (walk [] work_dir) [].

Definition tree_of (work_dir : wnode) : json :=
  JDict [("entries", JDict (tree_entries work_dir))].

(** The identifier [_store_tree] gives a tree. *)
Definition tree_hash (tree : json) : string :=
  sha256_hexdigest (Py.encode (Json.dumps true tree)).

Definition tree_id_of (work_dir : wnode) : string := tree_hash (tree_of work_dir).

(** The parent [save_snapshot] reads, from what [refs/main] holds. *)
Definition parent_of_ref (c : option content) : option string :=
  match c with
  | None => Some ""
  | Some c => Py.strip <$> Py.decode (content_bytes c)
  end.

Definition blob_event (bd : path) (e : event) : Prop := exists id, ev_path e = blob_file bd id.

Definition written (e : event) : Prop := ev_outcome e = Written.

(** The blob id recorded for each path, as [_build_tree] accumulates them. *)
Definition blob_ids (work_dir : wnode) : list (string * string) :=
  fold_left (fun ids f => dict_set (fst f) (_hash_content (snd f)) ids) (walk [] work_dir) [].

(** The text of a tree, written out: the paths in increasing order, items
    separated by [", "], keys from values by [": "]. *)
Definition entry_text (e : string * string) : string :=
  Json.quote (fst e) +:+ ": {" +:+ Json.quote "id" +:+ ": " +:+ Json.quote (snd e)
  +:+ ", " +:+ Json.quote "type" +:+ ": " +:+ Json.quote "blob" +:+ "}".

Definition tree_text (ids : list (string * string)) : string :=
  "{" +:+ Json.quote "entries" +:+ ": {"
  +:+ Py.join ", " (List.map entry_text (sort_items ids)) +:+ "}}".

(** The text the specification describes: no space after [","] and [":"]. *)
Definition compact_entry_text (e : string * string) : string :=
  Json.quote (fst e) +:+ ":{" +:+ Json.quote "id" +:+ ":" +:+ Json.quote (snd e)
  +:+ "," +:+ Json.quote "type" +:+ ":" +:+ Json.quote "blob" +:+ "}".

Definition compact_tree_text (ids : list (string * string)) : string :=
  "{" +:+ Json.quote "entries" +:+ ":{"
  +:+ Py.join "," (List.map compact_entry_text (sort_items ids)) +:+ "}}".

(** The value a snapshot written by [save_snapshot] holds under
    ["parent"]. *)
Definition parent_json (p : string) : json := if String.eqb p "" then JNull else JStr p.

Definition id_shaped (id : string) : Prop := id <> "" /\ PySpec.nonspace id = true.

Section Runs.
Variable R : path.

Definition lock_path (repo : string) : path := repo_path R repo ++ ["repo.lock"].

(** The paths [save_snapshot] may write before it opens [refs/main]. *)
Definition object_event (repo sid : string) (wd : wnode) (e : event) : Prop :=
  ev_path e = lock_path repo
  \/ blob_event (blobs_dir R repo) e
  \/ ev_path e = tree_file (trees_dir R repo) (tree_id_of wd)
  \/ ev_path e = snapshot_file (snapshots_dir R repo) sid.

(** A run that got as far as opening [refs/main]: [wm] is the state at
    that moment and [pre] the writes made until then. *)
Inductive reached_ref (repo msg : string) (wd : wnode) (w w' : world) (r : result string)
    : Prop :=
| ReachedRef (pre : list event) (o : outcome) (wm : world) (par sid : string)
    (Hpre : trans pre w wm)
    (Hobj : Forall (fun e => written e /\ object_event repo sid wd e) pre)
    (Href : trans [EvWrite (ref_path R repo) o] wm w')
    (Hparent : parent_of_ref (files w !! ref_path R repo) = Some par)
    (Hsid : snapshot_id_of (tree_id_of wd) par = Some sid)
    (Htree : files wm !! tree_file (trees_dir R repo) (tree_id_of wd)
             = Some (Doc (tree_of wd)))
    (Hsnap : files wm !! snapshot_file (snapshots_dir R repo) sid
             = Some (Doc (snapshot_doc sid (tree_id_of wd) par msg)))
    (Htree_ev : EvWrite (tree_file (trees_dir R repo) (tree_id_of wd)) Written ∈ pre)
    (Hsnap_ev : EvWrite (snapshot_file (snapshots_dir R repo) sid) Written ∈ pre)
    (Hblobs : forall f, f ∈ walk [] wd ->
                exists_on wm (blob_file (blobs_dir R repo) (_hash_content (snd f))) = true)
    (Hout : match o with
            | Written => r = Ok sid
                         /\ files w' !! ref_path R repo = Some (Data (Py.encode sid))
            | Failed => raised r
                        /\ files w' !! ref_path R repo = files wm !! ref_path R repo
            | Torn => raised r /\ files w' !! ref_path R repo = Some (Data [])
            end).

(** A run that raised before opening [refs/main]. *)
Definition aborted (repo : string) (w w' : world) (r : result string) : Prop :=
  raised r /\ exists evs, trans evs w w' /\ Forall (fun e => ev_path e <> ref_path R repo) evs.

(** [history_of repo w head ids docs]: starting from [head] and following
    parents in [w], one meets the snapshots [docs], whose identifiers are
    [ids], newest first, and then no parent; the root tree of each is in
    [objects/trees]. *)
Inductive history_of (repo : string) (w : world) : string -> list string -> list json -> Prop :=
| history_nil : history_of repo w "" [] []
| history_cons sid tid par msg ids docs :
    sid <> "" ->
    files w !! snapshot_file (snapshots_dir R repo) sid
    = Some (Doc (snapshot_doc sid tid par msg)) ->
    is_Some (files w !! tree_file (trees_dir R repo) tid) ->
    history_of repo w par ids docs ->
    history_of repo w sid (sid :: ids) (snapshot_doc sid tid par msg :: docs).

(** The states [init_repo] followed by successful calls of [save_snapshot]
    leads to, with the identifiers the calls returned, newest first. *)
Inductive reachable (repo : string) : world -> list string -> Prop :=
| reach_init w0 p w :
    init_repo R repo w0 = (Ok p, w) -> reachable repo w []
| reach_save w ids fl msg wd sid w' :
    reachable repo w ids ->
    save_snapshot R repo msg wd (with_faults fl w) = (Ok sid, w') ->
    reachable repo w' (sid :: ids).

(** A cycle of parents: the loop of [get_history] never leaves it. *)
Definition cycle_step (repo : string) (w : world) (cyc : list string) (id : string) : bool :=
  negb (String.eqb id "")
  && match files w !! snapshot_file (snapshots_dir R repo) id with
     | Some (Doc (JDict d)) =>
         match dict_get "parent" d with
         | Some (JStr p) => existsb (String.eqb p) cyc
         | _ => false
         end
     | _ => false
     end.

Definition head_in_cycle (repo : string) (w : world) (cyc : list string) : bool :=
  match files w !! ref_path R repo with
  | Some c =>
      match Py.decode (content_bytes c) with
      | Some s => existsb (String.eqb (Py.strip s)) cyc
      | None => false
      end
  | None => false
  end.

End Runs.

(** A repository to run the statements on. *)
Definition root : path := ["svcs-data"].

Definition fresh_disk : world := World ∅ {[ root ]} [] [].

Definition hello_dir : wnode := WDir [("hello.txt", WFile (Py.encode ("hi" +:+ Py.nl)))].

Definition demo0 : world := snd (init_repo root "demo" fresh_disk).


(** Two successive saves of the same directory. *)
Definition first_save : result string * world :=
  save_snapshot root "demo" "first" hello_dir (with_faults [] demo0).

Definition second_save : result string * world :=
  save_snapshot root "demo" "first" hello_dir (with_faults [] (snd first_save)).

Definition hello_blob_id : string :=
  "98ea6e4f216f2fb4b69fff9b3a44842c38686ca685f3f55dc48c5d3fb1107be4".

Definition hello_tree_id : string :=
  "e0e4c2a8fe9dcc6209a50aa7715fa1ee025dbd598566ccd02e26a1cbae6edfa5".

(** One file, saved again and again. *)
Definition cycle_dir : wnode := WDir [("a", WFile (Py.encode "1000657"))].

Fixpoint save_many (n : nat) (w : world) : list string * world :=
  match n with
  | O => ([], w)
  | S k =>
      let prev := save_many k w in
      match save_snapshot root "demo" "again" cycle_dir (with_faults [] (snd prev)) with
      | (Ok sid, w2) => (sid :: fst prev, w2)
      | (Raise _, w2) => (fst prev, w2)
      end
  end.

Definition cycle_world : world := snd (save_many 32 demo0).

Definition cycle_ids : list string := fst (save_many 32 demo0).

End SvcsSpec.

(** ** Ordering by key *)

Module ParitySpec.

Definition kle {V : Type} (x y : string * V) : Prop := String.leb (fst x) (fst y) = true.

(** The blob ids of the index as the client's tree records them. *)
Definition index_ids (index : list (string * string)) : list (string * string) :=
  fold_left (fun d a => dict_set (fst a) (snd a) d) index [].

End ParitySpec.

(** ** Times *)

Module TimeSpec.

(** The times a [datetime] holds, in microseconds from its least value,
    0001-01-01T00:00:00, to its greatest, 9999-12-31T23:59:59.999999; the
    sum of a [datetime] and a [timedelta] outside of them raises
    [OverflowError]. *)
Definition datetime_max : Z := 3652059 * 86400000000 - 1.

Definition is_datetime (t : Z) : Prop := (0 <= t <= datetime_max)%Z.

End TimeSpec.

(** ** Families of refresh tokens *)

Module TokenFamily.
Import TokenManager.

(** [rotates_into s k h]: following [rotated_to] from the record of [k]
    through records of [s] leads to [h]. *)
Inductive rotates_into (s : store) : string -> string -> Prop :=
| rotates_now k d h :
    dict_get k s = Some d -> rotated_to d = Some h -> rotates_into s k h
| rotates_later k d m h :
    dict_get k s = Some d -> rotated_to d = Some m -> rotates_into s m h ->
    rotates_into s k h.

(** A record counted by [get_user_token_count]. *)
Definition active (user : string) (item : string * token_data) : bool :=
  String.eqb (username (snd item)) user && negb (used (snd item)).

End TokenFamily.
(** ** Peer addresses *)

Module PeerAddress.

Definition separator (v6 : bool) : string := if v6 then ":" else ".".

(** The number of groups [partial_ip] keeps. *)
Definition groups (v6 : bool) : nat := if v6 then 6 else 3.

(** [leading_groups v6 lead rest]: the address is made of the groups
    [lead ++ rest], and [lead] are the ones [partial_ip] keeps: the first
    six of the groups between colons, or the first three of the groups
    between dots of an address that has no colon. *)
Definition leading_groups (v6 : bool) (lead rest : list string) : Prop :=
  length lead = groups v6
  /\ Forall (fun g => Py.contains (if v6 then ":" else ".")%char g = false) (lead ++ rest)
  /\ (v6 = false -> Forall (fun g => Py.contains ":" g = false) (lead ++ rest)).

End PeerAddress.

(** ** Names of files *)

Module NameSpec.

Fixpoint all_chars (P : ascii -> bool) (s : string) : bool :=
  match s with
  | EmptyString => true
  | String c r => P c && all_chars P r
  end.

(** A character that neither separates components nor ends a name, and is
    not the dot. *)
Definition namechar (c : ascii) : bool :=
  negb (Ascii.eqb c "/") && negb (Ascii.eqb c Paths.NUL) && negb (Ascii.eqb c ".").

End NameSpec.

(** ** The objects of a repository *)

Module BlobSpec.
Import Svcs.

(** The blobs under [bd] are sound: the place of a blob is no directory,
    and what it holds has the SHA-256 its name says. *)
Definition sound (w : world) (bd : path) : Prop :=
  forall id,
    is_dir w (blob_file bd id) = false
    /\ forall c, files w !! blob_file bd id = Some c -> _hash_content (content_bytes c) = id.

(** The files at the places of the blobs of a repository hold what their
    names say. *)
Definition hashed (R : path) (repo : string) (w : world) : Prop :=
  forall id c, files w !! blob_file (blobs_dir R repo) id = Some c ->
    _hash_content (content_bytes c) = id.

(** A directory [save_snapshot] may create in a repository: one on the way
    to [objects/trees], to [objects/snapshots] or to the directory of a
    blob. *)
Definition made_dir (R : path) (repo : string) (q : path) : Prop :=
  exists rest,
    q ++ rest = trees_dir R repo \/ q ++ rest = snapshots_dir R repo
    \/ exists id, q ++ rest = blob_sub (blobs_dir R repo) id.

(** From [w] to [w'], only such directories were created. *)
Definition grows (R : path) (repo : string) (w w' : world) : Prop :=
  forall q, q ∈ dirs w' -> q ∈ dirs w \/ made_dir R repo q.

End BlobSpec.

(** ** A save after a torn write *)

Module RetrySpec.
Import Svcs SvcsSpec.


End RetrySpec.

(** ** Keys of a user *)

Module UsersSpec.
Import SvcsUsers SvcsSpec.

(** A first key added for a user that has none, then a second one. *)
Definition first_key_run : result (json + Raised.raised) * world :=
  add_user_key root "admin"
    [("title", JStr "laptop"); ("key", JStr "ssh-ed25519 AAAAC3Nza")] fresh_disk.

Definition second_key_run : result (json + Raised.raised) * world :=
  add_user_key root "admin"
    [("title", JStr "desk"); ("key", JStr "ssh-ed25519 AAAAC3Nzb")]
    (with_faults [] (snd first_key_run)).

End UsersSpec.

(** ** The difference between two trees *)

Module DiffSpec.
Import Svcs SvcsSpec.

(** How [get_diff] sorts a path, from the blob identifiers the two trees
    record: [old] for [from_id], [new] for [to_id]. *)
Definition is_added (old new : list (string * string)) (p : string) : bool :=
  negb (dict_has p old).

Definition is_removed (old new : list (string * string)) (p : string) : bool :=
  dict_has p old && negb (dict_has p new).

Definition is_modified (old new : list (string * string)) (p : string) : bool :=
  match dict_get p old, dict_get p new with
  | Some a, Some b => negb (String.eqb a b)
  | _, _ => false
  end.

(** One order in which the union of two lists of keys can be visited. *)
Definition first_seen (a b : list string) : list string := a ++ list_difference b a.

(** The directory of [hello_dir] after an edit: one file changed, one
    created. *)
Definition edited_dir : wnode :=
  WDir [("hello.txt", WFile (Py.encode ("hello" +:+ Py.nl)));
        ("notes.txt", WFile (Py.encode "todo"))].

Definition edited_save : result string * world :=
  save_snapshot root "demo" "second" edited_dir (with_faults [] (snd first_save)).

End DiffSpec.

(* ===================================================================== *)
(** * Properties *)
(* ===================================================================== *)

(** ** SHA-256 on known inputs *)

Example sha256_constants :
  length SHA256.K = 64 /\ nth 0 SHA256.K 0%Z = 0x428a2f98%Z /\ nth 63 SHA256.K 0%Z = 0xc67178f2%Z
  /\ length SHA256.H0 = 8 /\ nth 0 SHA256.H0 0%Z = 0x6a09e667%Z /\ nth 7 SHA256.H0 0%Z = 0x5be0cd19%Z.
Proof. repeat split; reflexivity. Qed.

Example sha256_abc :
  sha256_hexdigest (Py.encode "abc")
  = "ba7816bf8f01cfea414140de5dae2223b00361a396177a9cb410ff61f20015ad".
Proof. vm_compute. reflexivity. Qed.

Example sha256_two_blocks :
  sha256_hexdigest (Py.encode "abcdbcdecdefdefgefghfghighijhijkijkljklmklmnlmnomnopnopq")
  = "248d6a61d20638b8e5c026930c3e6039a33ce45964ff2167f6ecedd419db06c1".
Proof. vm_compute. reflexivity. Qed.

(** ** Authorization *)

Module AuthorizationFacts.
Import Authorization.

Lemma eq_str_true (j : json) (s : string) : Json.eq_str j s = true <-> j = JStr s.
Proof.
  destruct j; simpl; try (split; [discriminate | discriminate]).
  rewrite String.eqb_eq. split; [intros ->; reflexivity | intros [= ->]; reflexivity].
Qed.

Lemma role_of_non_admin (admin : string) (u : json) :
  u <> JStr admin -> get_user_role admin u = GUEST.
Proof.
  intros Hne. unfold get_user_role.
  destruct (Json.eq_str u admin) eqn:E; [|reflexivity].
  apply eq_str_true in E. contradiction.
Qed.

Lemma has_permission_non_admin (admin : string) (user : list (string * json)) (p : Permission) :
  dict_get "sub" user <> Some (JStr admin) ->
  has_permission admin user p
  = match dict_get "sub" user with
    | Some name => Json.truthy name && mem p [READ_REPO; READ_PROFILE]
    | None => false
    end.
Proof.
  intros Hne. unfold has_permission.
  destruct (dict_get "sub" user) as [name|]; [|reflexivity].
  destruct (Json.truthy name); [|reflexivity].
  rewrite role_of_non_admin by congruence. reflexivity.
Qed.

(** C10.  [get_user_role] answers ADMIN for the configured admin username
    and GUEST for every other value, never USER; for a principal that is
    not the admin, [has_permission] holds for no permission other than
    read:repo and read:profile (in particular not for write:repo and
    create:repo), and it holds for these two whenever the principal has a
    non-empty name. *)
Theorem non_admin_is_guest (admin : string) (user : list (string * json)) (p : Permission) :
  dict_get "sub" user <> Some (JStr admin) ->
  get_user_role admin (JStr admin) = ADMIN
  /\ (forall u, u <> JStr admin -> get_user_role admin u = GUEST)
  /\ (forall u, get_user_role admin u <> USER)
  /\ (has_permission admin user p = true -> p = READ_REPO \/ p = READ_PROFILE)
  /\ (p <> READ_REPO -> p <> READ_PROFILE -> has_permission admin user p = false)
  /\ has_permission admin user WRITE_REPO = false
  /\ has_permission admin user CREATE_REPO = false
  /\ (forall name, dict_get "sub" user = Some name -> Json.truthy name = true ->
        has_permission admin user READ_REPO = true
        /\ has_permission admin user READ_PROFILE = true).
Proof.
  intros Hne.
  split. { unfold get_user_role. simpl. rewrite String.eqb_refl. reflexivity. }
  split. { intros u. apply role_of_non_admin. }
  split. { intros u. unfold get_user_role. destruct (Json.eq_str u admin); discriminate. }
  rewrite !(has_permission_non_admin admin user) by assumption.
  destruct (dict_get "sub" user) as [name|].
  - destruct (Json.truthy name) eqn:Et; simpl.
    + split; [destruct p; simpl; intros; try discriminate; auto|].
      split; [destruct p; simpl; intros; try reflexivity; congruence|].
      repeat split; reflexivity.
    + split; [discriminate|].
      do 3 (split; [reflexivity|]).
      intros n [= <-] Ht. congruence.
  - split; [discriminate|].
    do 3 (split; [reflexivity|]).
    intros n [=].
Qed.

Lemma non_admin_is_guest_witness :
  dict_get "sub" [("sub", JStr "alice")] <> Some (JStr "admin")
  /\ has_permission "admin" [("sub", JStr "alice")] WRITE_REPO = false
  /\ has_permission "admin" [("sub", JStr "alice")] READ_REPO = true.
Proof.
  assert (H : dict_get "sub" [("sub", JStr "alice")] <> Some (JStr "admin"))
    by (vm_compute; discriminate).
  split; [exact H|].
  pose proof (non_admin_is_guest "admin" [("sub", JStr "alice")] WRITE_REPO H)
    as (_ & _ & _ & _ & _ & Hw & _ & Hr).
  split; [exact Hw|].
  apply (Hr (JStr "alice")); reflexivity.
Defined.

End AuthorizationFacts.

(** ** Strings *)

Section StringFacts.
Implicit Types (a b c : string) (x : ascii).

Lemma str_app_empty_l a : "" +:+ a = a.
Proof. reflexivity. Qed.

Lemma str_app_cons x a b : String x a +:+ b = String x (a +:+ b).
Proof. reflexivity. Qed.

Lemma str_app_assoc a b c : (a +:+ b) +:+ c = a +:+ (b +:+ c).
Proof.
  induction a as [|x a IH]; [reflexivity|].
  rewrite !str_app_cons, IH. reflexivity.
Qed.

Lemma str_app_empty_r a : a +:+ "" = a.
Proof.
  induction a as [|x a IH]; [reflexivity|].
  rewrite str_app_cons, IH. reflexivity.
Qed.

Lemma str_app_length a b : String.length (a +:+ b) = String.length a + String.length b.
Proof.
  induction a as [|x a IH]; [reflexivity|].
  rewrite str_app_cons. simpl. rewrite IH. reflexivity.
Qed.

(** Cancellation of a common suffix. *)
Lemma str_app_inv_tail a b c : a +:+ c = b +:+ c -> a = b.
Proof.
  revert b. induction a as [|x a IH]; intros [|y b] H.
  - reflexivity.
  - apply (f_equal String.length) in H. rewrite str_app_empty_l, str_app_cons in H.
    simpl in H. rewrite str_app_length in H. lia.
  - apply (f_equal String.length) in H. rewrite str_app_empty_l, str_app_cons in H.
    simpl in H. rewrite str_app_length in H. lia.
  - rewrite !str_app_cons in H. injection H as -> H. f_equal. apply IH, H.
Qed.
End StringFacts.

(** ** Dictionaries *)

Section DictFacts.
Context {V : Type}.
Implicit Types (d : list (string * V)) (k : string) (v : V).

Lemma dict_get_set_eq d k v : dict_get k (dict_set k v d) = Some v.
Proof.
  induction d as [|[k' v'] d IH]; simpl.
  - rewrite String.eqb_refl. reflexivity.
  - destruct (String.eqb k k') eqn:E; simpl.
    + rewrite String.eqb_refl. reflexivity.
    + rewrite E. exact IH.
Qed.

Lemma dict_get_set_ne d k k' v : k <> k' -> dict_get k (dict_set k' v d) = dict_get k d.
Proof.
  intros Hne. induction d as [|[k2 v2] d IH]; simpl.
  - apply String.eqb_neq in Hne. rewrite Hne. reflexivity.
  - destruct (String.eqb k' k2) eqn:E; simpl.
    + apply String.eqb_eq in E. subst k2.
      apply String.eqb_neq in Hne. rewrite Hne. reflexivity.
    + destruct (String.eqb k k2); [reflexivity | exact IH].
Qed.

Lemma dict_get_del_eq d k : dict_get k (dict_del k d) = None.
Proof.
  induction d as [|[k' v'] d IH]; simpl; [reflexivity|].
  destruct (String.eqb k k') eqn:E; simpl; [exact IH|].
  rewrite E. exact IH.
Qed.

Lemma dict_get_del_ne d k k' : k <> k' -> dict_get k (dict_del k' d) = dict_get k d.
Proof.
  intros Hne. induction d as [|[k2 v2] d IH]; simpl; [reflexivity|].
  destruct (String.eqb k' k2) eqn:E; simpl.
  - apply String.eqb_eq in E. subst k2.
    apply String.eqb_neq in Hne. rewrite Hne. exact IH.
  - destruct (String.eqb k k2); [reflexivity | exact IH].
Qed.

Lemma dict_del_length d k : length (dict_del k d) <= length d.
Proof.
  induction d as [|[k' v'] d IH]; simpl; [lia|].
  destruct (String.eqb k k'); simpl; lia.
Qed.

Lemma dict_del_length_lt d k : dict_has k d = true -> length (dict_del k d) < length d.
Proof.
  unfold dict_has. induction d as [|[k' v'] d IH]; simpl; [discriminate|].
  destruct (String.eqb k k') eqn:E; simpl.
  - intros _. pose proof (dict_del_length d k). lia.
  - intros H. specialize (IH H). lia.
Qed.
Lemma dict_del_sublist (k : string) (l : list (string * V)) : dict_del k l `sublist_of` l.
Proof.
  induction l as [|[k' v] l IH]; simpl; [constructor|].
  destruct (String.eqb k k'); [apply sublist_cons | apply sublist_skip]; exact IH.
Qed.

Lemma dict_get_elem (k : string) (v : V) (l : list (string * V)) :
  dict_get k l = Some v -> (k, v) ∈ l.
Proof.
  induction l as [|[k' v'] l IH]; simpl; [discriminate|].
  destruct (String.eqb k k') eqn:E.
  - apply String.eqb_eq in E. intros [= ->]. subst. left.
  - intros H. right. apply IH, H.
Qed.

Lemma dict_get_None_elem (k : string) (v : V) (l : list (string * V)) :
  dict_get k l = None -> (k, v) ∉ l.
Proof.
  induction l as [|[k' v'] l IH]; simpl; intros H Hin.
  - inversion Hin.
  - destruct (String.eqb k k') eqn:E; [discriminate|].
    apply String.eqb_neq in E.
    apply elem_of_cons in Hin as [[= ? ?]|Hin]; [congruence | exact (IH H Hin)].
Qed.

Lemma elem_dict_get (k : string) (v : V) (l : list (string * V)) :
  NoDup (l.*1) -> (k, v) ∈ l -> dict_get k l = Some v.
Proof.
  induction l as [|[k' v'] l IH]; simpl; intros Hnd Hin.
  - inversion Hin.
  - apply NoDup_cons in Hnd as [Hk Hnd].
    apply elem_of_cons in Hin as [[= -> ->]|Hin].
    + rewrite String.eqb_refl. reflexivity.
    + destruct (String.eqb k k') eqn:E; [|apply IH; assumption].
      apply String.eqb_eq in E. subst k'. exfalso. apply Hk.
      apply list_elem_of_fmap. exists (k, v). split; [reflexivity | exact Hin].
Qed.
End DictFacts.

(** ** Access tokens *)

Module DependenciesFacts.
Import Dependencies DependenciesSpec.

Section JwtFacts.
Variable token : Type.
Variable jwt_encode : list (string * json) -> string -> token.
Variable jwt_decode : token -> string -> Z -> list (string * json) + jwt_error.
Variable SECRET_KEY : string.

(** What [jwt.decode] accepts under the key a token was signed with
    carries the claims that were signed. *)
Hypothesis jwt_decode_encode :
  forall payload now payload',
    jwt_decode (jwt_encode payload SECRET_KEY) SECRET_KEY now = inl payload' ->
    payload' = payload.

Lemma minted_fpt data F expires_delta step_up now payload t :
  jwt_decode (create_access_token token jwt_encode SECRET_KEY data F expires_delta step_up now)
             SECRET_KEY t = inl payload ->
  dict_get "fpt" payload = Some (JStr F).
Proof.
  unfold create_access_token. intros H. apply jwt_decode_encode in H. subst payload.
  destruct step_up; unfold dict_update; simpl.
  - rewrite !dict_get_set_ne by discriminate. apply dict_get_set_eq.
  - apply dict_get_set_eq.
Qed.

(** C7.  A token minted by [create_access_token] with fingerprint [F],
    verified with a request whose fingerprint differs from [F], is
    rejected with status 401; without a request, [verify_token] is the
    outcome of [jwt.decode] (signature and expiry) alone. *)
Theorem verify_token_fingerprint_binding
    (data : list (string * json)) (F : string) (expires_delta : option Z)
    (step_up : bool) (minted_at : Z) (request : Fingerprint.request) (now : Z) :
  get_fingerprint request <> F ->
  (exists detail,
     verify_token token jwt_decode SECRET_KEY
       (create_access_token token jwt_encode SECRET_KEY data F expires_delta step_up minted_at)
       (Some request) now
     = inr (HTTPException 401 detail))
  /\ (forall tok,
        verify_token token jwt_decode SECRET_KEY tok None now
        = match jwt_decode tok SECRET_KEY now with
          | inl payload => inl payload
          | inr ExpiredSignatureError => inr (HTTPException 401 "Token expired")
          | inr PyJWTError => inr (HTTPException 401 "Invalid token")
          end).
Proof.
  intros Hne. split.
  - unfold verify_token.
    destruct (jwt_decode _ SECRET_KEY now) as [payload|[]] eqn:E.
    + rewrite (minted_fpt _ _ _ _ _ _ _ E). simpl.
      destruct (String.eqb F (get_fingerprint request)) eqn:Eq.
      * apply String.eqb_eq in Eq. congruence.
      * simpl. eauto.
    + eauto.
    + eauto.
  - intros tok. unfold verify_token.
    destruct (jwt_decode tok SECRET_KEY now) as [payload|[]]; reflexivity.
Qed.
End JwtFacts.

Lemma toy_decode_encode (key : string) payload now payload' :
  toy_decode (toy_encode payload key) key now = inl payload' -> payload' = payload.
Proof.
  unfold toy_decode, toy_encode. simpl. rewrite String.eqb_refl.
  destruct (dict_get "exp" payload) as [[| | e | | |]|]; try (intros [= <-]; reflexivity).
  destruct (e <? now)%Z; [discriminate | intros [= <-]; reflexivity].
Qed.

Lemma verify_token_fingerprint_binding_witness :
  get_fingerprint browser <> "X"
  /\ exists detail,
       verify_token _ toy_decode "supersecretkey"
         (create_access_token _ toy_encode "supersecretkey" [("sub", JStr "admin")] "X" None false 0)
         (Some browser) 10
       = inr (HTTPException 401 detail).
Proof.
  assert (H : get_fingerprint browser <> "X") by (vm_compute; discriminate).
  split; [exact H|].
  exact (proj1 (verify_token_fingerprint_binding _ toy_encode toy_decode "supersecretkey"
                  (toy_decode_encode "supersecretkey")
                  [("sub", JStr "admin")] "X" None false 0 browser 10 H)).
Defined.

End DependenciesFacts.

(** ** Device fingerprint *)

Module FingerprintFacts.
Import Fingerprint FingerprintSpec.

Lemma contains_app (c : ascii) (a b : string) :
  Py.contains c (a +:+ b) = Py.contains c a || Py.contains c b.
Proof.
  induction a as [|x a IH]; [reflexivity|].
  rewrite str_app_cons. simpl. rewrite IH. apply orb_assoc.
Qed.

Lemma split_go_segment (sep : ascii) (a : string) :
  Py.contains sep a = false ->
  forall cur rest,
    Py.split_go sep cur (a +:+ String sep rest) = (cur +:+ a) :: Py.split_go sep "" rest.
Proof.
  induction a as [|c a IH]; intros Hc cur rest.
  - rewrite str_app_empty_l, str_app_empty_r. simpl. rewrite Ascii.eqb_refl. reflexivity.
  - simpl in Hc. apply orb_false_iff in Hc as [Hc1 Hc2].
    rewrite str_app_cons. simpl. rewrite Ascii.eqb_sym, Hc1. rewrite IH by assumption.
    rewrite str_app_assoc. reflexivity.
Qed.

Lemma split_go_last (sep : ascii) (a : string) :
  Py.contains sep a = false ->
  forall cur, Py.split_go sep cur a = [cur +:+ a].
Proof.
  induction a as [|c a IH]; intros Hc cur.
  - rewrite str_app_empty_r. reflexivity.
  - simpl in Hc. apply orb_false_iff in Hc as [Hc1 Hc2].
    simpl. rewrite Ascii.eqb_sym, Hc1. rewrite IH by assumption.
    rewrite str_app_assoc. reflexivity.
Qed.

(** An IPv4 peer [a.b.c.d] contributes [a.b.c]. *)
Lemma partial_ip_v4 (a b c d : string) :
  Py.contains "." a = false -> Py.contains "." b = false ->
  Py.contains "." c = false -> Py.contains "." d = false ->
  Py.contains ":" a = false -> Py.contains ":" b = false ->
  Py.contains ":" c = false -> Py.contains ":" d = false ->
  partial_ip (a +:+ "." +:+ b +:+ "." +:+ c +:+ "." +:+ d) = a +:+ "." +:+ b +:+ "." +:+ c.
Proof.
  intros Ha Hb Hc Hd Ha' Hb' Hc' Hd'. unfold partial_ip.
  rewrite !contains_app, Ha', Hb', Hc', Hd'. simpl.
  unfold Py.split.
  change (a +:+ "." +:+ b +:+ "." +:+ c +:+ "." +:+ d)
    with (a +:+ String "." (b +:+ String "." (c +:+ String "." d))).
  rewrite !split_go_segment by assumption.
  rewrite split_go_last by assumption. simpl.
  rewrite !str_app_empty_l. destruct b, c; reflexivity.
Qed.

Example partial_ip_v4_example : partial_ip "192.168.1.77" = "192.168.1".
Proof. reflexivity. Qed.

Example partial_ip_v6_example :
  partial_ip "2001:db8:0:1:2:3:4:5" = "2001:db8:0:1:2:3".
Proof. reflexivity. Qed.

(** C8, as stated, fails: without a peer address the hashed string has
    three segments and two separators, not an empty fourth segment. *)
Lemma generate_missing_peer_counterexample :
  generate no_peer <> sha256_hexdigest (Py.encode (four_segments no_peer))
  /\ fingerprint_string no_peer = "curl/8.0||"
  /\ four_segments no_peer = "curl/8.0|||"
  /\ count_char "|" (fingerprint_string no_peer) = 2.
Proof.
  split; [vm_compute; discriminate|].
  repeat split; reflexivity.
Qed.

(** C8, amended.  The fingerprint is the SHA-256 of the components joined
    by "|": user agent, partial peer address, accept-language and
    accept-encoding when the peer address is present and not empty (three
    separators), and user agent, accept-language and accept-encoding
    otherwise (two separators); a missing header is an empty segment.  The
    partial address is the first six ":"-separated groups of an address that
    contains ":" and the first three "."-separated groups of any other. *)
Theorem generate_joins_present_segments (r : request) :
  generate r
  = sha256_hexdigest (Py.encode
      (match client r with
       | Some (String _ _ as ip) =>
           header r "user-agent" +:+ "|" +:+ partial_ip ip +:+ "|"
           +:+ header r "accept-language" +:+ "|" +:+ header r "accept-encoding"
       | _ =>
           header r "user-agent" +:+ "|"
           +:+ header r "accept-language" +:+ "|" +:+ header r "accept-encoding"
       end))
  /\ length (components r)
     = match client r with Some (String _ _) => 4 | _ => 3 end
  /\ (forall ip, partial_ip ip
                 = if Py.contains ":" ip
                   then Py.join ":" (firstn 6 (Py.split ":" ip))
                   else Py.join "." (firstn 3 (Py.split "." ip)))
  /\ (forall name, dict_get name (headers r) = None -> header r name = "").
Proof.
  split; [|split; [|split]].
  - unfold generate, fingerprint_string, components.
    destruct (client r) as [[|c ip]|]; simpl.
    + destruct (header r "accept-language"), (header r "accept-encoding"); reflexivity.
    + destruct (partial_ip (String c ip)), (header r "accept-language"),
        (header r "accept-encoding"); reflexivity.
    + destruct (header r "accept-language"), (header r "accept-encoding"); reflexivity.
  - unfold components. destruct (client r) as [[|c ip]|]; reflexivity.
  - reflexivity.
  - intros name H. unfold header. rewrite H. reflexivity.
Qed.

End FingerprintFacts.

(** ** Refresh tokens *)

Module TokenManagerFacts.
Import TokenManager TokenSpec.

Implicit Types (s cur : store) (h k : string) (d : token_data).

Lemma sublist_missing {A} (x : A) (l1 l2 : list A) :
  l1 `sublist_of` l2 -> x ∈ l2 -> x ∉ l1 -> length l1 < length l2.
Proof.
  induction 1 as [|y l1 l2 Hs IH|y l1 l2 Hs IH]; intros Hin Hnot.
  - inversion Hin.
  - simpl. apply elem_of_cons in Hin as [->|Hin].
    + exfalso. apply Hnot. left.
    + assert (x ∉ l1) by (intros ?; apply Hnot; right; assumption).
      specialize (IH Hin H). lia.
  - simpl. apply sublist_length in Hs. lia.
Qed.

Lemma invalidate_fuel_S fuel h s :
  invalidate_fuel (S fuel) h s
  = fold_left (visit fuel h) (after_delete h s) (Some (after_delete h s)).
Proof. reflexivity. Qed.

Lemma after_delete_sublist h s : after_delete h s `sublist_of` s.
Proof.
  unfold after_delete. destruct (dict_has h s); [apply dict_del_sublist | reflexivity].
Qed.

Lemma fold_visit_None fuel h items : fold_left (visit fuel h) items None = None.
Proof. induction items; simpl; auto. Qed.

(** Tokens are only ever removed. *)
Lemma invalidate_fuel_sublist fuel :
  forall h s s', invalidate_fuel fuel h s = Some s' -> s' `sublist_of` s.
Proof.
  induction fuel as [|fuel IH]; intros h s s'; [discriminate|].
  rewrite invalidate_fuel_S.
  assert (Hfold : forall items cur,
             fold_left (visit fuel h) items (Some cur) = Some s' -> s' `sublist_of` cur).
  { induction items as [|it items IHi]; simpl; intros cur H.
    - injection H as ->. reflexivity.
    - destruct (opt_eqb (rotated_to (snd it)) h).
      + destruct (invalidate_fuel fuel (fst it) cur) as [cur'|] eqn:E.
        * etrans; [apply (IHi _ H) | apply (IH _ _ _ E)].
        * rewrite fold_visit_None in H. discriminate.
      + apply IHi, H. }
  intros H. etrans; [apply (Hfold _ _ H) | apply after_delete_sublist].
Qed.

(** The recursion ends: a bound above the size of the store is never
    reached. *)
Lemma invalidate_fuel_total fuel :
  forall h s, length (after_delete h s) < fuel -> is_Some (invalidate_fuel fuel h s).
Proof.
  induction fuel as [|fuel IH]; intros h s Hlen; [lia|].
  rewrite invalidate_fuel_S.
  set (s1 := after_delete h s) in *.
  assert (Hfold : forall items cur,
             (forall it, it ∈ items -> it ∈ s1) -> cur `sublist_of` s1 ->
             is_Some (fold_left (visit fuel h) items (Some cur))).
  { induction items as [|[th data] items IHi]; simpl; intros cur Hin Hsub.
    - eauto.
    - destruct (opt_eqb (rotated_to data) h); [|apply IHi; [intros; apply Hin; right|]; assumption].
      assert (Hlt : length (after_delete th cur) < fuel).
      { unfold after_delete. destruct (dict_has th cur) eqn:Eh.
        - pose proof (dict_del_length_lt cur th Eh).
          pose proof (sublist_length _ _ Hsub). lia.
        - assert (length cur < length s1); [|lia].
          apply (sublist_missing (th, data)); [exact Hsub | apply Hin; left |].
          apply dict_get_None_elem. unfold dict_has in Eh.
          destruct (dict_get th cur); [discriminate | reflexivity]. }
      destruct (IH th cur Hlt) as [cur' E]. simpl. rewrite E.
      apply IHi; [intros; apply Hin; right; assumption|].
      etrans; [apply (invalidate_fuel_sublist _ _ _ _ E) | exact Hsub]. }
  apply Hfold; [auto | reflexivity].
Qed.

Lemma _invalidate_token_family_eq h s :
  invalidate_fuel (S (length s)) h s = Some (_invalidate_token_family h s).
Proof.
  unfold _invalidate_token_family.
  destruct (invalidate_fuel_total (S (length s)) h s) as [s' E].
  - pose proof (sublist_length _ _ (after_delete_sublist h s)). lia.
  - rewrite E. reflexivity.
Qed.

Lemma sublist_keys_NoDup s s' : s' `sublist_of` s -> NoDup (s.*1) -> NoDup (s'.*1).
Proof.
  intros Hs Hnd. apply (sublist_NoDup _ (s.*1)); [exact Hnd|].
  apply fmap_sublist, Hs.
Qed.

(** The only records the walk removes, besides the one it starts from, are
    records whose [rotated_to] is set: a record that has not been rotated is
    never reached. *)
Lemma invalidate_fuel_keeps_unrotated fuel :
  forall h s s', NoDup (s.*1) -> invalidate_fuel fuel h s = Some s' ->
    forall k d, dict_get k s = Some d -> rotated_to d = None -> k <> h ->
      dict_get k s' = Some d.
Proof.
  induction fuel as [|fuel IH]; intros h s s' Hnd; [discriminate|].
  rewrite invalidate_fuel_S. intros H k d Hk Hrot Hne.
  set (s1 := after_delete h s) in *.
  assert (Hk1 : dict_get k s1 = Some d).
  { unfold s1, after_delete. destruct (dict_has h s); [|exact Hk].
    rewrite dict_get_del_ne by exact Hne. exact Hk. }
  assert (Hnd1 : NoDup (s1.*1)) by (apply (sublist_keys_NoDup s); [apply after_delete_sublist | exact Hnd]).
  assert (Hfold : forall items cur,
             (forall it, it ∈ items -> it ∈ s1) -> NoDup (cur.*1) ->
             dict_get k cur = Some d ->
             fold_left (visit fuel h) items (Some cur) = Some s' ->
             dict_get k s' = Some d).
  { induction items as [|[th data] items IHi]; simpl; intros cur Hin Hndc Hc Hf.
    - injection Hf as <-. exact Hc.
    - destruct (opt_eqb (rotated_to data) h) eqn:Er.
      + destruct (invalidate_fuel fuel th cur) as [cur'|] eqn:E;
          [|rewrite fold_visit_None in Hf; discriminate].
        assert (Hth : k <> th).
        { intros <-. assert (Hd : dict_get k s1 = Some data)
            by (apply elem_dict_get; [exact Hnd1 | apply Hin; left]).
          rewrite Hk1 in Hd. injection Hd as <-. rewrite Hrot in Er. discriminate. }
        apply (IHi cur'); [intros; apply Hin; right; assumption | | | exact Hf].
        * apply (sublist_keys_NoDup cur); [apply (invalidate_fuel_sublist _ _ _ _ E) | exact Hndc].
        * apply (IH th cur cur' Hndc E k d Hc Hrot Hth).
      + apply (IHi cur); [intros; apply Hin; right; assumption | assumption..]. }
  apply (Hfold s1 s1); auto.
Qed.

Lemma _invalidate_token_family_keeps_unrotated h s k d :
  NoDup (s.*1) -> dict_get k s = Some d -> rotated_to d = None -> k <> h ->
  dict_get k (_invalidate_token_family h s) = Some d.
Proof.
  intros Hnd. apply (invalidate_fuel_keeps_unrotated (S (length s)) h s); [exact Hnd|].
  apply _invalidate_token_family_eq.
Qed.

(** Replaying a rotated token fails, and leaves the successor it was
    rotated to in the store whenever that successor has not been rotated
    itself; the successor then still validates. *)
Lemma replay_keeps_successor s R1 R2 d1 d2 fp now fresh :
  NoDup (s.*1) ->
  dict_get (hash_token R1) s = Some d1 -> used d1 = true ->
  rotated_to d1 = Some (hash_token R2) ->
  dict_get (hash_token R2) s = Some d2 -> rotated_to d2 = None ->
  hash_token R2 <> hash_token R1 ->
  fst (validate_and_rotate R1 fp now fresh s) = None
  /\ dict_get (hash_token R2) (snd (validate_and_rotate R1 fp now fresh s)) = Some d2.
Proof.
  intros Hnd H1 Hu Hr H2 Hr2 Hne. unfold validate_and_rotate.
  rewrite H1, Hu. simpl. split; [reflexivity|].
  apply _invalidate_token_family_keeps_unrotated; assumption.
Qed.

(** C1 (the code departs from it).  After R1 has been rotated to R2,
    presenting R1 again fails and removes R1, but the record of R2 stays in
    the store, and presenting R2 afterwards succeeds and yields a new
    token. *)
Theorem replay_then_successor_still_valid :
  fst (validate_and_rotate "R1" (Some "fp") 10 "R2" issued) = Some ("admin", "R2")
  /\ (exists d1, dict_get (hash_token "R1") rotated = Some d1
                 /\ used d1 = true /\ rotated_to d1 = Some (hash_token "R2"))
  /\ fst (validate_and_rotate "R1" (Some "fp") 20 "R3" rotated) = None
  /\ dict_get (hash_token "R1") replayed = None
  /\ dict_has (hash_token "R2") replayed = true
  /\ fst (validate_and_rotate "R2" (Some "fp") 30 "R3" replayed) = Some ("admin", "R3").
Proof.
  split; [vm_compute; reflexivity|].
  split; [eexists; split; [vm_compute; reflexivity | split; vm_compute; reflexivity]|].
  split; [vm_compute; reflexivity|].
  split; [vm_compute; reflexivity|].
  split; vm_compute; reflexivity.
Qed.

End TokenManagerFacts.

(** ** Runs of the I/O primitives *)

Module FSFacts.
Import FSSpec.

Lemma trans_nil w w' :
  files w' = files w -> log w' = log w -> dirs w ⊆ dirs w' -> trans [] w w'.
Proof.
  intros Hf Hl Hd. unfold trans. rewrite Hf, Hl, app_nil_r.
  repeat split; auto. intros p H. inversion H.
Qed.

Lemma trans_app e1 e2 w w1 w2 : trans e1 w w1 -> trans e2 w1 w2 -> trans (e1 ++ e2) w w2.
Proof.
  intros (L1 & F1 & M1 & W1 & D1) (L2 & F2 & M2 & W2 & D2). unfold trans.
  split; [rewrite L2, L1, app_assoc; reflexivity|].
  split; [|split; [|split]].
  - intros p Hp. rewrite fmap_app in Hp. rewrite F2, F1; [reflexivity|..].
    + intros H. apply Hp, elem_of_app. left. exact H.
    + intros H. apply Hp, elem_of_app. right. exact H.
  - intros p H. apply M2, M1, H.
  - intros p H. apply elem_of_app in H as [H|H]; [apply M2, W1, H | apply W2, H].
  - etrans; eassumption.
Qed.

Lemma trans_single p c o w w' :
  files w' = <[p := c]> (files w) -> log w' = log w ++ [EvWrite p o] ->
  dirs w' = dirs w ->
  trans [EvWrite p o] w w'.
Proof.
  intros Hf Hl Hd. unfold trans. rewrite Hf, Hl, Hd.
  split; [reflexivity|]. split; [|split; [|split]]; [| | |reflexivity].
  - intros q Hq. apply lookup_insert_ne. intros <-. apply Hq. simpl. left.
  - intros q Hq. destruct (decide (p = q)) as [<-|Hne].
    + rewrite lookup_insert_eq. eauto.
    + rewrite lookup_insert_ne by exact Hne. exact Hq.
  - intros q Hq. apply list_elem_of_singleton in Hq. injection Hq as -> _.
    rewrite lookup_insert_eq. eauto.
Qed.

Lemma trans_failed p w w' :
  files w' = files w -> log w' = log w ++ [EvWrite p Failed] -> dirs w' = dirs w ->
  trans [EvWrite p Failed] w w'.
Proof.
  intros Hf Hl Hd. unfold trans. rewrite Hf, Hl, Hd.
  split; [reflexivity|]. split; [|split; [|split]]; auto.
  intros q Hq. apply list_elem_of_singleton in Hq. discriminate.
Qed.

Lemma trans_files_mono evs w w' p : trans evs w w' -> is_file w p = true -> is_file w' p = true.
Proof.
  intros (_ & _ & M & _) H. unfold is_file in *.
  destruct (files w !! p) as [c0|] eqn:E; [|discriminate].
  destruct (M p) as [c Hc]; [eauto|]. rewrite Hc. reflexivity.
Qed.

Lemma trans_exists_mono evs w w' p : trans evs w w' -> exists_on w p = true -> exists_on w' p = true.
Proof.
  intros T H. unfold exists_on in *. apply orb_true_iff in H as [H|H].
  - rewrite (trans_files_mono _ _ _ _ T H). reflexivity.
  - apply orb_true_iff. right. destruct T as (_ & _ & _ & _ & D).
    unfold is_dir in *. destruct p; [reflexivity|].
    apply bool_decide_eq_true in H. apply bool_decide_eq_true. apply D, H.
Qed.

Lemma trans_frame evs w w' p : trans evs w w' -> p ∉ ev_path <$> evs -> files w' !! p = files w !! p.
Proof. intros (_ & F & _) H. apply F, H. Qed.

Lemma raised_not_ok {A} (r : result A) (a : A) : raised r -> r <> Ok a.
Proof. intros [e ->]. discriminate. Qed.

Lemma bind_run {A B} (m : M A) (k : A -> M B) w r w' :
  bind m k w = (r, w') ->
  (exists a w1, m w = (Ok a, w1) /\ k a w1 = (r, w'))
  \/ (raised r /\ exists e, m w = (Raise e, w')).
Proof.
  unfold bind. destruct (m w) as [[a|e] w1]; intros H.
  - left. eauto.
  - right. injection H as <- <-. unfold raised. eauto.
Qed.

Lemma pop_fault_run w :
  exists f w1, pop_fault w = (Ok f, w1)
               /\ files w1 = files w /\ dirs w1 = dirs w /\ log w1 = log w.
Proof.
  unfold pop_fault. destruct (faults w) as [|f r]; eauto 10.
Qed.

Ltac pop w f w1 :=
  let E := fresh "E" in
  let Hf := fresh "Hf" in
  let Hd := fresh "Hd" in
  let Hl := fresh "Hl" in
  destruct (pop_fault_run w) as (f & w1 & E & Hf & Hd & Hl);
  unfold bind at 1; rewrite E.

Lemma makedirs_run p w r w' :
  makedirs p w = (r, w') -> trans [] w w'.
Proof.
  unfold makedirs. pop w f w1. intros H.
  destruct f; try (injection H as <- <-; apply trans_nil; auto; rewrite Hd; reflexivity).
  unfold bind, get_world, raise, add_dirs in H.
  destruct (existsb _ _); injection H as <- <-; apply trans_nil; simpl; auto;
    rewrite Hd; [reflexivity | apply union_subseteq_l].
Qed.

Lemma makedirs_ok p w w' :
  makedirs p w = (Ok tt, w') ->
  files w' = files w
  /\ (forall q, q ∈ dirs w' <-> q ∈ dirs w \/ q ∈ prefixes p).
Proof.
  unfold makedirs. pop w f w1. intros H.
  destruct f; try discriminate.
  unfold bind, get_world, raise, add_dirs in H.
  destruct (existsb _ _) eqn:Ex; [discriminate|]. injection H as <-. simpl.
  split; [exact Hf|].
  intros q. rewrite Hd, elem_of_union, elem_of_list_to_set. reflexivity.
Qed.

Lemma open_write_run p c w r w' :
  open_write p c w = (r, w') ->
  exists o, trans [EvWrite p o] w w'
    /\ match o with
       | Written => r = Ok tt /\ files w' !! p = Some c
       | Failed => raised r /\ files w' !! p = files w !! p
       | Torn => raised r /\ files w' !! p = Some (Data [])
       end.
Proof.
  unfold open_write. pop w f w1. unfold bind, get_world, note, raise, set_file.
  destruct (is_dir w1 p).
  { intros [= <- <-]. exists Failed. simpl.
    split; [apply trans_failed; simpl; congruence|]. rewrite Hf. unfold raised. eauto. }
  destruct (negb (is_dir w1 (parent p))).
  { intros [= <- <-]. exists Failed. simpl.
    split; [apply trans_failed; simpl; congruence|]. rewrite Hf. unfold raised. eauto. }
  destruct f; intros [= <- <-]; simpl.
  - exists Written. split; [eapply trans_single; simpl; [rewrite Hf| |]; eauto; congruence|].
    simpl. rewrite lookup_insert_eq. auto.
  - exists Failed. split; [apply trans_failed; simpl; congruence|].
    simpl. rewrite Hf. unfold raised. eauto.
  - exists Torn. split; [eapply trans_single; simpl; [rewrite Hf| |]; eauto; congruence|].
    simpl. rewrite lookup_insert_eq. unfold raised. eauto.
Qed.

Lemma read_bytes_run p w r w' :
  read_bytes p w = (r, w') ->
  trans [] w w'
  /\ forall b, r = Ok b -> exists c, files w !! p = Some c /\ content_bytes c = b.
Proof.
  unfold read_bytes. pop w f w1. unfold bind, get_world, raise, ret.
  assert (T : trans [] w w1) by (apply trans_nil; auto; rewrite Hd; reflexivity).
  destruct f; try (intros [= <- <-]; split; auto; discriminate).
  destruct (is_dir w1 p); [intros [= <- <-]; split; auto; discriminate|].
  rewrite Hf. destruct (files w !! p) as [c|]; intros [= <- <-]; split; auto.
  - intros b [= <-]. eauto.
  - discriminate.
Qed.

Lemma read_text_run p w r w' :
  read_text p w = (r, w') ->
  trans [] w w'
  /\ forall s, r = Ok s ->
       exists c, files w !! p = Some c /\ Py.decode (content_bytes c) = Some s.
Proof.
  unfold read_text. intros H. apply bind_run in H as [(b & w1 & Hb & H)|(Hr & e & Hb)].
  - apply read_bytes_run in Hb as (T & Hc).
    destruct (Hc b eq_refl) as (c & Hp & <-).
    unfold ret, raise in H.
    destruct (Py.decode (content_bytes c)) as [s|] eqn:E; injection H as <- <-;
      split; auto; [|discriminate].
    intros s' [= <-]. eauto.
  - apply read_bytes_run in Hb as (T & Hc). split; auto.
    intros s ->. destruct Hr. discriminate.
Qed.

Lemma try_finally_ret {A} (body : M A) w : try_finally body (ret tt) w = body w.
Proof. unfold try_finally, ret. destruct (body w). reflexivity. Qed.

End FSFacts.

(** ** Text written to a file and read back *)

Module PyFacts.
Import PySpec.

Lemma decode_char_encode_char (c : ascii) (rest : list byte) :
  Py.decode_char (Py.encode_char c ++ rest) = Some (c, rest).
Proof. destruct c as [[] [] [] [] [] [] [] []]; reflexivity. Qed.

Lemma encode_char_length (c : ascii) : 1 <= length (Py.encode_char c).
Proof. unfold Py.encode_char. destruct (Py.code c <? 128)%N; simpl; lia. Qed.

Lemma decode_go_encode (s : string) :
  forall fuel, length (Py.encode s) <= fuel -> Py.decode_go fuel (Py.encode s) = Some s.
Proof.
  induction s as [|c s IH]; intros fuel Hlen; simpl.
  - destruct fuel; reflexivity.
  - pose proof (encode_char_length c) as Hc.
    simpl in Hlen. rewrite length_app in Hlen.
    destruct fuel as [|fuel]; [lia|].
    destruct (Py.encode_char c ++ Py.encode s) as [|b r] eqn:E.
    + apply (f_equal length) in E. rewrite length_app in E. simpl in E. lia.
    + change (Py.decode_go (S fuel) (b :: r))
        with (match Py.decode_char (b :: r) with
              | Some (c, r) => String c <$> Py.decode_go fuel r
              | None => None
              end).
      rewrite <- E, decode_char_encode_char, IH by lia. reflexivity.
Qed.

(** [s.encode().decode() == s] *)
Lemma decode_encode (s : string) : Py.decode (Py.encode s) = Some s.
Proof. apply decode_go_encode. reflexivity. Qed.

Lemma lstrip_nonspace (s : string) : nonspace s = true -> Py.lstrip s = s.
Proof.
  destruct s as [|c r]; simpl; [reflexivity|].
  intros H. apply andb_true_iff in H as [H _]. apply negb_true_iff in H. rewrite H. reflexivity.
Qed.

Lemma rev_app_rev_app (s : string) :
  forall t u, String.rev_app (String.rev_app s t) u = String.rev_app t (s +:+ u).
Proof.
  induction s as [|c s IH]; intros t u; simpl; [reflexivity|].
  rewrite IH. reflexivity.
Qed.

Lemma rev_rev (s : string) : String.rev (String.rev s) = s.
Proof.
  unfold String.rev. rewrite rev_app_rev_app. simpl. apply str_app_empty_r.
Qed.

Lemma nonspace_rev_app (s : string) :
  forall t, nonspace s = true -> nonspace t = true -> nonspace (String.rev_app s t) = true.
Proof.
  induction s as [|c s IH]; intros t Hs Ht; simpl; [exact Ht|].
  simpl in Hs. apply andb_true_iff in Hs as [Hc Hs].
  apply IH; [exact Hs|]. simpl. rewrite Hc, Ht. reflexivity.
Qed.

(** [strip] leaves a string without white space as it is. *)
Lemma strip_nonspace (s : string) : nonspace s = true -> Py.strip s = s.
Proof.
  intros H. unfold Py.strip. rewrite (lstrip_nonspace s H).
  rewrite lstrip_nonspace; [apply rev_rev|].
  apply nonspace_rev_app; [exact H | reflexivity].
Qed.

Lemma nonspace_app (a b : string) :
  nonspace a = true -> nonspace b = true -> nonspace (a +:+ b) = true.
Proof.
  induction a as [|c a IH]; intros Ha Hb; [exact Hb|].
  rewrite str_app_cons. simpl in *. apply andb_true_iff in Ha as [Hc Ha].
  rewrite Hc, IH; auto.
Qed.

Lemma digit_nonspace (n : N) : (n < 10)%N -> Py.is_space (Py.digit n) = false.
Proof.
  intros H.
  assert (Hn : In n [0; 1; 2; 3; 4; 5; 6; 7; 8; 9]%N).
  { destruct n as [|p]; [left; reflexivity|].
    do 4 (try destruct p as [p|p|]); simpl; try lia; tauto. }
  simpl in Hn.
  repeat (destruct Hn as [<-|Hn]; [reflexivity|]). contradiction.
Qed.

Lemma dec_go_nonspace (fuel : nat) :
  forall n acc, nonspace acc = true -> nonspace (Py.dec_go fuel n acc) = true.
Proof.
  induction fuel as [|fuel IH]; intros n acc Hacc; simpl; [exact Hacc|].
  assert (Hd : nonspace (String (Py.digit (n mod 10)) acc) = true).
  { simpl. rewrite digit_nonspace, Hacc; [reflexivity|]. apply N.mod_lt. discriminate. }
  destruct (n <? 10)%N; [exact Hd | apply IH, Hd].
Qed.

Lemma dec_nonspace (n : N) : nonspace (Py.dec n) = true.
Proof. apply dec_go_nonspace. reflexivity. Qed.

End PyFacts.

(** ** The snapshot engine *)

Module SvcsFacts.
Import Svcs FSSpec FSFacts SvcsSpec.

Lemma read_work_file_run data w r w' :
  read_work_file data w = (r, w') -> trans [] w w' /\ forall b, r = Ok b -> b = data.
Proof.
  unfold read_work_file. pop w f w1. unfold ret, raise.
  assert (T : trans [] w w1) by (apply trans_nil; auto; rewrite Hd; reflexivity).
  destruct f; intros [= <- <-]; split; auto; try discriminate.
  intros b [= <-]. reflexivity.
Qed.

Lemma build_tree_step_run bd entries f w r w' :
  build_tree_step bd entries f w = (r, w') ->
  exists evs, trans evs w w' /\ Forall (blob_event bd) evs
    /\ forall entries', r = Ok entries' ->
         entries' = tree_step entries f /\ Forall written evs
         /\ exists_on w' (blob_file bd (_hash_content (snd f))) = true.
Proof.
  unfold build_tree_step. intros H.
  apply bind_run in H as [(data & w1 & Hread & H)|(Hr & e & Hread)]; cycle 1.
  { apply read_work_file_run in Hread as [T _]. exists []. split; [exact T|].
    split; [constructor|]. intros ? ->. destruct Hr. discriminate. }
  apply read_work_file_run in Hread as [T1 Hdata]. specialize (Hdata _ eq_refl). subst data.
  apply bind_run in H as [([] & w2 & Hmk & H)|(Hr & e & Hmk)]; cycle 1.
  { apply makedirs_run in Hmk. exists []. split; [apply (trans_app [] [] _ _ _ T1 Hmk)|].
    split; [constructor|]. intros ? ->. destruct Hr. discriminate. }
  apply makedirs_run in Hmk. pose proof (trans_app [] [] _ _ _ T1 Hmk) as T2. simpl in T2.
  unfold bind at 1, exists_ in H.
  fold (exists_on w2 (blob_file bd (_hash_content (snd f)))) in H.
  destruct (exists_on w2 (blob_file bd (_hash_content (snd f)))) eqn:Ex.
  - unfold bind, ret in H. injection H as <- <-. exists []. split; [exact T2|].
    split; [constructor|]. intros ? [= <-]. split; [reflexivity|]. split; [constructor | exact Ex].
  - apply bind_run in H as [([] & w3 & Hw & H)|(Hr & e & Hw)].
    + unfold ret in H. injection H as <- <-.
      apply open_write_run in Hw as (o & T3 & Ho).
      exists [EvWrite (blob_file bd (_hash_content (snd f))) o].
      split; [apply (trans_app [] _ _ _ _ T2 T3)|].
      split; [constructor; [eexists; reflexivity | constructor]|].
      intros ? [= <-]. destruct o; try (destruct Ho as [Hr _]; destruct Hr; discriminate).
      destruct Ho as [_ Hs]. repeat split; [constructor; [reflexivity | constructor]|].
      unfold exists_on, is_file. rewrite Hs. reflexivity.
    + apply open_write_run in Hw as (o & T3 & Ho).
      exists [EvWrite (blob_file bd (_hash_content (snd f))) o].
      split; [apply (trans_app [] _ _ _ _ T2 T3)|].
      split; [constructor; [eexists; reflexivity | constructor]|].
      intros ? ->. destruct Hr. discriminate.
Qed.

Lemma foldM_build_run bd l :
  forall entries w r w',
    foldM (build_tree_step bd) l entries w = (r, w') ->
    exists evs, trans evs w w' /\ Forall (blob_event bd) evs
      /\ forall entries', r = Ok entries' ->
           entries' = fold_left tree_step l entries /\ Forall written evs
           /\ forall f, f ∈ l -> exists_on w' (blob_file bd (_hash_content (snd f))) = true.
Proof.
  induction l as [|f l IH]; intros entries w r w' H; simpl in H.
  - unfold ret in H. injection H as <- <-. exists [].
    split; [apply trans_nil; reflexivity|]. split; [constructor|].
    intros ? [= <-]. repeat split; [constructor|]. intros f Hf. inversion Hf.
  - apply bind_run in H as [(e1 & w1 & Hs & H)|(Hr & e & Hs)].
    + apply build_tree_step_run in Hs as (evs1 & T1 & B1 & K1).
      destruct (K1 _ eq_refl) as (-> & W1 & X1).
      apply IH in H as (evs2 & T2 & B2 & K2).
      exists (evs1 ++ evs2). split; [eapply trans_app; eassumption|].
      split; [apply Forall_app; auto|].
      intros entries' ->. destruct (K2 _ eq_refl) as (-> & W2 & X2).
      split; [reflexivity|]. split; [apply Forall_app; auto|].
      intros g Hg. apply elem_of_cons in Hg as [->|Hg]; [|apply X2, Hg].
      apply (trans_exists_mono _ _ _ _ T2 X1).
    + apply build_tree_step_run in Hs as (evs1 & T1 & B1 & K1).
      exists evs1. split; [exact T1|]. split; [exact B1|].
      intros ? ->. destruct Hr. discriminate.
Qed.

Lemma _build_tree_run work_dir bd w r w' :
  _build_tree work_dir bd w = (r, w') ->
  exists evs, trans evs w w' /\ Forall (blob_event bd) evs
    /\ forall tree, r = Ok tree ->
         tree = tree_of work_dir /\ Forall written evs
         /\ forall f, f ∈ walk [] work_dir ->
              exists_on w' (blob_file bd (_hash_content (snd f))) = true.
Proof.
  unfold _build_tree. intros H.
  apply bind_run in H as [(entries & w1 & Hf & H)|(Hr & e & Hf)].
  - unfold ret in H. injection H as <- <-.
    apply foldM_build_run in Hf as (evs & T & B & K). exists evs.
    split; [exact T|]. split; [exact B|].
    intros tree [= <-]. destruct (K _ eq_refl) as (-> & W & X). auto.
  - apply foldM_build_run in Hf as (evs & T & B & K). exists evs.
    split; [exact T|]. split; [exact B|]. intros ? ->. destruct Hr. discriminate.
Qed.

Lemma _store_tree_run tree td w r w' :
  _store_tree tree td w = (r, w') ->
  exists o, trans [EvWrite (tree_file td (tree_hash tree)) o] w w'
    /\ match o with
       | Written => r = Ok (tree_hash tree)
                    /\ files w' !! tree_file td (tree_hash tree) = Some (Doc tree)
       | _ => raised r
       end.
Proof.
  unfold _store_tree, tree_hash. intros H.
  apply bind_run in H as [([] & w1 & Hw & H)|(Hr & e & Hw)].
  - unfold ret in H. injection H as <- <-.
    apply open_write_run in Hw as (o & T & Ho). exists o. split; [exact T|].
    destruct o; try (destruct Ho as [Hr _]; destruct Hr; discriminate).
    destruct Ho as [_ Hs]. auto.
  - apply open_write_run in Hw as (o & T & Ho). exists o. split; [exact T|].
    destruct o; [|exact Hr..]. destruct Ho as [Hx _]. discriminate.
Qed.

Ltac path_neq :=
  unfold blob_file, blob_sub, tree_file, snapshot_file, ref_path, meta_path,
    blobs_dir, trees_dir, snapshots_dir, repo_path;
  rewrite <- ?app_assoc; simpl;
  let Heq := fresh "Heq" in
  intros Heq; repeat (apply app_inv_head in Heq); discriminate.

Section Runs.
Variable R : path.

Lemma blob_ne_ref repo id : blob_file (blobs_dir R repo) id <> ref_path R repo.
Proof. path_neq. Qed.
Lemma tree_ne_ref repo id : tree_file (trees_dir R repo) id <> ref_path R repo.
Proof. path_neq. Qed.
Lemma snapshot_ne_ref repo id : snapshot_file (snapshots_dir R repo) id <> ref_path R repo.
Proof. path_neq. Qed.
Lemma lock_ne_ref repo : lock_path R repo <> ref_path R repo.
Proof. unfold lock_path. path_neq. Qed.


Lemma read_parent_run repo w r w' :
  (if exists_on w (ref_path R repo)
   then s <- read_text (ref_path R repo) ;; ret (Py.strip s)
   else ret "") w = (r, w') ->
  trans [] w w'
  /\ forall parent, r = Ok parent ->
       parent_of_ref (files w !! ref_path R repo) = Some parent.
Proof.
  destruct (exists_on w (ref_path R repo)) eqn:Ex.
  - intros H. apply bind_run in H as [(s & w1 & Hr & H)|(Hr & e & Hread)].
    + unfold ret in H. injection H as <- <-.
      apply read_text_run in Hr as (T & Hc). split; [exact T|].
      intros parent [= <-]. destruct (Hc s eq_refl) as (c & Hf & Hd).
      rewrite Hf. simpl. rewrite Hd. reflexivity.
    + apply read_text_run in Hread as (T & _). split; [exact T|].
      intros ? ->. destruct Hr. discriminate.
  - unfold ret. intros [= <- <-]. split; [apply trans_nil; reflexivity|].
    intros parent [= <-]. unfold exists_on, is_file in Ex.
    destruct (files w !! ref_path R repo); [discriminate | reflexivity].
Qed.

Lemma Forall_blob_ne_ref repo evs :
  Forall (blob_event (blobs_dir R repo)) evs ->
  Forall (fun e => ev_path e <> ref_path R repo) evs.
Proof.
  intros H. eapply Forall_impl; [exact H|]. intros e [id ->]. apply blob_ne_ref.
Qed.

Lemma save_snapshot_locked_run repo msg wd w r w' :
  save_snapshot_locked R repo msg wd w = (r, w') ->
  aborted R repo w w' r \/ reached_ref R repo msg wd w w' r.
Proof.
  unfold save_snapshot_locked. intros H.
  unfold bind at 1, exists_ in H. fold (exists_on w (ref_path R repo)) in H.
  apply bind_run in H as [(parent & w1 & Hp & H)|(Hr & e & Hp)]; cycle 1.
  { left. split; [exact Hr|]. apply read_parent_run in Hp as [T _]. exists []. split; auto. }
  apply read_parent_run in Hp as [T1 Hparent]. specialize (Hparent _ eq_refl).
  apply bind_run in H as [([] & w2 & Hm & H)|(Hr & e & Hm)]; cycle 1.
  { left. split; [exact Hr|]. apply makedirs_run in Hm. exists [].
    split; [apply (trans_app [] [] _ _ _ T1 Hm) | constructor]. }
  apply makedirs_run in Hm. pose proof (trans_app [] [] _ _ _ T1 Hm) as T2. clear T1 Hm.
  apply bind_run in H as [([] & w3 & Hm & H)|(Hr & e & Hm)]; cycle 1.
  { left. split; [exact Hr|]. apply makedirs_run in Hm. exists [].
    split; [apply (trans_app [] [] _ _ _ T2 Hm) | constructor]. }
  apply makedirs_run in Hm. pose proof (trans_app [] [] _ _ _ T2 Hm) as T3. clear T2 Hm.
  apply bind_run in H as [([] & w4 & Hm & H)|(Hr & e & Hm)]; cycle 1.
  { left. split; [exact Hr|]. apply makedirs_run in Hm. exists [].
    split; [apply (trans_app [] [] _ _ _ T3 Hm) | constructor]. }
  apply makedirs_run in Hm. pose proof (trans_app [] [] _ _ _ T3 Hm) as T4. clear T3 Hm.
  simpl in T4.
  apply bind_run in H as [(tree & w5 & Hb & H)|(Hr & e & Hb)]; cycle 1.
  { left. split; [exact Hr|]. apply _build_tree_run in Hb as (evs & T & B & _).
    exists evs. split; [apply (trans_app [] _ _ _ _ T4 T) | apply Forall_blob_ne_ref, B]. }
  apply _build_tree_run in Hb as (evb & Tb & Bb & Kb).
  destruct (Kb _ eq_refl) as (-> & Wb & Xb). clear Kb.
  pose proof (trans_app [] _ _ _ _ T4 Tb) as T5. simpl in T5. clear T4 Tb.
  apply bind_run in H as [(tree_id & w6 & Hs & H)|(Hr & e & Hs)]; cycle 1.
  { left. split; [exact Hr|]. apply _store_tree_run in Hs as (o & T & _).
    eexists. split; [apply (trans_app _ _ _ _ _ T5 T)|].
    apply Forall_app. split; [apply Forall_blob_ne_ref, Bb|].
    constructor; [apply tree_ne_ref | constructor]. }
  apply _store_tree_run in Hs as (o & Tt & Ho).
  destruct o; try (destruct Ho; discriminate).
  destruct Ho as [[= ->] Htree]. fold (tree_id_of wd) in *.
  pose proof (trans_app _ _ _ _ _ T5 Tt) as T6. clear T5.
  destruct (snapshot_id_of (tree_id_of wd) parent) as [sid|] eqn:Hsid; cycle 1.
  { left. unfold raise in H. injection H as <- <-. split; [eexists; reflexivity|].
    eexists. split; [exact T6|].
    apply Forall_app. split; [apply Forall_blob_ne_ref, Bb|].
    constructor; [apply tree_ne_ref | constructor]. }
  apply bind_run in H as [([] & w7 & Hj & H)|(Hr & e & Hj)]; cycle 1.
  { left. split; [exact Hr|]. apply open_write_run in Hj as (o & T & _).
    eexists. split; [apply (trans_app _ _ _ _ _ T6 T)|].
    repeat (apply Forall_app; split); [apply Forall_blob_ne_ref, Bb | |];
      (constructor; [|constructor]); [apply tree_ne_ref | apply snapshot_ne_ref]. }
  apply open_write_run in Hj as (o & Tj & Ho).
  destruct o; try (destruct Ho as [Hr _]; destruct Hr; discriminate).
  destruct Ho as [_ Hsnap].
  pose proof (trans_app _ _ _ _ _ T6 Tj) as T7.
  right.
  assert (Hrefrun : exists o, trans [EvWrite (ref_path R repo) o] w7 w'
            /\ match o with
               | Written => r = Ok sid
                            /\ files w' !! ref_path R repo = Some (Data (Py.encode sid))
               | Failed => raised r
                           /\ files w' !! ref_path R repo = files w7 !! ref_path R repo
               | Torn => raised r /\ files w' !! ref_path R repo = Some (Data [])
               end).
  { apply bind_run in H as [([] & w8 & Hw & H)|(Hr & e & Hw)].
    - unfold ret in H. injection H as <- <-.
      apply open_write_run in Hw as (o & T & Ho). exists o. split; [exact T|].
      destruct o; try (destruct Ho as [Hr _]; destruct Hr; discriminate).
      destruct Ho as [_ Hx]. auto.
    - apply open_write_run in Hw as (o & T & Ho). exists o. split; [exact T|].
      destruct o; [destruct Ho; discriminate | destruct Ho; auto..]. }
  destruct Hrefrun as (o & Tr & Hout).
  apply (ReachedRef R repo msg wd w w' r _ o w7 parent sid T7); auto.
  - repeat (apply Forall_app; split).
    + apply Forall_forall. intros ev Hev. split.
      * rewrite Forall_forall in Wb. apply Wb, Hev.
      * right. left. rewrite Forall_forall in Bb. apply Bb, Hev.
    + constructor; [|constructor]. split; [reflexivity|]. right. right. left. reflexivity.
    + constructor; [|constructor]. split; [reflexivity|]. right. right. right. reflexivity.
  - rewrite (trans_frame _ _ _ _ Tj); [exact Htree|].
    simpl. intros Hin. apply list_elem_of_singleton in Hin. revert Hin. path_neq.
  - apply elem_of_app. left. apply elem_of_app. right. left.
  - apply elem_of_app. right. left.
  - intros f Hf. apply (trans_exists_mono _ _ _ _ Tj).
    apply (trans_exists_mono _ _ _ _ Tt). apply Xb, Hf.
Qed.
Lemma _lock_repo_run repo w r w' :
  _lock_repo (repo_path R repo) w = (r, w') ->
  exists evs, trans evs w w'
    /\ Forall (fun e => written e /\ ev_path e = lock_path R repo) evs.
Proof.
  unfold _lock_repo. pop w f w1. fold (lock_path R repo).
  assert (T : trans [] w w1) by (apply trans_nil; auto; rewrite Hd; reflexivity).
  destruct f; try (unfold raise; intros [= <- <-]; exists []; split; [exact T | constructor]).
  unfold bind, get_world, raise, ret, set_file.
  destruct (is_dir w1 (lock_path R repo));
    [intros [= <- <-]; exists []; split; [exact T | constructor]|].
  destruct (negb (is_dir w1 (repo_path R repo)));
    [intros [= <- <-]; exists []; split; [exact T | constructor]|].
  destruct (is_file w1 (lock_path R repo));
    intros [= <- <-]; [exists []; split; [exact T | constructor]|].
  exists [EvWrite (lock_path R repo) Written]. split.
  - apply (trans_app [] _ _ _ _ T). eapply trans_single; reflexivity.
  - constructor; [split; reflexivity | constructor].
Qed.

(** Every run of [save_snapshot] either raises before [refs/main] is
    opened for writing, or opens it as its last write. *)
Lemma save_snapshot_run repo msg wd w r w' :
  save_snapshot R repo msg wd w = (r, w') ->
  aborted R repo w w' r \/ reached_ref R repo msg wd w w' r.
Proof.
  unfold save_snapshot. intros H.
  apply bind_run in H as [(fd & w0 & Hlock & H)|(Hr & e & Hlock)]; cycle 1.
  { left. split; [exact Hr|]. apply _lock_repo_run in Hlock as (evs & T & F).
    exists evs. split; [exact T|]. eapply Forall_impl; [exact F|].
    intros ev [_ ->]. apply lock_ne_ref. }
  apply _lock_repo_run in Hlock as (ev0 & T0 & F0).
  unfold _unlock_repo in H. rewrite try_finally_ret in H.
  assert (F0' : Forall (fun e => ev_path e <> ref_path R repo) ev0).
  { eapply Forall_impl; [exact F0|]. intros ev [_ ->]. apply lock_ne_ref. }
  assert (Href0 : files w0 !! ref_path R repo = files w !! ref_path R repo).
  { apply (trans_frame _ _ _ _ T0). intros Hin.
    apply list_elem_of_fmap in Hin as (ev & Hp & Hin).
    rewrite Forall_forall in F0'. apply (F0' ev Hin). symmetry. exact Hp. }
  apply save_snapshot_locked_run in H as [(Hr & evs & T & F)|Hreach].
  - left. split; [exact Hr|]. exists (ev0 ++ evs).
    split; [eapply trans_app; eassumption | apply Forall_app; auto].
  - right. destruct Hreach.
    apply (ReachedRef R repo msg wd w w' r (ev0 ++ pre) o wm par sid); auto.
    + eapply trans_app; eassumption.
    + apply Forall_app. split; [|exact Hobj].
      eapply Forall_impl; [exact F0|]. intros ev [Hw Hp]. split; [exact Hw | left; exact Hp].
    + rewrite <- Href0. exact Hparent.
    + apply elem_of_app. right. exact Htree_ev.
    + apply elem_of_app. right. exact Hsnap_ev.
Qed.

(** The identifier of a snapshot: ["s_"] and decimal digits. *)
Lemma snapshot_id_shape tree_id parent sid :
  snapshot_id_of tree_id parent = Some sid ->
  sid <> "" /\ PySpec.nonspace sid = true.
Proof.
  unfold snapshot_id_of. destruct (Py.int16 _) as [n|]; [|discriminate].
  intros [= <-]. split; [discriminate|].
  apply PyFacts.nonspace_app; [reflexivity | apply PyFacts.dec_nonspace].
Qed.

(** Reading back a ref that holds a snapshot identifier gives the
    identifier. *)
Lemma parent_of_written_ref tree_id parent sid :
  snapshot_id_of tree_id parent = Some sid ->
  parent_of_ref (Some (Data (Py.encode sid))) = Some sid.
Proof.
  intros H. apply snapshot_id_shape in H as [_ H]. simpl.
  rewrite PyFacts.decode_encode. simpl. rewrite PyFacts.strip_nonspace by exact H.
  reflexivity.
Qed.

(** What a successful [save_snapshot] leaves behind. *)
Lemma save_snapshot_ok repo msg wd w sid w' :
  save_snapshot R repo msg wd w = (Ok sid, w') ->
  exists parent,
    parent_of_ref (files w !! ref_path R repo) = Some parent
    /\ snapshot_id_of (tree_id_of wd) parent = Some sid
    /\ files w' !! ref_path R repo = Some (Data (Py.encode sid))
    /\ files w' !! snapshot_file (snapshots_dir R repo) sid
       = Some (Doc (snapshot_doc sid (tree_id_of wd) parent msg))
    /\ files w' !! tree_file (trees_dir R repo) (tree_id_of wd) = Some (Doc (tree_of wd))
    /\ (forall p, is_Some (files w !! p) -> is_Some (files w' !! p))
    /\ (forall id, id <> sid ->
          files w' !! snapshot_file (snapshots_dir R repo) id
          = files w !! snapshot_file (snapshots_dir R repo) id).
Proof.
  intros H. apply save_snapshot_run in H as [([e He] & _)|Hreach]; [discriminate|].
  destruct Hreach.
  destruct o; try (destruct Hout as [[e He] _]; discriminate).
  destruct Hout as [[= <-] Href']. exists par.
  pose proof (trans_app _ _ _ _ _ Hpre Href) as T.
  assert (Hne : forall p, p <> ref_path R repo -> files w' !! p = files wm !! p).
  { intros p Hp. apply (trans_frame _ _ _ _ Href). simpl.
    intros Hin. apply list_elem_of_singleton in Hin. congruence. }
  split; [exact Hparent|]. split; [exact Hsid|]. split; [exact Href'|].
  split; [rewrite Hne; [exact Hsnap | apply snapshot_ne_ref]|].
  split; [rewrite Hne; [exact Htree | apply tree_ne_ref]|].
  split; [destruct T as (_ & _ & M & _); exact M|].
  intros id Hid. apply (trans_frame _ _ _ _ T).
  rewrite fmap_app. intros Hin. apply elem_of_app in Hin as [Hin|Hin].
  - apply list_elem_of_fmap in Hin as (ev & Hp & Hin).
    rewrite Forall_forall in Hobj. destruct (Hobj ev Hin) as [_ [Hl|[[b Hb]|[Ht|Hs]]]];
      rewrite <- Hp in *.
    + revert Hl. unfold lock_path. path_neq.
    + revert Hb. path_neq.
    + revert Ht. path_neq.
    + unfold snapshot_file in Hs. apply app_inv_head in Hs. injection Hs as Hs.
      apply str_app_inv_tail in Hs. contradiction.
  - simpl in Hin. apply list_elem_of_singleton in Hin. revert Hin. path_neq.
Qed.

Lemma init_repo_ok repo w p w' :
  init_repo R repo w = (Ok p, w') ->
  files w' !! ref_path R repo = Some (Data [])
  /\ files w' !! meta_path R repo = Some (Doc (meta_doc repo))
  /\ forall q, q <> ref_path R repo -> q <> meta_path R repo -> files w' !! q = files w !! q.
Proof.
  unfold init_repo. intros H.
  apply bind_run in H as [([] & w1 & H1 & H)|([e He] & _)]; [|discriminate].
  apply bind_run in H as [([] & w2 & H2 & H)|([e He] & _)]; [|discriminate].
  apply bind_run in H as [([] & w3 & H3 & H)|([e He] & _)]; [|discriminate].
  apply bind_run in H as [([] & w4 & H4 & H)|([e He] & _)]; [|discriminate].
  unfold ret in H. injection H as <- <-.
  apply makedirs_run in H1, H3.
  apply open_write_run in H2 as (o2 & T2 & Ho2), H4 as (o4 & T4 & Ho4).
  destruct o2; try (destruct Ho2 as [[e He] _]; discriminate).
  destruct o4; try (destruct Ho4 as [[e He] _]; discriminate).
  destruct Ho2 as [_ Hmeta], Ho4 as [_ Href].
  pose proof (trans_app _ _ _ _ _ H3 T4) as T34.
  split; [exact Href|]. split.
  - rewrite (trans_frame _ _ _ _ T34); [exact Hmeta|].
    simpl. intros Hin. apply list_elem_of_singleton in Hin. revert Hin. path_neq.
  - intros q Hq1 Hq2.
    pose proof (trans_app _ _ _ _ _ (trans_app _ _ _ _ _ H1 T2) T34) as T.
    apply (trans_frame _ _ _ _ T). simpl. intros Hin.
    apply elem_of_cons in Hin as [->|Hin]; [contradiction|].
    apply list_elem_of_singleton in Hin. contradiction.
Qed.

End Runs.

(** *** The tree identifier *)

Lemma dict_set_map {A B} (f : A -> B) (k : string) (v : A) (d : list (string * A)) :
  dict_set k (f v) (List.map (fun kv => (fst kv, f (snd kv))) d)
  = List.map (fun kv => (fst kv, f (snd kv))) (dict_set k v d).
Proof.
  induction d as [|[k' v'] d IH]; simpl; [reflexivity|].
  destruct (String.eqb k k'); simpl; [reflexivity|]. rewrite IH. reflexivity.
Qed.

Lemma tree_entries_blob_ids (wd : wnode) :
  tree_entries wd = List.map (fun kv => (fst kv, blob_entry (snd kv))) (blob_ids wd).
Proof.
  unfold tree_entries, blob_ids.
  change (@nil (string * json))
    with (List.map (fun kv : string * string => (fst kv, blob_entry (snd kv))) []) at 1.
  generalize (@nil (string * string)) as acc.
  induction (walk [] wd) as [|f l IH]; intros acc; simpl; [reflexivity|].
  unfold tree_step at 2. rewrite dict_set_map. apply IH.
Qed.

Lemma insert_item_map {A B} (f : A -> B) (x : string * A) (l : list (string * A)) :
  insert_item (fst x, f (snd x)) (List.map (fun kv => (fst kv, f (snd kv))) l)
  = List.map (fun kv => (fst kv, f (snd kv))) (insert_item x l).
Proof.
  induction l as [|y l IH]; simpl; [reflexivity|].
  destruct (String.leb (fst x) (fst y)); simpl; [reflexivity|]. rewrite IH. reflexivity.
Qed.

Lemma sort_items_map {A B} (f : A -> B) (l : list (string * A)) :
  sort_items (List.map (fun kv => (fst kv, f (snd kv))) l)
  = List.map (fun kv => (fst kv, f (snd kv))) (sort_items l).
Proof.
  induction l as [|x l IH]; simpl; [reflexivity|].
  unfold sort_items in *. simpl. rewrite IH. apply insert_item_map.
Qed.

Lemma blob_entry_dumps (id : string) :
  Json.dumps true (blob_entry id)
  = "{" +:+ Json.quote "id" +:+ ": " +:+ Json.quote id
    +:+ ", " +:+ Json.quote "type" +:+ ": " +:+ Json.quote "blob" +:+ "}".
Proof.
  unfold blob_entry. simpl. unfold Json.item_text. simpl.
  unfold Py.join. simpl. rewrite !str_app_assoc. reflexivity.
Qed.

(** [json.dumps(tree, sort_keys=True)] is [tree_text]. *)
Lemma entries_text (wd : wnode) :
  List.map Json.item_text
    (sort_items (List.map (fun kv => (fst kv, Json.dumps true (snd kv))) (tree_entries wd)))
  = List.map entry_text (sort_items (blob_ids wd)).
Proof.
  rewrite tree_entries_blob_ids, List.map_map. cbn [fst snd].
  rewrite (sort_items_map (fun id => Json.dumps true (blob_entry id))), List.map_map.
  apply List.map_ext. intros [k id]. unfold Json.item_text, entry_text. cbn [fst snd].
  rewrite blob_entry_dumps. reflexivity.
Qed.

(** [json.dumps(tree, sort_keys=True)] is [tree_text]. *)
Lemma tree_dumps (wd : wnode) : Json.dumps true (tree_of wd) = tree_text (blob_ids wd).
Proof.
  unfold tree_of, tree_text.
  change (Json.dumps true (JDict [("entries", JDict (tree_entries wd))]))
    with ("{" +:+ Json.quote "entries" +:+ ": "
          +:+ ("{" +:+ Py.join ", "
                 (List.map Json.item_text
                    (sort_items (List.map (fun kv => (fst kv, Json.dumps true (snd kv)))
                                   (tree_entries wd)))) +:+ "}") +:+ "}").
  rewrite entries_text, !str_app_assoc. reflexivity.
Qed.

Lemma run_eq {A} (m : result A * world) (a : A) : fst m = Ok a -> m = (Ok a, snd m).
Proof. destruct m as [r w]. simpl. intros ->. reflexivity. Qed.

(** C3, as stated, fails: the text that is hashed has a space after each
    [","] and [":"]; the digest of the text without spaces is another one. *)
Lemma tree_id_compact_counterexample :
  fst first_save = Ok "s_181379010"
  /\ files (snd first_save) !! snapshot_file (snapshots_dir root "demo") "s_181379010"
     = Some (Doc (snapshot_doc "s_181379010" hello_tree_id "" "first"))
  /\ compact_tree_text (blob_ids hello_dir)
     = Py.q "{'entries':{'hello.txt':{'id':'98ea6e4f216f2fb4b69fff9b3a44842c38686ca685f3f55dc48c5d3fb1107be4','type':'blob'}}}"
  /\ hello_tree_id <> sha256_hexdigest (Py.encode (compact_tree_text (blob_ids hello_dir))).
Proof.
  split; [vm_compute; reflexivity|].
  split; [vm_compute; reflexivity|].
  split; [vm_compute; reflexivity|].
  vm_compute. discriminate.
Qed.

(** C2, as stated, fails: the second of two successive saves of an
    unchanged directory has the first snapshot as parent, so it gets another
    identifier and moves [refs/main]. *)
Lemma save_twice_counterexample :
  fst first_save = Ok "s_181379010"
  /\ fst second_save = Ok "s_64290475"
  /\ files (snd first_save) !! ref_path root "demo" = Some (Data (Py.encode "s_181379010"))
  /\ files (snd second_save) !! ref_path root "demo" = Some (Data (Py.encode "s_64290475")).
Proof.
  split; [vm_compute; reflexivity|].
  split; [vm_compute; reflexivity|].
  split; vm_compute; reflexivity.
Qed.

Section Identifiers.
Variable R : path.

(** C3, amended.  The tree identifier [save_snapshot] records as
    [root_tree], and stores the tree under, is the SHA-256 of
    [json.dumps(tree, sort_keys=True)] encoded as UTF-8: the paths in
    increasing order, each with its ["id"] before its ["type"], items
    separated by [", "] and keys from values by [": "], characters outside
    printable ASCII escaped, nothing after the closing brace. *)
Theorem tree_id_is_sha256_of_sorted_json repo msg wd w sid w' :
  save_snapshot R repo msg wd w = (Ok sid, w') ->
  exists tree_id par,
    files w' !! snapshot_file (snapshots_dir R repo) sid
    = Some (Doc (snapshot_doc sid tree_id par msg))
    /\ files w' !! tree_file (trees_dir R repo) tree_id = Some (Doc (tree_of wd))
    /\ tree_id = sha256_hexdigest (Py.encode (Json.dumps true (tree_of wd)))
    /\ Json.dumps true (tree_of wd) = tree_text (blob_ids wd).
Proof.
  intros H. apply save_snapshot_ok in H as (par & _ & _ & _ & Hsnap & Htree & _).
  exists (tree_id_of wd), par. split; [exact Hsnap|]. split; [exact Htree|].
  split; [reflexivity | apply tree_dumps].
Qed.

(** C2, amended.  The identifier [save_snapshot] returns is determined by
    the working directory and by what [refs/main] holds when the call
    starts, not by the message: calls that start from the same ref with the
    same directory return the same identifier.  Of two successive calls on
    an unchanged directory, the second has the first snapshot as parent: its
    identifier is derived from the tree and the first identifier, and
    [refs/main] is overwritten with it. *)
Theorem save_snapshot_id_determined repo msg1 msg2 wd w fl sid1 w1 sid2 w2 :
  save_snapshot R repo msg1 wd w = (Ok sid1, w1) ->
  save_snapshot R repo msg2 wd (with_faults fl w1) = (Ok sid2, w2) ->
  (exists par, parent_of_ref (files w !! ref_path R repo) = Some par
               /\ snapshot_id_of (tree_id_of wd) par = Some sid1)
  /\ snapshot_id_of (tree_id_of wd) sid1 = Some sid2
  /\ files w2 !! ref_path R repo = Some (Data (Py.encode sid2))
  /\ files w2 !! snapshot_file (snapshots_dir R repo) sid2
     = Some (Doc (snapshot_doc sid2 (tree_id_of wd) sid1 msg2))
  /\ (forall v msg' sid' v',
        files v !! ref_path R repo = files w !! ref_path R repo ->
        save_snapshot R repo msg' wd v = (Ok sid', v') -> sid' = sid1).
Proof.
  intros H1 H2.
  apply save_snapshot_ok in H1 as (par1 & Hp1 & Hs1 & Href1 & _).
  apply save_snapshot_ok in H2 as (par2 & Hp2 & Hs2 & Href2 & Hsnap2 & _).
  simpl in Hp2. rewrite Href1, (parent_of_written_ref _ _ _ Hs1) in Hp2.
  injection Hp2 as <-.
  split; [eauto|]. split; [exact Hs2|]. split; [exact Href2|]. split; [exact Hsnap2|].
  intros v msg' sid' v' Hv H. apply save_snapshot_ok in H as (par & Hp & Hs & _).
  rewrite Hv, Hp1 in Hp. injection Hp as <-. congruence.
Qed.
End Identifiers.

Lemma tree_id_is_sha256_of_sorted_json_witness :
  files (snd first_save) !! tree_file (trees_dir root "demo") hello_tree_id
  = Some (Doc (tree_of hello_dir))
  /\ hello_tree_id
     = sha256_hexdigest (Py.encode (Py.q
         "{'entries': {'hello.txt': {'id': '98ea6e4f216f2fb4b69fff9b3a44842c38686ca685f3f55dc48c5d3fb1107be4', 'type': 'blob'}}}")).
Proof.
  destruct (tree_id_is_sha256_of_sorted_json root "demo" "first" hello_dir
              (with_faults [] demo0) "s_181379010" (snd first_save))
    as (tree_id & par & _ & Htree & Hid & Htext).
  { apply (run_eq first_save). vm_compute. reflexivity. }
  assert (Heq : tree_id = hello_tree_id) by (rewrite Hid; vm_compute; reflexivity).
  rewrite Heq in Htree. split; [exact Htree|].
  rewrite <- Heq, Hid, Htext. vm_compute. reflexivity.
Defined.

Lemma save_snapshot_id_determined_witness :
  snapshot_id_of (tree_id_of hello_dir) "s_181379010" = Some "s_64290475"
  /\ files (snd second_save) !! ref_path root "demo" = Some (Data (Py.encode "s_64290475")).
Proof.
  destruct (save_snapshot_id_determined root "demo" "first" "first" hello_dir
              (with_faults [] demo0) []
              "s_181379010" (snd first_save) "s_64290475" (snd second_save))
    as (_ & Hid & Href & _).
  - apply (run_eq first_save). vm_compute. reflexivity.
  - apply (run_eq second_save). vm_compute. reflexivity.
  - split; [exact Hid | exact Href].
Defined.

(** *** Initialising a repository that exists *)

Lemma bind_ok {A B} (m : M A) (k : A -> M B) w a w1 :
  m w = (Ok a, w1) -> bind m k w = k a w1.
Proof. unfold bind. intros ->. reflexivity. Qed.

Lemma makedirs_pass p w :
  faults w = [] -> existsb (is_file w) (prefixes p) = false ->
  makedirs p w = (Ok tt, World (files w) (dirs w ∪ list_to_set (prefixes p)) [] (log w)).
Proof.
  intros Hf Hex. destruct w as [fs ds fl lg]. simpl in *. subst fl.
  unfold makedirs, bind, pop_fault, get_world, add_dirs. simpl.
  rewrite Hex. reflexivity.
Qed.

Lemma open_write_pass p c w :
  faults w = [] -> is_dir w p = false -> is_dir w (parent p) = true ->
  open_write p c w
  = (Ok tt, World (<[p := c]> (files w)) (dirs w) [] (log w ++ [EvWrite p Written])).
Proof.
  intros Hf Hd Hp. destruct w as [fs ds fl lg]. simpl in *. subst fl.
  unfold open_write, bind, pop_fault, get_world, set_file. simpl.
  rewrite Hd, Hp. reflexivity.
Qed.

Lemma prefixes_snoc (p : path) (c : string) : prefixes (p ++ [c]) = prefixes p ++ [p ++ [c]].
Proof.
  unfold prefixes. rewrite length_app. simpl.
  replace (length p + 1) with (S (length p)) by lia.
  rewrite seq_S, map_app. simpl. f_equal.
  - apply map_ext_in. intros n Hn. apply in_seq in Hn.
    rewrite firstn_app. replace (n - length p) with 0 by lia.
    simpl. apply app_nil_r.
  - f_equal. rewrite firstn_all2; [reflexivity|]. rewrite length_app. simpl. lia.
Qed.

Lemma prefixes_length (p q : path) : q ∈ prefixes p -> length q <= length p.
Proof.
  unfold prefixes. intros H. apply list_elem_of_fmap in H as (n & -> & _).
  rewrite length_firstn. lia.
Qed.

Lemma existsb_ext_in {A} (f g : A -> bool) (l : list A) :
  (forall x, In x l -> f x = g x) -> existsb f l = existsb g l.
Proof.
  induction l as [|x l IH]; simpl; intros H; [reflexivity|].
  rewrite H by auto. rewrite IH by auto. reflexivity.
Qed.

Lemma not_dir (w : world) (p : path) : p <> [] -> p ∉ dirs w -> is_dir w p = false.
Proof.
  intros Hne H. destruct p; [contradiction|]. simpl. apply bool_decide_eq_false. exact H.
Qed.

Lemma in_dir (w : world) (p : path) : p ∈ dirs w -> is_dir w p = true.
Proof. intros H. destruct p; [reflexivity|]. simpl. apply bool_decide_eq_true. exact H. Qed.

Section Reinit.
Variable R : path.

(** C9.  On a disk where the repository directory (with the directories
    above it) exists, and with no I/O fault, [init_repo] does not raise: it
    returns the repository path, [meta.json] holds the fresh metadata,
    [refs/main] holds the empty string, so that the history read from it is
    empty whatever was committed before, and every other file, in
    particular everything under [objects/], is as it was; the only directory
    it may add is [refs]. *)
Theorem init_repo_existing repo w fuel :
  faults w = [] ->
  Forall (fun q => q ∈ dirs w /\ is_file w q = false) (prefixes (repo_path R repo)) ->
  meta_path R repo ∉ dirs w ->
  is_file w (repo_path R repo ++ ["refs"]) = false ->
  ref_path R repo ∉ dirs w ->
  exists w',
    init_repo R repo w = (Ok (repo_path R repo), w')
    /\ files w' !! meta_path R repo = Some (Doc (meta_doc repo))
    /\ files w' !! ref_path R repo = Some (Data (Py.encode ""))
    /\ (forall q, q <> meta_path R repo -> q <> ref_path R repo ->
          files w' !! q = files w !! q)
    /\ (forall q, q ∈ dirs w' <-> q ∈ dirs w \/ q = repo_path R repo ++ ["refs"])
    /\ (forall rest, files w' !! (repo_path R repo ++ "objects" :: rest)
                     = files w !! (repo_path R repo ++ "objects" :: rest)
                     /\ ((repo_path R repo ++ "objects" :: rest) ∈ dirs w'
                         <-> (repo_path R repo ++ "objects" :: rest) ∈ dirs w))
    /\ get_history R (S fuel) repo w' = Some (Ok []).
Proof.
  intros Hf Hpre Hmeta Hrefs Href.
  assert (Hex : existsb (is_file w) (prefixes (repo_path R repo)) = false).
  { apply not_true_is_false. intros H. apply existsb_exists in H as (q & Hq & Hfile).
    rewrite List.Forall_forall in Hpre. destruct (Hpre q Hq) as [_ Hnf]. congruence. }
  assert (Hrp : repo_path R repo ∈ dirs w).
  { rewrite List.Forall_forall in Hpre. apply Hpre.
    unfold repo_path. rewrite prefixes_snoc. apply in_or_app. right. left. reflexivity. }
  set (rp := repo_path R repo) in *.
  set (w1 := World (files w) (dirs w ∪ list_to_set (prefixes rp)) [] (log w)).
  set (w2 := World (<[meta_path R repo := Doc (meta_doc repo)]> (files w)) (dirs w1) []
               (log w ++ [EvWrite (meta_path R repo) Written])).
  set (w3 := World (files w2) (dirs w2 ∪ list_to_set (prefixes (rp ++ ["refs"]))) [] (log w2)).
  set (w4 := World (<[ref_path R repo := Data []]> (files w3)) (dirs w3) []
               (log w3 ++ [EvWrite (ref_path R repo) Written])).
  assert (Hd1 : forall q, q ∈ dirs w1 <-> q ∈ dirs w).
  { intros q. unfold w1. simpl. rewrite elem_of_union, elem_of_list_to_set. split; [|auto].
    intros [H|H]; [exact H|]. rewrite List.Forall_forall in Hpre.
    apply Hpre. apply list_elem_of_In. exact H. }
  assert (Hd3 : forall q, q ∈ dirs w3 <-> q ∈ dirs w \/ q = rp ++ ["refs"]).
  { intros q.
    change (dirs w3) with (dirs w1 ∪ list_to_set (prefixes (rp ++ ["refs"]))).
    rewrite elem_of_union, elem_of_list_to_set, prefixes_snoc.
    rewrite elem_of_app, list_elem_of_singleton, Hd1.
    split; [|tauto]. intros [H|[H|H]]; auto.
    left. rewrite List.Forall_forall in Hpre. apply Hpre, list_elem_of_In, H. }
  assert (E1 : makedirs rp w = (Ok tt, w1)) by (apply makedirs_pass; assumption).
  assert (E2 : json_dump (meta_path R repo) (meta_doc repo) w1 = (Ok tt, w2)).
  { unfold json_dump. apply (open_write_pass _ _ w1); [reflexivity | |].
    - apply not_dir; [unfold meta_path; destruct (repo_path R repo); discriminate|].
      rewrite Hd1. exact Hmeta.
    - unfold meta_path, parent. fold rp. rewrite removelast_last.
      apply in_dir. rewrite Hd1. exact Hrp. }
  assert (E3 : makedirs (rp ++ ["refs"]) w2 = (Ok tt, w3)).
  { apply (makedirs_pass _ w2); [reflexivity|].
    rewrite prefixes_snoc, existsb_app. simpl. rewrite orb_false_r.
    apply orb_false_iff. split.
    - rewrite <- Hex. apply existsb_ext_in. intros q Hq.
      unfold is_file, w2. simpl. rewrite lookup_insert_ne; [reflexivity|].
      intros <-. apply list_elem_of_In, prefixes_length in Hq.
      unfold meta_path in Hq. fold rp in Hq. rewrite length_app in Hq. simpl in Hq. lia.
    - unfold is_file, w2. simpl. rewrite lookup_insert_ne.
      + unfold is_file in Hrefs. exact Hrefs.
      + unfold meta_path. fold rp. intros Heq. apply app_inv_head in Heq. discriminate. }
  assert (E4 : write_text (ref_path R repo) "" w3 = (Ok tt, w4)).
  { unfold write_text. apply (open_write_pass _ _ w3); [reflexivity | |].
    - apply not_dir; [unfold ref_path; destruct (repo_path R repo); discriminate|].
      rewrite Hd3. intros [H|H]; [contradiction|].
      unfold ref_path in H. fold rp in H. apply app_inv_head in H. discriminate.
    - apply in_dir. rewrite Hd3. right. unfold ref_path, parent. fold rp.
      change (rp ++ ["refs"; "main"]) with (rp ++ ["refs"] ++ ["main"]).
      rewrite app_assoc, removelast_last. reflexivity. }
  exists w4. split.
  { unfold init_repo. fold rp.
    rewrite (bind_ok _ _ _ _ _ E1), (bind_ok _ _ _ _ _ E2), (bind_ok _ _ _ _ _ E3),
      (bind_ok _ _ _ _ _ E4). reflexivity. }
  assert (Hne : meta_path R repo <> ref_path R repo) by path_neq.
  split; [unfold w4, w3, w2; simpl; rewrite lookup_insert_ne by congruence; apply lookup_insert_eq|].
  split; [unfold w4; simpl; apply lookup_insert_eq|].
  split.
  { intros q Hq1 Hq2. unfold w4, w3, w2. simpl. rewrite !lookup_insert_ne by congruence. reflexivity. }
  split; [exact Hd3|].
  split.
  { intros rest. split.
    - unfold w4, w3, w2. simpl. fold rp. rewrite !lookup_insert_ne; [reflexivity|..].
      + unfold meta_path. fold rp. intros Heq. apply app_inv_head in Heq. discriminate.
      + unfold ref_path. fold rp. intros Heq. apply app_inv_head in Heq. discriminate.
    - fold rp. change (dirs w4) with (dirs w3). rewrite Hd3. split; [|auto].
      intros [H|H]; [exact H|]. apply app_inv_head in H. discriminate. }
  unfold get_history.
  assert (Hfile : files w4 !! ref_path R repo = Some (Data [])) by (unfold w4; simpl; apply lookup_insert_eq).
  unfold is_file. rewrite Hfile. reflexivity.
Qed.
End Reinit.

Lemma init_repo_existing_witness :
  get_history root 5 "demo" (with_faults [] (snd first_save))
  = Some (Ok [snapshot_doc "s_181379010" hello_tree_id "" "first"])
  /\ exists w',
       init_repo root "demo" (with_faults [] (snd first_save)) = (Ok (repo_path root "demo"), w')
       /\ get_history root 5 "demo" w' = Some (Ok [])
       /\ files w' !! snapshot_file (snapshots_dir root "demo") "s_181379010"
          = Some (Doc (snapshot_doc "s_181379010" hello_tree_id "" "first")).
Proof.
  split; [vm_compute; reflexivity|].
  destruct (init_repo_existing root "demo" (with_faults [] (snd first_save)) 4)
    as (w' & Hrun & _ & _ & _ & _ & Hobj & Hhist).
  - reflexivity.
  - apply List.Forall_cons; [split; vm_compute; reflexivity|].
    apply List.Forall_cons; [split; vm_compute; reflexivity|]. apply List.Forall_nil.
  - intros H. vm_compute in H. discriminate.
  - vm_compute. reflexivity.
  - intros H. vm_compute in H. discriminate.
  - exists w'. split; [exact Hrun|]. split; [exact Hhist|].
    destruct (Hobj ["snapshots"; "s_181379010.json"]) as [Hfile _].
    change (files w' !! snapshot_file (snapshots_dir root "demo") "s_181379010"
            = files (with_faults [] (snd first_save))
                !! snapshot_file (snapshots_dir root "demo") "s_181379010") in Hfile.
    rewrite Hfile. vm_compute. reflexivity.
Defined.

(** *** History *)

Section History.
Variable R : path.

Lemma history_of_head repo w h ids docs :
  history_of R repo w h ids docs -> h = hd "" ids /\ length docs = length ids.
Proof.
  induction 1 as [|sid tid par msg ids docs Hne Hs Ht Hrest [_ IH]]; simpl; auto.
Qed.

Lemma history_of_preserved repo w w' h ids docs :
  history_of R repo w h ids docs ->
  (forall p, is_Some (files w !! p) -> is_Some (files w' !! p)) ->
  (forall id, id ∈ ids ->
     files w' !! snapshot_file (snapshots_dir R repo) id
     = files w !! snapshot_file (snapshots_dir R repo) id) ->
  history_of R repo w' h ids docs.
Proof.
  induction 1 as [|sid tid par msg ids docs Hne Hs Ht Hrest IH]; intros Hmono Hsame.
  - constructor.
  - constructor; [exact Hne | | apply Hmono, Ht |].
    + rewrite Hsame; [exact Hs | left].
    + apply IH; [exact Hmono|]. intros id Hid. apply Hsame. right. exact Hid.
Qed.

Lemma history_loop_follows repo w h ids docs :
  history_of R repo w h ids docs ->
  forall fuel cur acc,
    length docs < fuel -> cur = JStr h \/ cur = parent_json h ->
    history_loop R fuel w repo cur acc = Some (Ok (acc ++ docs)).
Proof.
  induction 1 as [|sid tid par msg ids docs Hne Hs Ht Hrest IH]; intros fuel cur acc Hlen Hcur.
  - destruct fuel as [|fuel]; [simpl in Hlen; lia|].
    rewrite app_nil_r. destruct Hcur as [->| ->]; reflexivity.
  - destruct fuel as [|fuel]; [simpl in Hlen; lia|].
    assert (Hc : cur = JStr sid).
    { destruct Hcur as [->| ->]; [reflexivity|]. unfold parent_json.
      apply String.eqb_neq in Hne. rewrite Hne. reflexivity. }
    subst cur. simpl. apply String.eqb_neq in Hne. rewrite Hne. simpl.
    unfold is_file. rewrite Hs. simpl.
    replace (acc ++ snapshot_doc sid tid par msg :: docs)
      with ((acc ++ [snapshot_doc sid tid par msg]) ++ docs)
      by (rewrite <- app_assoc; reflexivity).
    apply IH; [simpl in Hlen; lia|]. right. reflexivity.
Qed.

(** What holds in a reachable state whose identifiers are distinct. *)
Lemma reachable_history repo w ids :
  reachable R repo w ids -> NoDup ids ->
  Forall id_shaped ids
  /\ files w !! ref_path R repo = Some (Data (Py.encode (hd "" ids)))
  /\ exists docs, history_of R repo w (hd "" ids) ids docs.
Proof.
  induction 1 as [w0 p w Hinit|w ids fl msg wd sid w' Hreach IH Hsave]; intros Hnd.
  - apply init_repo_ok in Hinit as (Href & _). split; [constructor|].
    split; [exact Href|]. exists []. constructor.
  - apply NoDup_cons in Hnd as [Hnew Hnd].
    destruct (IH Hnd) as (Hshape & Href & docs & Hhist). clear IH.
    apply save_snapshot_ok in Hsave
      as (par & Hpar & Hsid & Href' & Hsnap & Htree & Hmono & Hsame).
    simpl in Hpar. rewrite Href in Hpar. simpl in Hpar.
    rewrite PyFacts.decode_encode in Hpar. simpl in Hpar.
    assert (Hstrip : Py.strip (hd "" ids) = hd "" ids).
    { apply PyFacts.strip_nonspace. destruct ids as [|i ids]; [reflexivity|].
      apply Forall_cons in Hshape as [[_ Hi] _]. exact Hi. }
    rewrite Hstrip in Hpar. injection Hpar as <-.
    pose proof (snapshot_id_shape _ _ _ Hsid) as Hsh.
    split; [constructor; assumption|]. split; [exact Href'|].
    exists (snapshot_doc sid (tree_id_of wd) (hd "" ids) msg :: docs). simpl.
    constructor; [apply Hsh | exact Hsnap | rewrite Htree; eauto |].
    apply (history_of_preserved repo (with_faults fl w)).
    + apply (history_of_preserved repo w); [exact Hhist | auto | auto].
    + exact Hmono.
    + intros id Hid. apply Hsame. intros ->. contradiction.
Qed.

(** C6, amended.  In a state reached by [init_repo] and successful calls
    of [save_snapshot] that returned distinct identifiers, [get_history]
    ends within as many iterations as there are snapshots and returns them
    newest first: the first is the one [refs/main] names, each has its root
    tree in [objects/trees], the parent of each is the next one, and the
    last has no parent. *)
Theorem get_history_of_reachable repo w ids :
  reachable R repo w ids -> NoDup ids ->
  exists docs,
    get_history R (S (length ids)) repo w = Some (Ok docs)
    /\ length docs = length ids
    /\ files w !! ref_path R repo = Some (Data (Py.encode (hd "" ids)))
    /\ history_of R repo w (hd "" ids) ids docs.
Proof.
  intros Hreach Hnd.
  destruct (reachable_history repo w ids Hreach Hnd) as (Hshape & Href & docs & Hhist).
  exists docs. destruct (history_of_head _ _ _ _ _ Hhist) as [_ Hlen].
  split; [|auto].
  assert (Hstrip : Py.strip (hd "" ids) = hd "" ids).
  { apply PyFacts.strip_nonspace. destruct ids as [|i ids0]; [reflexivity|].
    apply Forall_cons in Hshape as [[_ Hi] _]. exact Hi. }
  unfold get_history, is_file. rewrite Href. cbn [orb negb content_bytes].
  rewrite PyFacts.decode_encode, Hstrip.
  apply (history_loop_follows repo w _ ids docs Hhist (S (length ids)) _ []); [lia | auto].
Qed.

Lemma history_loop_cycle repo w cyc :
  forallb (cycle_step R repo w cyc) cyc = true ->
  forall fuel id acc, In id cyc -> history_loop R fuel w repo (JStr id) acc = None.
Proof.
  intros Hcyc. induction fuel as [|fuel IH]; intros id acc Hin; [reflexivity|].
  rewrite forallb_forall in Hcyc. pose proof (Hcyc id Hin) as Hstep.
  unfold cycle_step in Hstep. apply andb_true_iff in Hstep as [Hne Hstep].
  simpl. rewrite Hne. simpl. unfold is_file.
  destruct (files w !! snapshot_file (snapshots_dir R repo) id) as [[b|[| | | | |d]]|];
    try discriminate.
  simpl. destruct (dict_get "parent" d) as [[| | |p| |]|]; try discriminate.
  simpl. apply IH. apply existsb_exists in Hstep as (x & Hx & Heq).
  apply String.eqb_eq in Heq. subst x. exact Hx.
Qed.

Lemma get_history_cycle repo w cyc :
  head_in_cycle R repo w cyc = true ->
  forallb (cycle_step R repo w cyc) cyc = true ->
  forall fuel, get_history R fuel repo w = None.
Proof.
  intros Hhead Hcyc fuel. unfold get_history, head_in_cycle, is_file in *.
  destruct (files w !! ref_path R repo) as [c|]; [|discriminate]. simpl.
  destruct (Py.decode (content_bytes c)) as [s|]; [|discriminate].
  apply existsb_exists in Hhead as (x & Hx & Heq). apply String.eqb_eq in Heq. subst x.
  apply (history_loop_cycle repo w cyc); assumption.
Qed.
End History.

Lemma get_history_of_reachable_witness :
  NoDup ["s_64290475"; "s_181379010"]
  /\ exists docs,
       get_history root 3 "demo" (snd second_save) = Some (Ok docs)
       /\ length docs = 2
       /\ history_of root "demo" (snd second_save) "s_64290475"
            ["s_64290475"; "s_181379010"] docs.
Proof.
  assert (Hnd : NoDup ["s_64290475"; "s_181379010"])
    by (apply (bool_decide_unpack _); vm_compute; exact I).
  split; [exact Hnd|].
  assert (Hinit : init_repo root "demo" fresh_disk
                  = (Ok (repo_path root "demo"), snd (init_repo root "demo" fresh_disk))).
  { apply (run_eq (init_repo root "demo" fresh_disk)). vm_compute. reflexivity. }
  assert (H1 : first_save = (Ok "s_181379010", snd first_save)).
  { apply (run_eq first_save). vm_compute. reflexivity. }
  assert (H2 : second_save = (Ok "s_64290475", snd second_save)).
  { apply (run_eq second_save). vm_compute. reflexivity. }
  pose proof (reach_save root "demo" _ _ [] "first" hello_dir _ _
                (reach_save root "demo" _ _ [] "first" hello_dir _ _
                   (reach_init root "demo" _ _ _ Hinit) H1) H2) as Hreach.
  destruct (get_history_of_reachable root "demo" _ _ Hreach Hnd)
    as (docs & Hget & Hlen & _ & Hhist).
  exists docs. auto.
Defined.

(** *** A history that does not end *)

Lemma save_many_length n w : length (fst (save_many n w)) <= n.
Proof.
  induction n as [|n IH]; simpl; [lia|].
  destruct (save_snapshot _ _ _ _ _) as [[sid|e] w2]; simpl; lia.
Qed.

Lemma save_many_reachable n :
  forall w ids0,
    reachable root "demo" w ids0 ->
    length (fst (save_many n w)) = n ->
    reachable root "demo" (snd (save_many n w)) (fst (save_many n w) ++ ids0).
Proof.
  induction n as [|n IH]; intros w ids0 Hreach Hlen; simpl in *; [exact Hreach|].
  pose proof (save_many_length n w) as Hle.
  destruct (save_snapshot root "demo" "again" cycle_dir (with_faults [] (snd (save_many n w))))
    as [[sid|e] w2] eqn:E; simpl in *; [|lia].
  eapply reach_save; [|exact E].
  apply IH; [exact Hreach | lia].
Qed.

(** C6, as stated, fails: the thirty-second save of this directory gets
    the identifier of the fourteenth, whose snapshot file it overwrites;
    from then on the parents starting at [refs/main] form a cycle of
    eighteen snapshots and the loop of [get_history] does not end. *)
Lemma history_cycle_counterexample :
  reachable root "demo" cycle_world cycle_ids
  /\ length cycle_ids = 32
  /\ nth 0 cycle_ids "" = "s_2933439325"
  /\ nth 18 cycle_ids "" = "s_2933439325"
  /\ forall fuel, get_history root fuel "demo" cycle_world = None.
Proof.
  assert (Hlen : length (fst (save_many 32 demo0)) = 32) by (vm_compute; reflexivity).
  assert (Hinit : init_repo root "demo" fresh_disk
                  = (Ok (repo_path root "demo"), snd (init_repo root "demo" fresh_disk))).
  { apply (run_eq (init_repo root "demo" fresh_disk)). vm_compute. reflexivity. }
  split.
  { pose proof (save_many_reachable 32 demo0 []
                  (reach_init root "demo" fresh_disk _ _ Hinit) Hlen) as H.
    rewrite app_nil_r in H. exact H. }
  split; [exact Hlen|].
  split; [vm_compute; reflexivity|].
  split; [vm_compute; reflexivity|].
  apply (get_history_cycle root "demo" cycle_world (firstn 18 cycle_ids)).
  - vm_compute. reflexivity.
  - vm_compute. reflexivity.
Qed.

End SvcsFacts.

(** ** Client and server compute the same identifiers *)

Module ParityFacts.
Import Svcs FSSpec FSFacts SvcsSpec SvcsFacts ParitySpec.

Section Sorting.
Context {V : Type}.
Implicit Types (l : list (string * V)) (x y : string * V).

Lemma kle_total x y : kle x y \/ kle y x.
Proof. apply String.leb_total. Qed.

Lemma kle_trans x y z : kle x y -> kle y z -> kle x z.
Proof.
  unfold kle. intros H1 H2. apply Is_true_true.
  apply Is_true_true in H1, H2.
  exact (transitivity (R := String.le) H1 H2).
Qed.

Lemma kle_antisym x y : kle x y -> kle y x -> fst x = fst y.
Proof. unfold kle. intros H1 H2. apply String.leb_antisym; assumption. Qed.

Lemma insert_item_perm x l : Permutation (insert_item x l) (x :: l).
Proof.
  induction l as [|y l IH]; simpl; [reflexivity|].
  destruct (String.leb (fst x) (fst y)); [reflexivity|].
  rewrite IH. apply perm_swap.
Qed.

Lemma sort_items_perm l : Permutation (sort_items l) l.
Proof.
  induction l as [|x l IH]; simpl; [reflexivity|].
  change (sort_items (x :: l)) with (insert_item x (sort_items l)).
  rewrite insert_item_perm, IH. reflexivity.
Qed.

Lemma insert_item_sorted x l :
  StronglySorted kle l -> StronglySorted kle (insert_item x l).
Proof.
  induction 1 as [|y l Hs IH Hy]; simpl; [repeat constructor|].
  destruct (String.leb (fst x) (fst y)) eqn:E.
  - constructor; [constructor; assumption|].
    constructor; [exact E|].
    eapply List.Forall_impl; [|exact Hy]. intros z Hz. eapply kle_trans; [exact E | exact Hz].
  - constructor; [exact IH|].
    assert (Hyx : kle y x) by (destruct (kle_total x y) as [H|H]; [unfold kle in H; congruence | exact H]).
    rewrite List.Forall_forall. intros z Hz.
    apply (Permutation_in _ (insert_item_perm x l)) in Hz. destruct Hz as [<-|Hz]; [exact Hyx|].
    rewrite List.Forall_forall in Hy. apply Hy, Hz.
Qed.

Lemma sort_items_sorted l : StronglySorted kle (sort_items l).
Proof.
  induction l as [|x l IH]; [constructor|].
  change (sort_items (x :: l)) with (insert_item x (sort_items l)).
  apply insert_item_sorted, IH.
Qed.

(** Two orderings by key of the same items, whose keys are distinct, are
    the same list. *)
Lemma sorted_unique l1 :
  forall l2, StronglySorted kle l1 -> StronglySorted kle l2 ->
    Permutation l1 l2 -> NoDup (l1.*1) -> l1 = l2.
Proof.
  induction l1 as [|x l1 IH]; intros l2 S1 S2 Hp Hnd.
  - apply Permutation_nil in Hp. subst. reflexivity.
  - destruct l2 as [|y l2]; [apply Permutation_sym, Permutation_nil in Hp; discriminate|].
    apply StronglySorted_inv in S1 as [S1 Hx], S2 as [S2 Hy].
    apply NoDup_cons in Hnd as [Hk Hnd].
    assert (Hxy : x = y).
    { assert (Hin1 : In x (y :: l2)) by (apply (Permutation_in _ Hp); left; reflexivity).
      assert (Hin2 : In y (x :: l1)) by (apply (Permutation_in _ (Permutation_sym Hp)); left; reflexivity).
      destruct Hin1 as [->|Hin1]; [reflexivity|].
      destruct Hin2 as [->|Hin2]; [reflexivity|].
      rewrite List.Forall_forall in Hx, Hy.
      pose proof (kle_antisym _ _ (Hx _ Hin2) (Hy _ Hin1)) as Hkey.
      exfalso. apply Hk. rewrite Hkey. apply list_elem_of_fmap.
      exists y. split; [reflexivity | apply list_elem_of_In, Hin2]. }
    subst y. f_equal. apply IH; try assumption.
    apply (Permutation_cons_inv Hp).
Qed.

Lemma NoDup_keys_NoDup l : NoDup (l.*1) -> NoDup l.
Proof. apply NoDup_fmap_1. Qed.

(** [sorted(d.items())] depends on the bindings of the dict only, not on
    the order they were inserted in. *)
Lemma sort_items_same_bindings l1 l2 :
  NoDup (l1.*1) -> NoDup (l2.*1) ->
  (forall k, dict_get k l1 = dict_get k l2) ->
  sort_items l1 = sort_items l2.
Proof.
  intros N1 N2 Hget.
  assert (Hp : Permutation l1 l2).
  { apply NoDup_Permutation; [apply NoDup_keys_NoDup, N1 | apply NoDup_keys_NoDup, N2|].
    intros [k v]. split; intros H.
    - apply dict_get_elem. rewrite <- Hget.
      apply elem_dict_get; assumption.
    - apply dict_get_elem. rewrite Hget.
      apply elem_dict_get; assumption. }
  apply sorted_unique; [apply sort_items_sorted.. | |].
  - rewrite !sort_items_perm. exact Hp.
  - assert (Hk : (sort_items l1).*1 ≡ₚ l1.*1) by apply fmap_Permutation, sort_items_perm.
    rewrite Hk. exact N1.
Qed.

Lemma dict_set_keys k (v : V) l :
  (dict_set k v l).*1 = if dict_has k l then l.*1 else l.*1 ++ [k].
Proof.
  unfold dict_has. induction l as [|[k' v'] l IH]; [reflexivity|].
  cbn [dict_set dict_get]. destruct (String.eqb k k') eqn:E.
  - apply String.eqb_eq in E. subst. reflexivity.
  - rewrite !fmap_cons, IH. destruct (dict_get k l); reflexivity.
Qed.

Lemma dict_get_None_keys k l : dict_get k l = None -> k ∉ l.*1.
Proof.
  induction l as [|[k' v'] l IH]; simpl; intros H Hin; [inversion Hin|].
  destruct (String.eqb k k') eqn:E; [discriminate|]. apply String.eqb_neq in E.
  apply elem_of_cons in Hin as [Hin|Hin]; [contradiction | exact (IH H Hin)].
Qed.

Lemma dict_set_NoDup k (v : V) l : NoDup (l.*1) -> NoDup ((dict_set k v l).*1).
Proof.
  intros H. rewrite dict_set_keys. unfold dict_has.
  destruct (dict_get k l) eqn:E; [exact H|].
  apply NoDup_app. split; [exact H|]. split; [|apply NoDup_singleton].
  intros x Hx Hin. apply list_elem_of_singleton in Hin. subst x.
  exact (dict_get_None_keys _ _ E Hx).
Qed.

Lemma fold_dict_set_NoDup {A} (f : A -> string * V) (items : list A) :
  forall acc, NoDup (acc.*1) ->
    NoDup ((fold_left (fun d a => dict_set (fst (f a)) (snd (f a)) d) items acc).*1).
Proof.
  induction items as [|a items IH]; intros acc H; simpl; [exact H|].
  apply IH, dict_set_NoDup, H.
Qed.

(** Filling a dict from the items of another gives the same bindings. *)
Lemma fold_dict_set_get (items : list (string * V)) :
  NoDup (items.*1) ->
  forall acc k,
    dict_get k (fold_left (fun d a => dict_set (fst a) (snd a) d) items acc)
    = match dict_get k items with
      | Some v => Some v
      | None => dict_get k acc
      end.
Proof.
  induction items as [|[k0 v0] items IH]; intros Hnd acc k; simpl; [reflexivity|].
  apply NoDup_cons in Hnd as [Hk Hnd]. rewrite (IH Hnd).
  destruct (String.eqb k k0) eqn:E.
  - apply String.eqb_eq in E. subst k0.
    destruct (dict_get k items) as [v|] eqn:G.
    + exfalso. apply Hk. apply dict_get_elem in G.
      apply list_elem_of_fmap. exists (k, v). auto.
    + apply dict_get_set_eq.
  - apply String.eqb_neq in E. destruct (dict_get k items); [reflexivity|].
    apply dict_get_set_ne, E.
Qed.
End Sorting.

Lemma dict_get_map {A B} (f : A -> B) (k : string) (d : list (string * A)) :
  dict_get k (List.map (fun kv => (fst kv, f (snd kv))) d) = f <$> dict_get k d.
Proof.
  induction d as [|[k' v'] d IH]; simpl; [reflexivity|].
  destruct (String.eqb k k'); [reflexivity | exact IH].
Qed.

Lemma client_fold (index : list (string * string)) :
  forall acc,
    fold_left
      (fun entries ph =>
         dict_set (fst ph) (JDict [("type", JStr "blob"); ("id", JStr (snd ph))]) entries)
      index (List.map (fun kv => (fst kv, blob_entry (snd kv))) acc)
    = List.map (fun kv => (fst kv, blob_entry (snd kv)))
        (fold_left (fun d a => dict_set (fst a) (snd a) d) index acc).
Proof.
  induction index as [|a index IH]; intros acc; simpl; [reflexivity|].
  rewrite <- IH. f_equal. apply (dict_set_map blob_entry).
Qed.

Lemma client_entries (index : list (string * string)) :
  Cli._build_tree_object index
  = JDict [("entries", JDict (List.map (fun kv => (fst kv, blob_entry (snd kv))) (index_ids index)))].
Proof.
  unfold Cli._build_tree_object, index_ids. rewrite <- client_fold. reflexivity.
Qed.

Lemma entries_dumps (ids : list (string * string)) :
  Json.dumps true (JDict [("entries", JDict (List.map (fun kv => (fst kv, blob_entry (snd kv))) ids))])
  = "{" +:+ Json.quote "entries" +:+ ": "
    +:+ ("{" +:+ Py.join ", "
           (List.map Json.item_text
              (List.map (fun kv => (fst kv, Json.dumps true (blob_entry (snd kv))))
                 (sort_items ids))) +:+ "}") +:+ "}".
Proof.
  change (Json.dumps true (JDict [("entries", JDict (List.map (fun kv => (fst kv, blob_entry (snd kv))) ids))]))
    with ("{" +:+ Json.quote "entries" +:+ ": "
          +:+ ("{" +:+ Py.join ", "
                 (List.map Json.item_text
                    (sort_items (List.map (fun kv => (fst kv, Json.dumps true (snd kv)))
                                   (List.map (fun kv => (fst kv, blob_entry (snd kv))) ids))))
               +:+ "}") +:+ "}").
  rewrite List.map_map. cbn [fst snd].
  rewrite (sort_items_map (fun id => Json.dumps true (blob_entry id))). reflexivity.
Qed.

(** Trees with the same bindings have the same identifier. *)
Lemma same_tree_same_id (index : list (string * string)) (wd : wnode) :
  NoDup (index.*1) ->
  (forall path, dict_get path index = dict_get path (blob_ids wd)) ->
  Cli._store_object (Cli._build_tree_object index) = tree_id_of wd.
Proof.
  intros Hnd Hsame. unfold Cli._store_object, tree_id_of, tree_hash. do 2 f_equal.
  rewrite client_entries. unfold tree_of. rewrite tree_entries_blob_ids, !entries_dumps.
  rewrite (sort_items_same_bindings (index_ids index) (blob_ids wd)); [reflexivity|..].
  - apply (fold_dict_set_NoDup (fun a => a)). constructor.
  - apply (fold_dict_set_NoDup (fun f => (fst f, _hash_content (snd f)))). constructor.
  - intros k. unfold index_ids. rewrite (fold_dict_set_get index Hnd). simpl.
    rewrite Hsame. destruct (dict_get k (blob_ids wd)); reflexivity.
Qed.

(** The parent [commit] uses is the text of the ref, stripped; a missing
    ref and an empty one count as no parent. *)
Lemma read_parent_strip (ref_contents : option string) (parent : string) :
  match ref_contents with
  | Some text => Py.strip text = parent
  | None => parent = ""
  end ->
  default "" (Cli.read_parent ref_contents) = parent.
Proof.
  unfold Cli.read_parent. destruct ref_contents as [text|]; [|intros ->; reflexivity].
  intros <-. destruct (String.eqb (Py.strip text) "") eqn:E; [|reflexivity].
  apply String.eqb_eq in E. rewrite E. reflexivity.
Qed.

Section Parity.
Variable R : path.

(** C4.  When the index of the client binds the paths of the tree the
    server builds from a working directory to the same blob ids, and the
    ref of the client holds the parent that [refs/main] holds on the server
    (a text that strips to it, or no ref at all when there is no parent),
    [commit] computes the tree identifier and the snapshot identifier
    [save_snapshot] assigns: ["s_"] and the first eight hexadecimal digits
    of the SHA-256 of the tree identifier followed by the parent, in
    decimal. *)
Theorem client_server_snapshot_id_parity repo msg wd w sid w'
    (index : list (string * string)) (ref_contents : option string) (parent : string) :
  save_snapshot R repo msg wd w = (Ok sid, w') ->
  NoDup (index.*1) -> index <> [] ->
  (forall path, dict_get path index = dict_get path (blob_ids wd)) ->
  parent_of_ref (files w !! ref_path R repo) = Some parent ->
  match ref_contents with
  | Some text => Py.strip text = parent
  | None => parent = ""
  end ->
  Cli.commit index ref_contents = Some (sid, tree_id_of wd)
  /\ snapshot_id_of (tree_id_of wd) parent = Some sid
  /\ files w' !! ref_path R repo = Some (Data (Py.encode sid)).
Proof.
  intros Hsave Hnd Hne Hsame Hparent Hclient.
  apply save_snapshot_ok in Hsave as (par & Hpar & Hsid & Href & _).
  rewrite Hparent in Hpar. injection Hpar as <-.
  split; [|split; [exact Hsid | exact Href]].
  unfold Cli.commit. destruct index as [|a index]; [contradiction|].
  rewrite (same_tree_same_id _ wd Hnd Hsame), (read_parent_strip _ _ Hclient).
  unfold snapshot_id_of in Hsid.
  destruct (Py.int16 _) as [n|]; [|discriminate].
  injection Hsid as <-. reflexivity.
Qed.
End Parity.

Lemma client_server_snapshot_id_parity_witness :
  Cli.commit [("notes.txt", _hash_content (Py.encode "todo"));
              ("hello.txt", _hash_content (Py.encode ("hello" +:+ Py.nl)))]
    (Some "s_181379010")
  = Some ("s_2747986177", tree_id_of DiffSpec.edited_dir)
  /\ fst DiffSpec.edited_save = Ok "s_2747986177"
  /\ Cli.commit [("hello.txt", hello_blob_id)] None = Some ("s_181379010", hello_tree_id)
  /\ fst first_save = Ok "s_181379010".
Proof.
  assert (Hrun : fst first_save = Ok "s_181379010") by (vm_compute; reflexivity).
  assert (Hrun2 : fst DiffSpec.edited_save = Ok "s_2747986177") by (vm_compute; reflexivity).
  split; [|split; [exact Hrun2|split; [|exact Hrun]]].
  - apply (client_server_snapshot_id_parity root "demo" "second" DiffSpec.edited_dir
             (with_faults [] (snd first_save)) "s_2747986177" (snd DiffSpec.edited_save)
             [("notes.txt", _hash_content (Py.encode "todo"));
              ("hello.txt", _hash_content (Py.encode ("hello" +:+ Py.nl)))]
             (Some "s_181379010") "s_181379010").
    + apply (run_eq DiffSpec.edited_save), Hrun2.
    + apply (bool_decide_unpack _). vm_compute. exact I.
    + discriminate.
    + intros path. unfold blob_ids. cbn [walk DiffSpec.edited_dir flat_map snd fst app rel_file
                                          fold_left dict_set dict_get].
      change ("notes.txt" =? "hello.txt") with false. cbn [dict_get].
      destruct (String.eqb path "notes.txt") eqn:E1, (String.eqb path "hello.txt") eqn:E2;
        try reflexivity.
      apply String.eqb_eq in E1, E2. congruence.
    + vm_compute. reflexivity.
    + vm_compute. reflexivity.
  - replace hello_tree_id with (tree_id_of hello_dir) by (vm_compute; reflexivity).
    apply (client_server_snapshot_id_parity root "demo" "first" hello_dir (with_faults [] demo0)
             "s_181379010" (snd first_save) [("hello.txt", hello_blob_id)] None "").
    + apply (run_eq first_save), Hrun.
    + apply NoDup_singleton.
    + discriminate.
    + intros path. vm_compute. reflexivity.
    + vm_compute. reflexivity.
    + reflexivity.
Defined.

End ParityFacts.

(* ===================================================================== *)
(** * Properties of the rest of the session core *)
(* ===================================================================== *)

(** ** Dictionaries and their sublists *)

Section StoreFacts.
Context {V : Type}.
Implicit Types (d l : list (string * V)) (k : string) (v : V).

Lemma dict_get_None_keys_iff k l : dict_get k l = None <-> k ∉ l.*1.
Proof.
  induction l as [|[k' v'] l IH]; simpl.
  - split; [intros _ H; inversion H | reflexivity].
  - destruct (String.eqb k k') eqn:E.
    + apply String.eqb_eq in E. subst k'. split; [discriminate|].
      intros H. exfalso. apply H. left.
    + apply String.eqb_neq in E. rewrite IH, not_elem_of_cons. tauto.
Qed.

Lemma dict_del_absent k l : dict_get k l = None -> dict_del k l = l.
Proof.
  induction l as [|[k' v'] l IH]; simpl; [reflexivity|].
  destruct (String.eqb k k'); [discriminate|]. intros H. rewrite IH by exact H. reflexivity.
Qed.

Lemma sublist_dict_get_None k l l' :
  l' `sublist_of` l -> dict_get k l = None -> dict_get k l' = None.
Proof.
  intros Hs. rewrite !dict_get_None_keys_iff. intros Hk Hin. apply Hk.
  eapply elem_of_sublist; [exact Hin|]. apply fmap_sublist, Hs.
Qed.

Lemma sublist_dict_get_Some k v l l' :
  NoDup (l.*1) -> l' `sublist_of` l -> dict_get k l' = Some v -> dict_get k l = Some v.
Proof.
  intros Hnd Hs H. apply elem_dict_get; [exact Hnd|].
  eapply elem_of_sublist; [|exact Hs]. apply dict_get_elem, H.
Qed.

(** Deleting the keys of the items that satisfy [P] leaves the others. *)
Lemma del_keys_filter (P : string * V -> bool) :
  forall rest front,
    NoDup ((front ++ rest).*1) ->
    fold_left (fun acc key => dict_del key acc) (List.map fst (List.filter P rest))
      (front ++ rest)
    = front ++ List.filter (fun item => negb (P item)) rest.
Proof.
  induction rest as [|[k v] rest IH]; intros front Hnd; simpl; [reflexivity|].
  assert (Hk : dict_get k front = None).
  { apply dict_get_None_keys_iff. rewrite fmap_app in Hnd. simpl in Hnd.
    apply NoDup_app in Hnd as (_ & Hd & _). intros Hin. apply (Hd k Hin). left. }
  assert (Hk' : dict_get k rest = None).
  { apply dict_get_None_keys_iff. rewrite fmap_app in Hnd. simpl in Hnd.
    apply NoDup_app in Hnd as (_ & _ & Hd). apply NoDup_cons in Hd as [Hd _]. exact Hd. }
  destruct (P (k, v)) eqn:EP; simpl.
  - assert (Hdel : dict_del k (front ++ (k, v) :: rest) = front ++ rest).
    { clear IH Hnd EP. induction front as [|[k2 v2] front IHf]; simpl.
      - rewrite String.eqb_refl. apply dict_del_absent, Hk'.
      - simpl in Hk. destruct (String.eqb k k2); [discriminate|].
        rewrite IHf by exact Hk. reflexivity. }
    rewrite Hdel. apply IH.
    rewrite fmap_app in *. simpl in Hnd. apply NoDup_app in Hnd as (H1 & H2 & H3).
    apply NoDup_cons in H3 as [_ H3]. apply NoDup_app. split; [exact H1|]. split; [|exact H3].
    intros x Hx Hin. apply (H2 x Hx). right. exact Hin.
  - change (front ++ (k, v) :: rest) with (front ++ [(k, v)] ++ rest).
    rewrite app_assoc. rewrite IH; [rewrite <- app_assoc; reflexivity|].
    rewrite <- app_assoc. exact Hnd.
Qed.

Lemma dict_get_filter (P : string * V -> bool) k v l :
  NoDup (l.*1) -> dict_get k l = Some v ->
  dict_get k (List.filter P l) = if P (k, v) then Some v else None.
Proof.
  induction l as [|[k' v'] l IH]; simpl; [discriminate|]. intros Hnd.
  apply NoDup_cons in Hnd as [Hk Hnd].
  destruct (String.eqb k k') eqn:E.
  - apply String.eqb_eq in E. subst k'. intros [= ->].
    destruct (P (k, v)); simpl.
    + rewrite String.eqb_refl. reflexivity.
    + apply dict_get_None_keys_iff. intros Hin. apply Hk.
      apply list_elem_of_fmap in Hin as (x & -> & Hx).
      apply list_elem_of_fmap. exists x. split; [reflexivity|].
      apply list_elem_of_In in Hx. apply filter_In in Hx as [Hx _].
      apply list_elem_of_In, Hx.
  - intros H. destruct (P (k', v')); simpl; [rewrite E|]; apply IH; assumption.
Qed.

Lemma dict_update_get d e k :
  NoDup (e.*1) ->
  dict_get k (dict_update d e) = match dict_get k e with Some v => Some v | None => dict_get k d end.
Proof.
  unfold dict_update. revert d. induction e as [|[k' v'] e IH]; intros d Hnd; [reflexivity|].
  rewrite fmap_cons in Hnd. apply NoDup_cons in Hnd as [Hk Hnd]. cbn [fst] in Hk.
  cbn [fold_left fst snd dict_get]. rewrite IH by exact Hnd.
  destruct (String.eqb k k') eqn:E.
  - apply String.eqb_eq in E. subst k'.
    apply dict_get_None_keys_iff in Hk. rewrite Hk. apply dict_get_set_eq.
  - apply String.eqb_neq in E. destruct (dict_get k e); [reflexivity|].
    apply dict_get_set_ne, E.
Qed.
End StoreFacts.

(** ** Refresh tokens: rotation, revocation, accounting *)

Module RefreshTokenFacts.
Import TokenManager RefreshTokenManager RecursionLimit TokenSpec TimeSpec TokenFamily
  TokenManagerFacts.

Implicit Types (s cur : store) (h k : string) (d : token_data).

(** What a successful rotation found and what it leaves. *)
Lemma rotation_success tok fp now fresh s u new s' :
  validate_and_rotate tok fp now fresh s = (Some (u, new), s') ->
  exists data,
    dict_get (hash_token tok) s = Some data
    /\ used data = false
    /\ (expires_at data <? now)%Z = false
    /\ u = username data /\ new = fresh
    /\ dict_get (hash_token fresh) s'
       = Some {| username := username data;
                 fingerprint := if truthy fp then fp else fingerprint data;
                 created_at := now; expires_at := (now + 7 * day)%Z;
                 used := false; rotated_to := None |}
    /\ (hash_token fresh <> hash_token tok ->
        dict_get (hash_token tok) s'
        = Some (set_rotated_to (hash_token fresh) (set_used data)))
    /\ s' = (let tokens2 :=
               dict_set (hash_token fresh)
                 {| username := username data;
                    fingerprint := if truthy fp then fp else fingerprint data;
                    created_at := now; expires_at := (now + 7 * day)%Z;
                    used := false; rotated_to := None |}
                 (dict_set (hash_token tok) (set_used data) s) in
             if String.eqb (hash_token fresh) (hash_token tok) then tokens2
             else dict_set (hash_token tok)
                    (set_rotated_to (hash_token fresh) (set_used data)) tokens2).
Proof.
  unfold validate_and_rotate.
  destruct (dict_get (hash_token tok) s) as [data|] eqn:Hd; [|discriminate].
  destruct (used data) eqn:Hu; [discriminate|].
  destruct (expires_at data <? now)%Z eqn:He; [discriminate|].
  destruct (truthy fp && truthy (fingerprint data)
            && negb (bool_decide (fingerprint data = fp))); [discriminate|].
  unfold generate_refresh_token. cbv zeta.
  intros H. exists data.
  assert (Hu' : u = username data /\ new = fresh).
  { destruct (String.eqb (hash_token fresh) (hash_token tok)); injection H as <- <- _; auto. }
  destruct Hu' as [-> ->].
  split; [reflexivity|]. split; [exact Hu|]. split; [exact He|].
  split; [reflexivity|]. split; [reflexivity|].
  destruct (String.eqb (hash_token fresh) (hash_token tok)) eqn:E; injection H as <-.
  - split; [apply dict_get_set_eq|]. split; [|reflexivity].
    apply String.eqb_eq in E. congruence.
  - apply String.eqb_neq in E. split; [|split; [|reflexivity]].
    + rewrite dict_get_set_ne by exact E. apply dict_get_set_eq.
    + intros _. apply dict_get_set_eq.
Qed.

(** A call that returns under the recursion limit returns what
    [validate_and_rotate] computes, and a store smaller than the depth left
    is enough for it to return. *)
Lemma invalidate_within_returns depth h s s' :
  _invalidate_token_family_within depth h s = Some s' -> s' = _invalidate_token_family h s.
Proof.
  unfold _invalidate_token_family_within. revert h s s'.
  assert (Hmono : forall fuel h s s', invalidate_fuel fuel h s = Some s' ->
                    forall fuel', fuel <= fuel' -> invalidate_fuel fuel' h s = Some s').
  { induction fuel as [|fuel IH]; intros h s s' H fuel' Hle; [discriminate|].
    destruct fuel' as [|fuel']; [lia|]. rewrite invalidate_fuel_S in H |- *.
    revert H. generalize (Some (after_delete h s)) as acc.
    induction (after_delete h s) as [|it items IHi]; intros acc H; [exact H|].
    simpl in H |- *. apply IHi.
    destruct acc as [cur|]; [|rewrite fold_visit_None in H; discriminate].
    simpl in H |- *. destruct (opt_eqb (rotated_to (snd it)) h); [|exact H].
    destruct (invalidate_fuel fuel (fst it) cur) as [cur'|] eqn:E;
      [|rewrite fold_visit_None in H; discriminate].
    rewrite (IH _ _ _ E fuel') by lia. exact H. }
  intros h s s' H.
  pose proof (_invalidate_token_family_eq h s) as E.
  destruct (Nat.le_ge_cases depth (S (length s))) as [Hle|Hge].
  - rewrite (Hmono _ _ _ _ H _ Hle) in E. injection E as ->. reflexivity.
  - rewrite (Hmono _ _ _ _ E _ Hge) in H. injection H as ->. reflexivity.
Qed.

Lemma invalidate_within_total depth h s :
  length s < depth -> is_Some (_invalidate_token_family_within depth h s).
Proof.
  intros Hlen. apply invalidate_fuel_total.
  pose proof (sublist_length _ _ (after_delete_sublist h s)). lia.
Qed.

Lemma validate_within_returns depth tok fp now fresh s r :
  validate_and_rotate_within depth tok fp now fresh s = Some r ->
  r = validate_and_rotate tok fp now fresh s.
Proof.
  unfold validate_and_rotate_within, validate_and_rotate.
  destruct (dict_get (hash_token tok) s) as [data|]; [|intros [= <-]; reflexivity].
  destruct (used data).
  { destruct (_invalidate_token_family_within depth (hash_token tok) s) as [s'|] eqn:E;
      [|discriminate].
    apply invalidate_within_returns in E. intros [= <-]. rewrite E. reflexivity. }
  destruct (expires_at data <? now)%Z; [intros [= <-]; reflexivity|].
  destruct (truthy fp && truthy (fingerprint data)
            && negb (bool_decide (fingerprint data = fp))).
  { destruct (_invalidate_token_family_within depth (hash_token tok) s) as [s'|] eqn:E;
      [|discriminate].
    apply invalidate_within_returns in E. intros [= <-]. rewrite E. reflexivity. }
  intros [= <-]. reflexivity.
Qed.

Lemma validate_within_total depth tok fp now fresh s :
  length s < depth ->
  validate_and_rotate_within depth tok fp now fresh s
  = Some (validate_and_rotate tok fp now fresh s).
Proof.
  intros Hlen.
  destruct (validate_and_rotate_within depth tok fp now fresh s) as [r|] eqn:E.
  - apply validate_within_returns in E. rewrite E. reflexivity.
  - exfalso. unfold validate_and_rotate_within in E.
    destruct (invalidate_within_total depth (hash_token tok) s Hlen) as [s' Es].
    rewrite Es in E.
    destruct (dict_get (hash_token tok) s) as [data|]; [|discriminate].
    destruct (used data); [discriminate|].
    destruct (expires_at data <? now)%Z; [discriminate|].
    destruct (truthy fp && truthy (fingerprint data)
              && negb (bool_decide (fingerprint data = fp))); [discriminate|].
    unfold generate_refresh_token in E. discriminate.
Qed.

(** X1.  A refresh token that has been rotated is never accepted again,
    whatever the fingerprint and the time (the token drawn for the successor
    being another one than the token rotated): a call that presents it and
    returns, refuses it, and the call returns when the store has fewer
    records than the depth of recursion left; beyond that depth
    [_invalidate_token_family] may raise [RecursionError] instead. *)
Theorem rotated_token_is_refused depth tok fp now fresh s u new s' depth' fp' now' fresh' :
  validate_and_rotate_within depth tok fp now fresh s = Some (Some (u, new), s') ->
  hash_token fresh <> hash_token tok ->
  (forall r, validate_and_rotate_within depth' tok fp' now' fresh' s' = Some r -> fst r = None)
  /\ (length s' < depth' ->
      exists s'', validate_and_rotate_within depth' tok fp' now' fresh' s' = Some (None, s'')).
Proof.
  intros H Hne. apply validate_within_returns in H. symmetry in H.
  apply rotation_success in H as (data & _ & _ & _ & _ & _ & _ & Hold & _).
  assert (Hrefused : fst (validate_and_rotate tok fp' now' fresh' s') = None).
  { unfold validate_and_rotate. rewrite (Hold Hne). reflexivity. }
  split.
  - intros r Hr. apply validate_within_returns in Hr. rewrite Hr. exact Hrefused.
  - intros Hlen. rewrite (validate_within_total _ _ _ _ _ _ Hlen).
    destruct (validate_and_rotate tok fp' now' fresh' s') as [res s''].
    simpl in Hrefused. subst res. eauto.
Qed.

Lemma rotated_token_is_refused_witness :
  hash_token "R2" <> hash_token "R1"
  /\ length rotated < 900
  /\ exists s'', validate_and_rotate_within 900 "R1" (Some "fp") 20 "R3" rotated = Some (None, s'').
Proof.
  assert (Hne : hash_token "R2" <> hash_token "R1") by (vm_compute; discriminate).
  assert (Hlen : length rotated < 900) by (vm_compute; lia).
  split; [exact Hne|]. split; [exact Hlen|].
  apply (rotated_token_is_refused 900 "R1" (Some "fp") 10 "R2" issued "admin" "R2" rotated
           900 (Some "fp") 20 "R3"); [|exact Hne | exact Hlen].
  vm_compute. reflexivity.
Defined.

(** X2.  The token a rotation returns is the one drawn, and it is valid:
    presented with the same fingerprint within seven days, it is rotated in
    turn, for the same user. *)
Theorem rotation_returns_valid_token tok fp now fresh s u new s' now' fresh' :
  validate_and_rotate tok fp now fresh s = (Some (u, new), s') ->
  (now' <= now + 7 * day)%Z ->
  new = fresh
  /\ fst (validate_and_rotate new fp now' fresh' s') = Some (u, fresh').
Proof.
  intros H Hnow. apply rotation_success in H as (data & _ & _ & _ & -> & -> & Hnew & _).
  split; [reflexivity|].
  unfold validate_and_rotate. rewrite Hnew. cbn [used expires_at fingerprint username].
  replace (now + 7 * day <? now')%Z with false by (symmetry; apply Z.ltb_ge; exact Hnow).
  assert (Hfp : truthy fp && truthy (if truthy fp then fp else fingerprint data)
                && negb (bool_decide ((if truthy fp then fp else fingerprint data) = fp))
                = false).
  { destruct (truthy fp) eqn:Et; [|reflexivity].
    rewrite bool_decide_eq_true_2 by reflexivity. rewrite andb_false_r. reflexivity. }
  rewrite Hfp. unfold generate_refresh_token. cbv zeta.
  destruct (String.eqb _ _); reflexivity.
Qed.

Lemma rotation_returns_valid_token_witness :
  (30 <= 10 + 7 * day)%Z
  /\ fst (validate_and_rotate "R2" (Some "fp") 30 "R3" rotated) = Some ("admin", "R3").
Proof.
  assert (Hle : (30 <= 10 + 7 * day)%Z) by (vm_compute; discriminate).
  split; [exact Hle|].
  apply (rotation_returns_valid_token "R1" (Some "fp") 10 "R2" issued "admin" "R2" rotated 30 "R3");
    [|exact Hle].
  vm_compute. reflexivity.
Defined.

Lemma _invalidate_token_family_sublist h s : _invalidate_token_family h s `sublist_of` s.
Proof.
  apply (invalidate_fuel_sublist (S (length s)) h s), _invalidate_token_family_eq.
Qed.

Lemma fold_visit_sublist fuel h :
  forall items cur s',
    fold_left (visit fuel h) items (Some cur) = Some s' -> s' `sublist_of` cur.
Proof.
  induction items as [|it items IHi]; simpl; intros cur s' H.
  - injection H as ->. reflexivity.
  - destruct (opt_eqb (rotated_to (snd it)) h).
    + destruct (invalidate_fuel fuel (fst it) cur) as [cur'|] eqn:E';
        [|rewrite fold_visit_None in H; discriminate].
      etrans; [apply (IHi _ _ H) | apply (invalidate_fuel_sublist _ _ _ _ E')].
    + apply IHi, H.
Qed.

Lemma after_delete_removes h s : dict_get h (after_delete h s) = None.
Proof.
  unfold after_delete, dict_has. destruct (dict_get h s) eqn:Eh; [apply dict_get_del_eq | exact Eh].
Qed.

Lemma _invalidate_token_family_removes h s : dict_get h (_invalidate_token_family h s) = None.
Proof.
  pose proof (_invalidate_token_family_eq h s) as E. rewrite invalidate_fuel_S in E.
  apply (sublist_dict_get_None h (after_delete h s));
    [apply (fold_visit_sublist _ _ _ _ _ E) | apply after_delete_removes].
Qed.

(** X3.  A token that [validate_and_rotate] refuses is not in the store
    afterwards, so that it is refused from then on, with any fingerprint and
    at any time, and the store stays as it is. *)
Theorem refused_token_stays_refused tok fp now fresh s fp' now' fresh' :
  fst (validate_and_rotate tok fp now fresh s) = None ->
  dict_get (hash_token tok) (snd (validate_and_rotate tok fp now fresh s)) = None
  /\ validate_and_rotate tok fp' now' fresh' (snd (validate_and_rotate tok fp now fresh s))
     = (None, snd (validate_and_rotate tok fp now fresh s)).
Proof.
  intros H.
  assert (Hgone : dict_get (hash_token tok) (snd (validate_and_rotate tok fp now fresh s)) = None).
  { revert H. unfold validate_and_rotate.
    destruct (dict_get (hash_token tok) s) as [data|] eqn:Hd; [|intros _; exact Hd].
    destruct (used data); [intros _; apply _invalidate_token_family_removes|].
    destruct (expires_at data <? now)%Z; [intros _; apply dict_get_del_eq|].
    destruct (truthy fp && truthy (fingerprint data)
              && negb (bool_decide (fingerprint data = fp)));
      [intros _; apply _invalidate_token_family_removes|].
    unfold generate_refresh_token. cbv zeta.
    destruct (String.eqb _ _); discriminate. }
  split; [exact Hgone|].
  unfold validate_and_rotate at 1. rewrite Hgone. reflexivity.
Qed.

Lemma refused_token_stays_refused_witness :
  fst (validate_and_rotate "R1" (Some "other") 5 "R2" issued) = None
  /\ validate_and_rotate "R1" (Some "fp") 6 "R2"
       (snd (validate_and_rotate "R1" (Some "other") 5 "R2" issued))
     = (None, snd (validate_and_rotate "R1" (Some "other") 5 "R2" issued)).
Proof.
  assert (H : fst (validate_and_rotate "R1" (Some "other") 5 "R2" issued) = None)
    by (vm_compute; reflexivity).
  split; [exact H|].
  apply (refused_token_stays_refused "R1" (Some "other") 5 "R2" issued (Some "fp") 6 "R2" H).
Defined.

Lemma opt_eqb_true (o : option string) h : opt_eqb o h = true <-> o = Some h.
Proof.
  destruct o as [t|]; simpl; [|split; discriminate].
  rewrite String.eqb_eq. split; [intros ->; reflexivity | intros [= ->]; reflexivity].
Qed.

(** What one call of the walk removes: the record it starts from, and
    every record whose [rotated_to] is the starting point or a record
    removed by the call. *)
Lemma invalidate_fuel_closed fuel :
  forall h s s', NoDup (s.*1) -> invalidate_fuel fuel h s = Some s' ->
    dict_get h s' = None
    /\ forall k d m, dict_get k s = Some d -> rotated_to d = Some m ->
         m = h \/ (is_Some (dict_get m s) /\ dict_get m s' = None) ->
         dict_get k s' = None.
Proof.
  induction fuel as [|fuel IH]; intros h s s' Hnd; [discriminate|].
  rewrite invalidate_fuel_S. set (s1 := after_delete h s). intros H.
  assert (Hnd1 : NoDup (s1.*1))
    by (apply (sublist_keys_NoDup s); [apply after_delete_sublist | exact Hnd]).
  assert (Hh1 : dict_get h s1 = None) by apply after_delete_removes.
  assert (Hs1 : forall k, k <> h -> dict_get k s1 = dict_get k s).
  { intros k Hk. unfold s1, after_delete. destruct (dict_has h s); [|reflexivity].
    apply dict_get_del_ne, Hk. }
  assert (Hfold : forall items cur,
             NoDup (cur.*1) ->
             fold_left (visit fuel h) items (Some cur) = Some s' ->
             s' `sublist_of` cur
             /\ (forall k d, (k, d) ∈ items -> rotated_to d = Some h -> dict_get k s' = None)
             /\ (forall k d m, dict_get k cur = Some d -> rotated_to d = Some m ->
                   is_Some (dict_get m cur) -> dict_get m s' = None -> dict_get k s' = None)).
  { induction items as [|[th data] items IHi]; simpl; intros cur Hndc Hf.
    - injection Hf as <-. split; [reflexivity|]. split.
      + intros k d Hin. inversion Hin.
      + intros k d m _ _ [x Hx] Hm. congruence.
    - destruct (opt_eqb (rotated_to data) h) eqn:Er.
      + destruct (invalidate_fuel fuel th cur) as [cur1|] eqn:E;
          [|rewrite fold_visit_None in Hf; discriminate].
        pose proof (invalidate_fuel_sublist _ _ _ _ E) as Hsub1.
        assert (Hndc1 : NoDup (cur1.*1)) by (apply (sublist_keys_NoDup cur); assumption).
        destruct (IH th cur cur1 Hndc E) as [P2 P3].
        destruct (IHi cur1 Hndc1 Hf) as (Ha & Hb & Hc).
        split; [etrans; eassumption|]. split.
        * intros k d Hin Hrot. apply elem_of_cons in Hin as [[= -> ->]|Hin].
          -- apply (sublist_dict_get_None _ cur1); assumption.
          -- apply (Hb k d Hin Hrot).
        * intros k d m Hk Hrot Hm Hm'.
          destruct (dict_get m cur1) as [dm|] eqn:Em1.
          -- destruct (dict_get k cur1) as [d'|] eqn:Ek1;
               [|apply (sublist_dict_get_None _ cur1); assumption].
             assert (d' = d).
             { pose proof (sublist_dict_get_Some _ _ _ _ Hndc Hsub1 Ek1). congruence. }
             subst d'. apply (Hc k d m Ek1 Hrot); [eauto | exact Hm'].
          -- apply (sublist_dict_get_None _ cur1); [exact Ha|].
             apply (P3 k d m Hk Hrot). right. split; [exact Hm | exact Em1].
      + destruct (IHi cur Hndc Hf) as (Ha & Hb & Hc).
        split; [exact Ha|]. split; [|exact Hc].
        intros k d Hin Hrot. apply elem_of_cons in Hin as [[= -> ->]|Hin].
        * apply opt_eqb_true in Hrot. congruence.
        * apply (Hb k d Hin Hrot). }
  destruct (Hfold s1 s1 Hnd1 H) as (Ha & Hb & Hc).
  assert (P2 : dict_get h s' = None) by (apply (sublist_dict_get_None _ s1); assumption).
  split; [exact P2|].
  intros k d m Hk Hrot Hm.
  destruct (String.eqb k h) eqn:Ekh; [apply String.eqb_eq in Ekh; subst k; exact P2|].
  apply String.eqb_neq in Ekh.
  assert (Hk1 : dict_get k s1 = Some d) by (rewrite Hs1; assumption).
  destruct (String.eqb m h) eqn:Emh.
  - apply String.eqb_eq in Emh. subst m. apply (Hb k d); [apply dict_get_elem, Hk1 | exact Hrot].
  - apply String.eqb_neq in Emh. destruct Hm as [->|[Hm Hm']]; [contradiction|].
    apply (Hc k d m Hk1 Hrot); [rewrite Hs1; assumption | exact Hm'].
Qed.

(** X4.  A call of [_invalidate_token_family] that returns has only removed
    records, and it has removed the record of the given token with every
    record from which the given token is reached along [rotated_to]: its
    predecessors, and theirs.  The call returns when the store has fewer
    records than the depth of recursion left; beyond that depth it may
    raise [RecursionError] and leave records of the family in the store. *)
Theorem invalidation_removes_predecessors depth h s :
  NoDup (s.*1) ->
  (forall s', _invalidate_token_family_within depth h s = Some s' ->
     s' `sublist_of` s
     /\ dict_get h s' = None
     /\ forall k, rotates_into s k h -> dict_get k s' = None)
  /\ (length s < depth -> is_Some (_invalidate_token_family_within depth h s)).
Proof.
  intros Hnd. split; [|apply invalidate_within_total].
  unfold _invalidate_token_family_within. intros s' H.
  split; [apply (invalidate_fuel_sublist _ _ _ _ H)|].
  destruct (invalidate_fuel_closed _ _ _ _ Hnd H) as [P2 P3].
  split; [exact P2|].
  intros k Hk. induction Hk as [k d h Hk Hrot | k d m h Hk Hrot Hm IHm].
  - apply (P3 k d h Hk Hrot). left. reflexivity.
  - apply (P3 k d m Hk Hrot). right. split; [|apply IHm; assumption].
    destruct Hm; eauto.
Qed.

Lemma invalidation_removes_predecessors_witness :
  NoDup (rotated.*1)
  /\ exists s', _invalidate_token_family_within 900 (hash_token "R2") rotated = Some s'
                /\ dict_get (hash_token "R1") s' = None
                /\ dict_get (hash_token "R2") s' = None.
Proof.
  assert (Hnd : NoDup (rotated.*1)).
  { apply (bool_decide_unpack _). vm_compute. exact I. }
  split; [exact Hnd|].
  destruct (invalidation_removes_predecessors 900 (hash_token "R2") rotated Hnd) as [Hret Htot].
  destruct Htot as [s' Hs']; [vm_compute; lia|].
  destruct (Hret s' Hs') as (_ & H2 & H1).
  exists s'. split; [exact Hs'|]. split; [|exact H2].
  apply H1. eapply rotates_now; vm_compute; reflexivity.
Defined.

(** X5.  [revoke_all_user_tokens] removes the records of the user and no
    other, and returns their number; the user then has no active token. *)
Theorem revoke_all_user_tokens_removes_user user s :
  NoDup (s.*1) ->
  snd (revoke_all_user_tokens user s)
  = List.filter (fun item => negb (String.eqb (username (snd item)) user)) s
  /\ fst (revoke_all_user_tokens user s)
     = length (List.filter (fun item => String.eqb (username (snd item)) user) s)
  /\ get_user_token_count user (snd (revoke_all_user_tokens user s)) = 0
  /\ (forall k d, dict_get k s = Some d -> username d <> user ->
        dict_get k (snd (revoke_all_user_tokens user s)) = Some d)
  /\ (forall k d, dict_get k (snd (revoke_all_user_tokens user s)) = Some d ->
        username d <> user).
Proof.
  intros Hnd.
  set (P := fun item : string * token_data => String.eqb (username (snd item)) user).
  assert (Hrun : forall items n acc,
             fold_left (fun st item => if P item then (S (fst st), dict_del (fst item) (snd st))
                                       else st) items (n, acc)
             = (n + length (List.filter P items),
                fold_left (fun (acc : store) key => dict_del key acc)
                  (List.map fst (List.filter P items)) acc)).
  { induction items as [|it items IHi]; intros n acc; simpl.
    - rewrite Nat.add_0_r. reflexivity.
    - destruct (P it); simpl; rewrite IHi; [f_equal; lia | reflexivity]. }
  assert (Hsnd : snd (revoke_all_user_tokens user s) = List.filter (fun item => negb (P item)) s).
  { unfold revoke_all_user_tokens. fold P. rewrite Hrun. simpl.
    apply (del_keys_filter P s []). exact Hnd. }
  split; [exact Hsnd|].
  split; [unfold revoke_all_user_tokens; fold P; rewrite Hrun; reflexivity|].
  rewrite Hsnd. split; [|split].
  - unfold get_user_token_count.
    replace (List.filter _ (List.filter (fun item => negb (P item)) s)) with (@nil (string * token_data));
      [reflexivity|].
    symmetry. clear Hsnd Hnd. induction s as [|it s IHs]; simpl; [reflexivity|].
    destruct (P it) eqn:EP; simpl; [apply IHs|].
    unfold P in EP. rewrite EP. simpl. apply IHs.
  - intros k d Hk Hu. rewrite (dict_get_filter _ k d) by assumption.
    unfold P. simpl. apply String.eqb_neq in Hu. rewrite Hu. reflexivity.
  - intros k d Hk Hu. apply dict_get_elem in Hk.
    apply list_elem_of_In, filter_In in Hk as [_ Hk]. unfold P in Hk. simpl in Hk.
    apply negb_true_iff, String.eqb_neq in Hk. congruence.
Qed.

Lemma revoke_all_user_tokens_removes_user_witness :
  NoDup (rotated.*1)
  /\ fst (revoke_all_user_tokens "admin" rotated) = 2
  /\ get_user_token_count "admin" (snd (revoke_all_user_tokens "admin" rotated)) = 0.
Proof.
  assert (Hnd : NoDup (rotated.*1)).
  { apply (bool_decide_unpack _). vm_compute. exact I. }
  split; [exact Hnd|].
  destruct (revoke_all_user_tokens_removes_user "admin" rotated Hnd) as (_ & Hn & H0 & _).
  split; [rewrite Hn; vm_compute; reflexivity | exact H0].
Defined.

Lemma count_as_length user s :
  get_user_token_count user s = length (List.filter (active user) s).
Proof.
  unfold get_user_token_count. fold (active user).
  induction (List.filter (active user) s) as [|x l IH]; simpl; [reflexivity|].
  rewrite IH. reflexivity.
Qed.

Lemma count_set_new user k d s :
  dict_get k s = None ->
  get_user_token_count user (dict_set k d s)
  = get_user_token_count user s + (if active user (k, d) then 1 else 0).
Proof.
  rewrite !count_as_length. induction s as [|[k' d'] s IH]; simpl.
  - intros _. destruct (active user (k, d)); reflexivity.
  - destruct (String.eqb k k'); [discriminate|]. intros H. simpl.
    destruct (active user (k', d')); simpl; rewrite IH by exact H; reflexivity.
Qed.

Lemma count_set_old user k d d0 s :
  dict_get k s = Some d0 ->
  get_user_token_count user (dict_set k d s) + (if active user (k, d0) then 1 else 0)
  = get_user_token_count user s + (if active user (k, d) then 1 else 0).
Proof.
  rewrite !count_as_length. induction s as [|[k' d'] s IH]; simpl; [discriminate|].
  destruct (String.eqb k k') eqn:E.
  - apply String.eqb_eq in E. subst k'. intros [= ->]. simpl.
    destruct (active user (k, d)), (active user (k, d0)); simpl; lia.
  - intros H. specialize (IH H). simpl.
    destruct (active user (k', d')); simpl; lia.
Qed.

(** X6.  Within the times a [datetime] holds, issuing a token adds one
    active token for its user, and a rotation leaves the number of active
    tokens of every user as it was (the token drawn being new to the
    store). *)
Theorem rotation_keeps_active_count now fresh s :
  is_datetime now ->
  dict_get (hash_token fresh) s = None ->
  (forall user fp days v,
     is_datetime (now + days * day) ->
     get_user_token_count v (snd (generate_refresh_token fresh now user fp days s))
     = get_user_token_count v s + (if String.eqb user v then 1 else 0))
  /\ (forall tok fp u new s',
        is_datetime (now + 7 * day) ->
        validate_and_rotate tok fp now fresh s = (Some (u, new), s') ->
        forall v, get_user_token_count v s' = get_user_token_count v s).
Proof.
  intros _ Hfresh. split.
  - intros user fp days v _. unfold generate_refresh_token. cbn [snd].
    rewrite count_set_new by exact Hfresh. unfold active. cbn [snd username used].
    rewrite andb_true_r. reflexivity.
  - intros tok fp u new s' _ H v.
    apply rotation_success in H as (data & Hd & Hu & _ & _ & _ & _ & _ & ->).
    assert (Hne : hash_token fresh <> hash_token tok) by congruence.
    cbv zeta. apply String.eqb_neq in Hne as Hneb. rewrite Hneb.
    set (D1 := set_used data).
    set (N := {| username := username data;
                 fingerprint := if truthy fp then fp else fingerprint data;
                 created_at := now; expires_at := (now + 7 * day)%Z;
                 used := false; rotated_to := None |}).
    set (s1 := dict_set (hash_token tok) D1 s).
    set (s2 := dict_set (hash_token fresh) N s1).
    pose proof (count_set_old v (hash_token tok) D1 data s Hd) as C1. fold s1 in C1.
    assert (Hf1 : dict_get (hash_token fresh) s1 = None)
      by (unfold s1; rewrite dict_get_set_ne by exact Hne; exact Hfresh).
    pose proof (count_set_new v (hash_token fresh) N s1 Hf1) as C2. fold s2 in C2.
    assert (Hh2 : dict_get (hash_token tok) s2 = Some D1).
    { unfold s2. rewrite dict_get_set_ne by congruence. apply dict_get_set_eq. }
    pose proof (count_set_old v (hash_token tok) (set_rotated_to (hash_token fresh) D1) D1 s2 Hh2)
      as C3.
    unfold active in C1, C2, C3. cbn [snd username used set_used set_rotated_to D1 N] in C1, C2, C3.
    rewrite Hu in C1. rewrite !andb_false_r in C1, C3. rewrite !andb_true_r in C1, C2.
    destruct (String.eqb (username data) v); lia.
Qed.

Lemma rotation_keeps_active_count_witness :
  is_datetime 10 /\ is_datetime (10 + 7 * day)
  /\ dict_get (hash_token "R2") issued = None
  /\ get_user_token_count "admin" issued = 1
  /\ get_user_token_count "admin" rotated = 1.
Proof.
  assert (Hnow : is_datetime 10) by (unfold is_datetime, datetime_max; lia).
  assert (Hexp : is_datetime (10 + 7 * day)) by (unfold is_datetime, datetime_max, day; lia).
  assert (H : dict_get (hash_token "R2") issued = None) by (vm_compute; reflexivity).
  split; [exact Hnow|]. split; [exact Hexp|]. split; [exact H|].
  destruct (rotation_keeps_active_count 10 "R2" issued Hnow H) as [_ Hrot].
  assert (H1 : get_user_token_count "admin" issued = 1) by (vm_compute; reflexivity).
  split; [exact H1|].
  rewrite <- H1.
  apply (Hrot "R1" (Some "fp") "admin" "R2" rotated Hexp). vm_compute. reflexivity.
Defined.


(** X7.  [_cleanup_expired] removes the records that expire before the
    given time and keeps every other record as it is. *)
Theorem cleanup_expired_keeps_unexpired now s :
  NoDup (s.*1) ->
  _cleanup_expired now s
  = List.filter (fun item => negb (expires_at (snd item) <? now)%Z) s
  /\ (forall k d, dict_get k (_cleanup_expired now s) = Some d -> (now <= expires_at d)%Z)
  /\ (forall k d, dict_get k s = Some d -> (now <= expires_at d)%Z ->
        dict_get k (_cleanup_expired now s) = Some d)
  /\ (forall k d, dict_get k s = Some d -> (expires_at d < now)%Z ->
        dict_get k (_cleanup_expired now s) = None).
Proof.
  intros Hnd.
  assert (E : _cleanup_expired now s
              = List.filter (fun item => negb (expires_at (snd item) <? now)%Z) s).
  { unfold _cleanup_expired.
    apply (del_keys_filter (fun item : string * token_data => (expires_at (snd item) <? now)%Z) s []).
    exact Hnd. }
  split; [exact E|]. rewrite E. split; [|split].
  - intros k d Hk. apply dict_get_elem in Hk.
    apply list_elem_of_In, filter_In in Hk as [_ Hk]. simpl in Hk.
    apply negb_true_iff, Z.ltb_ge in Hk. exact Hk.
  - intros k d Hk Hle. rewrite (dict_get_filter _ k d) by assumption. simpl.
    apply Z.ltb_ge in Hle. rewrite Hle. reflexivity.
  - intros k d Hk Hlt. rewrite (dict_get_filter _ k d) by assumption. simpl.
    apply Z.ltb_lt in Hlt. rewrite Hlt. reflexivity.
Qed.

Lemma cleanup_expired_keeps_unexpired_witness :
  NoDup (rotated.*1)
  /\ _cleanup_expired (8 * day) rotated
     = List.filter (fun item => negb (expires_at (snd item) <? 8 * day)%Z) rotated
  /\ dict_has (hash_token "R1") (_cleanup_expired (5 * day) rotated) = true
  /\ _cleanup_expired (8 * day) rotated = [].
Proof.
  assert (Hnd : NoDup (rotated.*1)).
  { apply (bool_decide_unpack _). vm_compute. exact I. }
  split; [exact Hnd|].
  destruct (cleanup_expired_keeps_unexpired (8 * day) rotated Hnd) as (E & _).
  split; [exact E|]. split; vm_compute; reflexivity.
Defined.

End RefreshTokenFacts.

(** ** Authorization on a resource *)

Module AccessFacts.
Import Authorization Access Dependencies AuthorizationFacts.

Lemma has_permission_admin (admin : string) (user : list (string * json)) (p : Permission) :
  admin <> "" -> dict_get "sub" user = Some (JStr admin) -> has_permission admin user p = true.
Proof.
  intros Hne Hsub. unfold has_permission. rewrite Hsub. simpl.
  apply String.eqb_neq in Hne. rewrite Hne. simpl.
  unfold get_user_role. simpl. rewrite String.eqb_refl. reflexivity.
Qed.

Lemma sub_non_admin (admin : string) (user : list (string * json)) :
  dict_get "sub" user <> Some (JStr admin) -> sub user <> JStr admin.
Proof.
  unfold sub. destruct (dict_get "sub" user) as [j|]; simpl; [congruence | discriminate].
Qed.

Lemma check_resource_ownership_non_admin (admin : string) (user : list (string * json)) t i :
  dict_get "sub" user <> Some (JStr admin) -> check_resource_ownership admin user t i = false.
Proof.
  intros Hne. unfold check_resource_ownership.
  destruct (Json.truthy (sub user)); [|reflexivity]. simpl.
  rewrite (role_of_non_admin admin (sub user)) by (apply sub_non_admin, Hne). reflexivity.
Qed.

(** X8.  The administrator (whose configured name is not empty) passes
    every check: [can] holds for every action on every resource, and none
    of [require_permission], [require_ownership] and [require_admin]
    raises. *)
Theorem admin_passes_every_check (admin : string) (user : list (string * json))
    (action : Permission) (resource : option (list (string * json)))
    (resource_type : string) (resource_id : json) :
  admin <> "" -> dict_get "sub" user = Some (JStr admin) ->
  can admin user action resource = true
  /\ require_permission admin user action resource = inl tt
  /\ require_ownership admin user resource_type resource_id = inl tt
  /\ require_admin admin user = inl tt.
Proof.
  intros Hne Hsub.
  assert (Hown : forall t i, check_resource_ownership admin user t i = true).
  { intros t i. unfold check_resource_ownership, sub. rewrite Hsub. simpl.
    apply String.eqb_neq in Hne. rewrite Hne. simpl.
    unfold get_user_role. simpl. rewrite String.eqb_refl. reflexivity. }
  assert (Hcan : can admin user action resource = true).
  { unfold can. rewrite (has_permission_admin admin user action Hne Hsub). simpl.
    destruct resource as [[|x r]|]; try reflexivity.
    destruct (Json.truthy _ && Json.truthy _); [apply Hown | reflexivity]. }
  split; [exact Hcan|].
  split; [unfold require_permission; rewrite Hcan; reflexivity|].
  split; [unfold require_ownership; rewrite Hown; reflexivity|].
  unfold require_admin, sub. rewrite Hsub. simpl.
  unfold get_user_role. simpl. rewrite String.eqb_refl. reflexivity.
Qed.

Lemma admin_passes_every_check_witness :
  can "admin" [("sub", JStr "admin")] DELETE_REPO
    (Some [("type", JStr "repo"); ("id", JStr "demo")]) = true
  /\ require_admin "admin" [("sub", JStr "admin")] = inl tt.
Proof.
  destruct (admin_passes_every_check "admin" [("sub", JStr "admin")] DELETE_REPO
              (Some [("type", JStr "repo"); ("id", JStr "demo")]) "repo" (JStr "demo"))
    as (Hcan & _ & _ & Hadm); [discriminate | reflexivity |].
  split; [exact Hcan | exact Hadm].
Defined.

(** X9.  A principal that is not the administrator is denied every action
    on a resource that has a type and an identifier, also the actions its
    role permits when no resource is given; [require_ownership] and
    [require_admin] always raise for it, with status 403. *)
Theorem non_admin_is_denied_on_resources (admin : string) (user : list (string * json))
    (action : Permission) (r : list (string * json)) :
  dict_get "sub" user <> Some (JStr admin) ->
  Json.truthy (default JNull (dict_get "type" r)) = true ->
  Json.truthy (default JNull (dict_get "id" r)) = true ->
  can admin user action (Some r) = false
  /\ require_permission admin user action (Some r)
     = inr (HTTPException 403 ("Permission denied: " +:+ permission_value action))
  /\ can admin user action None = has_permission admin user action
  /\ (forall t i, require_ownership admin user t i
                  = inr (HTTPException 403 ("You do not have access to this " +:+ t)))
  /\ require_admin admin user = inr (HTTPException 403 "Admin access required").
Proof.
  intros Hne Ht Hi.
  assert (Hcan : can admin user action (Some r) = false).
  { unfold can. destruct (has_permission admin user action); [|reflexivity]. simpl.
    destruct r as [|x r]; [discriminate|].
    rewrite Ht, Hi. simpl. apply check_resource_ownership_non_admin, Hne. }
  split; [exact Hcan|].
  split; [unfold require_permission; rewrite Hcan; reflexivity|].
  split; [unfold can; destruct (has_permission admin user action); reflexivity|].
  split.
  - intros t i. unfold require_ownership.
    rewrite check_resource_ownership_non_admin by exact Hne. reflexivity.
  - unfold require_admin.
    rewrite (role_of_non_admin admin (sub user)) by (apply sub_non_admin, Hne). reflexivity.
Qed.

Lemma non_admin_is_denied_on_resources_witness :
  has_permission "admin" [("sub", JStr "guest")] READ_REPO = true
  /\ can "admin" [("sub", JStr "guest")] READ_REPO
       (Some [("type", JStr "repo"); ("id", JStr "demo")]) = false.
Proof.
  split; [reflexivity|].
  destruct (non_admin_is_denied_on_resources "admin" [("sub", JStr "guest")] READ_REPO
              [("type", JStr "repo"); ("id", JStr "demo")])
    as (Hcan & _); [discriminate | reflexivity | reflexivity |].
  exact Hcan.
Defined.

End AccessFacts.

(** ** Device fingerprint: what of the peer address counts *)

Module DeviceFingerprintFacts.
Import Fingerprint DeviceFingerprint FingerprintSpec FingerprintFacts PeerAddress.

Lemma join_cons (sep x y : string) (l : list string) :
  Py.join sep (x :: y :: l) = x +:+ sep +:+ Py.join sep (y :: l).
Proof. reflexivity. Qed.

(** [sep.join(l).split(sep) == l] when no group contains the separator. *)
Lemma split_join (sep : ascii) (l : list string) :
  l <> [] -> Forall (fun g => Py.contains sep g = false) l ->
  Py.split sep (Py.join (String sep "") l) = l.
Proof.
  unfold Py.split. intros Hne Hall.
  assert (H : forall cur, Py.split_go sep cur (Py.join (String sep "") l)
                          = match l with [] => [cur] | x :: r => (cur +:+ x) :: r end).
  { clear Hne. induction l as [|x l IH]; intros cur; [reflexivity|].
    apply Forall_cons in Hall as [Hx Hall].
    destruct l as [|y l].
    - change (Py.join (String sep "") [x]) with x. apply split_go_last, Hx.
    - rewrite join_cons.
      change (x +:+ String sep "" +:+ Py.join (String sep "") (y :: l))
        with (x +:+ String sep (Py.join (String sep "") (y :: l))).
      rewrite split_go_segment by exact Hx. rewrite (IH Hall ""). reflexivity. }
  rewrite H. destruct l; [contradiction | reflexivity].
Qed.

Lemma contains_join (sep : ascii) (x y : string) (l : list string) :
  Py.contains sep (Py.join (String sep "") (x :: y :: l)) = true.
Proof.
  rewrite join_cons, !contains_app. simpl. rewrite Ascii.eqb_refl.
  rewrite orb_true_r. reflexivity.
Qed.

Lemma contains_join_false (c : ascii) (sep : string) (l : list string) :
  Py.contains c sep = false -> Forall (fun g => Py.contains c g = false) l ->
  Py.contains c (Py.join sep l) = false.
Proof.
  intros Hsep. induction l as [|x l IH]; intros Hall; [reflexivity|].
  apply Forall_cons in Hall as [Hx Hall]. destruct l as [|y l]; [exact Hx|].
  rewrite join_cons, !contains_app, Hx, Hsep, (IH Hall). reflexivity.
Qed.

(** The part of the address that enters the fingerprint: the leading
    groups. *)
Lemma partial_ip_leading (v6 : bool) (lead rest : list string) :
  leading_groups v6 lead rest ->
  partial_ip (Py.join (separator v6) (lead ++ rest)) = Py.join (separator v6) lead
  /\ Py.join (separator v6) (lead ++ rest) <> "".
Proof.
  intros (Hlen & Hsep & Hcolon).
  assert (H2 : exists x y l, lead ++ rest = x :: y :: l).
  { destruct lead as [|x [|y lead]]; [destruct v6; discriminate..|]. simpl. eauto. }
  destruct H2 as (x & y & l & E).
  split; cycle 1.
  { rewrite E. intros H0. pose proof (contains_join (if v6 then ":" else ".")%char x y l) as Hc.
    unfold separator in H0. destruct v6; rewrite H0 in Hc; discriminate. }
  unfold partial_ip. destruct v6; unfold separator, groups in *.
  - rewrite E at 1. rewrite (contains_join ":" x y l).
    rewrite split_join; [|rewrite E; discriminate | exact Hsep].
    rewrite firstn_app, Hlen, Nat.sub_diag, firstn_all2 by lia. simpl. rewrite app_nil_r.
    reflexivity.
  - rewrite contains_join_false; [|reflexivity | apply Hcolon; reflexivity].
    rewrite split_join; [|rewrite E; discriminate | exact Hsep].
    rewrite firstn_app, Hlen, Nat.sub_diag, firstn_all2 by lia. simpl. rewrite app_nil_r.
    reflexivity.
Qed.

Lemma generate_same_partial hs ip1 ip2 :
  ip1 <> "" -> ip2 <> "" -> partial_ip ip1 = partial_ip ip2 ->
  generate (Request hs (Some ip1)) = generate (Request hs (Some ip2)).
Proof.
  intros H1 H2 E. unfold generate, fingerprint_string, components. simpl.
  apply String.eqb_neq in H1, H2. rewrite H1, H2, E. reflexivity.
Qed.

Lemma generate_leading (v6 : bool) hs (lead rest1 rest2 : list string) :
  leading_groups v6 lead rest1 -> leading_groups v6 lead rest2 ->
  generate (Request hs (Some (Py.join (separator v6) (lead ++ rest1))))
  = generate (Request hs (Some (Py.join (separator v6) (lead ++ rest2)))).
Proof.
  intros H1 H2.
  destruct (partial_ip_leading v6 lead rest1 H1) as [E1 N1].
  destruct (partial_ip_leading v6 lead rest2 H2) as [E2 N2].
  apply generate_same_partial; [exact N1 | exact N2 | congruence].
Qed.

(** X10.  Two requests with the same headers, from peers whose addresses
    have the same first three groups between dots (an address without
    colon) or the same first six groups between colons, have the same
    fingerprint; [validate] accepts the one for the fingerprint of the
    other, with [strict] or without. *)
Theorem fingerprint_ignores_trailing_groups (v6 : bool) hs (lead rest1 rest2 : list string)
    (strict : bool) :
  leading_groups v6 lead rest1 -> leading_groups v6 lead rest2 ->
  generate (Request hs (Some (Py.join (separator v6) (lead ++ rest1))))
  = generate (Request hs (Some (Py.join (separator v6) (lead ++ rest2))))
  /\ validate (Request hs (Some (Py.join (separator v6) (lead ++ rest2))))
       (generate (Request hs (Some (Py.join (separator v6) (lead ++ rest1))))) strict
     = true.
Proof.
  intros H1 H2. pose proof (generate_leading v6 hs lead rest1 rest2 H1 H2) as E.
  split; [exact E|]. unfold validate. rewrite E, String.eqb_refl. destruct strict; reflexivity.
Qed.

Lemma fingerprint_ignores_trailing_groups_witness :
  leading_groups false ["10"; "1"; "2"] ["3"]
  /\ leading_groups false ["10"; "1"; "2"] ["200"]
  /\ generate (Request [("user-agent", "curl/8.0")] (Some "10.1.2.3"))
     = generate (Request [("user-agent", "curl/8.0")] (Some "10.1.2.200")).
Proof.
  assert (H1 : leading_groups false ["10"; "1"; "2"] ["3"]).
  { split; [reflexivity|]. split; [repeat constructor|]. intros _. repeat constructor. }
  assert (H2 : leading_groups false ["10"; "1"; "2"] ["200"]).
  { split; [reflexivity|]. split; [repeat constructor|]. intros _. repeat constructor. }
  split; [exact H1|]. split; [exact H2|].
  exact (proj1 (fingerprint_ignores_trailing_groups false [("user-agent", "curl/8.0")]
                  ["10"; "1"; "2"] ["3"] ["200"] true H1 H2)).
Defined.

End DeviceFingerprintFacts.

(** ** Access tokens: step-up, and the peer moving within its subnet *)

Module StepUpFacts.
Import Dependencies Raised StepUp DependenciesSpec DependenciesFacts PeerAddress.

Section JwtFacts.
Variable token : Type.
Variable jwt_encode : list (string * json) -> string -> token.
Variable jwt_decode : token -> string -> Z -> list (string * json) + jwt_error.
Variable SECRET_KEY : string.

Hypothesis jwt_decode_encode :
  forall payload now payload',
    jwt_decode (jwt_encode payload SECRET_KEY) SECRET_KEY now = inl payload' ->
    payload' = payload.

Lemma verify_token_payload tok request now payload :
  verify_token token jwt_decode SECRET_KEY tok request now = inl payload ->
  jwt_decode tok SECRET_KEY now = inl payload.
Proof.
  unfold verify_token. destruct (jwt_decode tok SECRET_KEY now) as [p|[]]; try discriminate.
  destruct request as [r|]; [|intros [= ->]; reflexivity].
  destruct (dict_get "fpt" p) as [fpt|]; [|intros [= ->]; reflexivity].
  destruct (negb _); [discriminate | intros [= ->]; reflexivity].
Qed.

(** X11.  The claims of a token minted with [step_up] pass
    [require_step_up] up to 300 seconds after the minting (and not at all
    when minted at time 0), and are refused as expired later; the claims of a
    token minted without [step_up], from data that has no ["step_up"], are
    always refused. *)
Theorem step_up_lasts_300_seconds (data : list (string * json)) (F : string)
    (expires_delta : option Z) (minted_at : Z) (request : Fingerprint.request) (now : Z)
    (payload : list (string * json)) :
  (get_current_user token jwt_decode SECRET_KEY request
     (create_access_token token jwt_encode SECRET_KEY data F expires_delta true minted_at) now
   = inl payload ->
   require_step_up payload now
   = if (minted_at =? 0)%Z || (now - minted_at >? 300)%Z
     then inr (Http (HTTPException 403 "Step-up authentication expired"))
     else inl payload)
  /\ (dict_get "step_up" data = None ->
      get_current_user token jwt_decode SECRET_KEY request
        (create_access_token token jwt_encode SECRET_KEY data F expires_delta false minted_at) now
      = inl payload ->
      require_step_up payload now
      = inr (Http (HTTPException 403 "Step-up authentication required"))).
Proof.
  unfold get_current_user. split.
  - intros H. apply verify_token_payload in H. unfold create_access_token in H.
    apply jwt_decode_encode in H. subst payload.
    unfold require_step_up, dict_update. simpl.
    rewrite dict_get_set_ne by discriminate. rewrite dict_get_set_eq. simpl.
    rewrite dict_get_set_eq. simpl.
    destruct (minted_at =? 0)%Z; simpl; [reflexivity|].
    destruct (now - minted_at >? 300)%Z; reflexivity.
  - intros Hd H. apply verify_token_payload in H. unfold create_access_token in H.
    apply jwt_decode_encode in H. subst payload.
    unfold require_step_up, dict_update. simpl.
    rewrite !dict_get_set_ne by discriminate. rewrite Hd. reflexivity.
Qed.

(** X12.  A token minted for a request is accepted with every request that
    has the same headers and comes from a peer whose address has the same
    leading groups: [verify_token] then answers as it does without a
    request, that is, as [jwt.decode] does. *)
Theorem token_follows_peer_within_subnet (data : list (string * json))
    (expires_delta : option Z) (step_up : bool) (minted_at now : Z)
    (v6 : bool) hs (lead rest1 rest2 : list string) :
  leading_groups v6 lead rest1 -> leading_groups v6 lead rest2 ->
  let minted_for := Fingerprint.Request hs (Some (Py.join (separator v6) (lead ++ rest1))) in
  let presented_by := Fingerprint.Request hs (Some (Py.join (separator v6) (lead ++ rest2))) in
  let tok := create_access_token token jwt_encode SECRET_KEY data (get_fingerprint minted_for)
               expires_delta step_up minted_at in
  verify_token token jwt_decode SECRET_KEY tok (Some presented_by) now
  = verify_token token jwt_decode SECRET_KEY tok None now.
Proof.
  intros H1 H2 minted_for presented_by tok.
  pose proof (DeviceFingerprintFacts.generate_leading v6 hs lead rest1 rest2 H1 H2) as E.
  unfold verify_token.
  destruct (jwt_decode tok SECRET_KEY now) as [payload|[]] eqn:D; try reflexivity.
  unfold tok in D.
  rewrite (minted_fpt token jwt_encode jwt_decode SECRET_KEY jwt_decode_encode _ _ _ _ _ _ _ D).
  unfold get_fingerprint, Fingerprint.get_device_fingerprint, presented_by, minted_for.
  rewrite <- E. simpl. rewrite String.eqb_refl. reflexivity.
Qed.
End JwtFacts.

Lemma step_up_lasts_300_seconds_witness :
  require_step_up
    [("sub", JStr "admin"); ("exp", JInt 1300); ("fpt", JStr (get_fingerprint browser));
     ("step_up", JBool true); ("step_up_at", JInt 1000)] 1300
  = inl [("sub", JStr "admin"); ("exp", JInt 1300); ("fpt", JStr (get_fingerprint browser));
         ("step_up", JBool true); ("step_up_at", JInt 1000)].
Proof.
  apply (proj1 (step_up_lasts_300_seconds _ toy_encode toy_decode "supersecretkey"
                  (toy_decode_encode "supersecretkey")
                  [("sub", JStr "admin")] (get_fingerprint browser) None 1000 browser 1300 _)).
  vm_compute. reflexivity.
Defined.

Lemma token_follows_peer_within_subnet_witness :
  leading_groups false ["10"; "1"; "2"] ["3"]
  /\ leading_groups false ["10"; "1"; "2"] ["200"]
  /\ verify_token _ toy_decode "supersecretkey"
       (create_access_token _ toy_encode "supersecretkey" [("sub", JStr "admin")]
          (get_fingerprint (Fingerprint.Request [("user-agent", "curl/8.0")] (Some "10.1.2.3")))
          None false 0)
       (Some (Fingerprint.Request [("user-agent", "curl/8.0")] (Some "10.1.2.200"))) 10
     = verify_token _ toy_decode "supersecretkey"
         (create_access_token _ toy_encode "supersecretkey" [("sub", JStr "admin")]
            (get_fingerprint (Fingerprint.Request [("user-agent", "curl/8.0")] (Some "10.1.2.3")))
            None false 0)
         None 10.
Proof.
  assert (H1 : leading_groups false ["10"; "1"; "2"] ["3"]).
  { split; [reflexivity|]. split; [repeat constructor|]. intros _. repeat constructor. }
  assert (H2 : leading_groups false ["10"; "1"; "2"] ["200"]).
  { split; [reflexivity|]. split; [repeat constructor|]. intros _. repeat constructor. }
  split; [exact H1|]. split; [exact H2|].
  exact (token_follows_peer_within_subnet _ toy_encode toy_decode "supersecretkey"
           (toy_decode_encode "supersecretkey")
           [("sub", JStr "admin")] None false 0 10 false [("user-agent", "curl/8.0")]
           ["10"; "1"; "2"] ["3"] ["200"] H1 H2).
Defined.

End StepUpFacts.

(** ** Calls that succeed, and calls that meet no fault *)

Module RunFacts.
Import FSSpec FSFacts Paths Raised.

Lemma part_ok s w x w' : part s w = (Ok x, w') -> x = s /\ w' = w /\ component s = true.
Proof.
  unfold part. destruct (component s); [|discriminate].
  unfold ret. intros [= <- <-]. auto.
Qed.

Lemma part_pass s w : component s = true -> part s w = (Ok s, w).
Proof. unfold part. intros ->. reflexivity. Qed.

Lemma bind_returns {A B} (m : M A) (k : A -> M B) w b w' :
  bind m k w = (Ok b, w') -> exists a w1, m w = (Ok a, w1) /\ k a w1 = (Ok b, w').
Proof.
  intros H. apply bind_run in H as [H|([e He] & _)]; [exact H | discriminate].
Qed.

Lemma open_write_ok p c w w' :
  open_write p c w = (Ok tt, w') ->
  files w' = <[p := c]> (files w) /\ dirs w' = dirs w /\ is_dir w p = false
  /\ is_dir w (parent p) = true.
Proof.
  unfold open_write. pop w f w1. unfold bind, get_world, note, raise, set_file.
  assert (Hdir : forall q, is_dir w1 q = is_dir w q).
  { intros q. unfold is_dir. rewrite Hd. reflexivity. }
  rewrite !Hdir.
  destruct (is_dir w p); [discriminate|].
  destruct (is_dir w (parent p)); simpl; [|discriminate].
  destruct f; try discriminate. intros [= <-]. simpl. rewrite Hf, Hd. auto.
Qed.

Lemma exists_run p w : exists_ p w = (Ok (exists_on w p), w).
Proof. reflexivity. Qed.

Lemma pop_fault_pass w : faults w = [] -> pop_fault w = (Ok Pass, w).
Proof. unfold pop_fault. intros ->. reflexivity. Qed.

Lemma json_load_pass p j w :
  faults w = [] -> is_dir w p = false -> files w !! p = Some (Doc j) ->
  json_load p w = (Ok j, w).
Proof.
  intros Hf Hd Hp. unfold json_load, bind. rewrite (pop_fault_pass w Hf).
  unfold get_world. rewrite Hd, Hp. reflexivity.
Qed.

Lemma json_load_ok p j w w' :
  json_load p w = (Ok j, w') -> files w !! p = Some (Doc j) /\ is_dir w p = false.
Proof.
  unfold json_load. pop w f w1. unfold bind, get_world, raise, ret.
  destruct f; try discriminate.
  assert (Hdir : is_dir w1 p = is_dir w p) by (unfold is_dir; rewrite Hd; reflexivity).
  rewrite Hdir, Hf. destruct (is_dir w p); [discriminate|].
  destruct (files w !! p) as [[b|j']|]; try discriminate. intros [= <- _]. auto.
Qed.

Lemma json_load_run p w r w' :
  json_load p w = (r, w') -> files w' = files w /\ dirs w' = dirs w.
Proof.
  unfold json_load. pop w f w1. unfold bind, get_world, raise, ret.
  destruct f; try (intros [= _ <-]; auto).
  destruct (is_dir w1 p); [intros [= _ <-]; auto|].
  destruct (files w1 !! p) as [[b|j']|]; intros [= _ <-]; auto.
Qed.

Lemma read_bytes_pass p c w :
  faults w = [] -> is_dir w p = false -> files w !! p = Some c ->
  read_bytes p w = (Ok (content_bytes c), w).
Proof.
  intros Hf Hd Hp. unfold read_bytes, bind. rewrite (pop_fault_pass w Hf).
  unfold get_world. rewrite Hd, Hp. reflexivity.
Qed.

Lemma read_text_pass p c s w :
  faults w = [] -> is_dir w p = false -> files w !! p = Some c ->
  Py.decode (content_bytes c) = Some s ->
  read_text p w = (Ok s, w).
Proof.
  intros Hf Hd Hp Hs. unfold read_text.
  rewrite (SvcsFacts.bind_ok _ _ _ _ _ (read_bytes_pass p c w Hf Hd Hp)). rewrite Hs. reflexivity.
Qed.

Lemma is_dir_with_faults fl w p : is_dir (with_faults fl w) p = is_dir w p.
Proof. reflexivity. Qed.

Lemma exists_on_with_faults fl w p : exists_on (with_faults fl w) p = exists_on w p.
Proof. reflexivity. Qed.

(** A path longer than [p] is none of the directories [makedirs p]
    creates. *)
Lemma makedirs_keeps_longer p q w w' :
  makedirs p w = (Ok tt, w') -> length p < length q ->
  is_dir w' q = is_dir w q /\ files w' = files w.
Proof.
  intros H Hlen. apply makedirs_ok in H as [Hf Hd]. split; [|exact Hf].
  unfold is_dir. destruct q as [|c q]; [reflexivity|].
  apply bool_decide_ext. rewrite Hd. split; [|auto].
  intros [H|H]; [exact H|].
  apply SvcsFacts.prefixes_length in H. simpl in H, Hlen. lia.
Qed.

Lemma makedirs_makes p w w' : makedirs p w = (Ok tt, w') -> p <> [] -> is_dir w' p = true.
Proof.
  intros H Hne. apply makedirs_ok in H as [_ Hd]. apply SvcsFacts.in_dir. apply Hd. right.
  unfold prefixes. apply list_elem_of_fmap. exists (length p).
  split; [symmetry; apply firstn_all|].
  apply list_elem_of_In, in_seq. destruct p; [contradiction|]. simpl. lia.
Qed.

Lemma json_load_fst p w v :
  faults w = faults v -> is_dir w p = is_dir v p -> files w !! p = files v !! p ->
  fst (json_load p w) = fst (json_load p v).
Proof.
  intros Hf Hd Hp. unfold json_load, bind, pop_fault. rewrite Hf.
  destruct (faults v) as [|[] fl]; simpl; try reflexivity.
  - rewrite Hd, Hp. destruct (is_dir v p); [reflexivity|].
    destruct (files v !! p) as [[b|j]|]; reflexivity.
  - change (is_dir (World (files w) (dirs w) fl (log w)) p) with (is_dir w p).
    change (is_dir (World (files v) (dirs v) fl (log v)) p) with (is_dir v p).
    rewrite Hd, Hp. destruct (is_dir v p); [reflexivity|].
    destruct (files v !! p) as [[b|j]|]; reflexivity.
Qed.

End RunFacts.

(** ** The files of a user *)

Module SvcsUsersFacts.
Import Svcs SvcsUsers SvcsSpec UsersSpec FSSpec FSFacts RunFacts Paths Raised Dyn SvcsFacts.

Section Root.
Variable R : path.

Lemma user_dir_ne u : user_dir R u <> [].
Proof. unfold user_dir. destruct R; discriminate. Qed.

Lemma parent_user_file u name : parent (user_dir R u ++ [name]) = user_dir R u.
Proof. unfold parent. apply removelast_last. Qed.

(** What the files of [u] are after [makedirs] of its directory and a write
    to one of them. *)
Lemma user_file_written u name c w w1 w2 :
  makedirs (user_dir R u) w = (Ok tt, w1) ->
  open_write (user_dir R u ++ [name]) c w1 = (Ok tt, w2) ->
  files w2 = <[user_dir R u ++ [name] := c]> (files w)
  /\ is_dir w2 (user_dir R u) = true
  /\ (forall v name', is_dir w2 (user_dir R v ++ [name']) = is_dir w (user_dir R v ++ [name']))
  /\ is_dir w (user_dir R u ++ [name]) = false.
Proof.
  intros Hm Hw. apply open_write_ok in Hw as (Hf2 & Hd2 & Hnd & _).
  assert (Hdir : forall q, is_dir w2 q = is_dir w1 q).
  { intros q. unfold is_dir. rewrite Hd2. reflexivity. }
  assert (Hlong : forall v name',
             is_dir w1 (user_dir R v ++ [name']) = is_dir w (user_dir R v ++ [name'])).
  { intros v name'. apply (makedirs_keeps_longer _ _ _ _ Hm).
    unfold user_dir. rewrite !length_app. simpl. lia. }
  split; [rewrite Hf2; f_equal; apply (makedirs_ok _ _ _ Hm)|].
  split; [rewrite Hdir; apply (makedirs_makes _ _ _ Hm), user_dir_ne|].
  split; [intros v name'; rewrite Hdir; apply Hlong|].
  rewrite <- Hlong. exact Hnd.
Qed.

Lemma user_file_ne u v name : v <> u -> user_dir R v ++ [name] <> user_dir R u ++ [name].
Proof.
  intros Hne Heq. apply app_inj_tail in Heq as [Heq _].
  unfold user_dir in Heq. apply app_inv_head in Heq. congruence.
Qed.

(** X13.  What [update_user_2fa] returns is the state it was given, and
    [get_user_2fa] reads it back; the state of every other user is as it
    was. *)
Theorem user_2fa_is_read_back u enabled secret w d w' :
  update_user_2fa R u enabled secret w = (Ok d, w') ->
  d = JDict [("enabled", JBool enabled);
             ("secret", match secret with Some s => JStr s | None => JNull end)]
  /\ get_user_2fa R u (with_faults [] w') = (Ok d, with_faults [] w')
  /\ forall v, v <> u ->
       fst (get_user_2fa R v (with_faults [] w')) = fst (get_user_2fa R v (with_faults [] w)).
Proof.
  unfold update_user_2fa. intros H.
  apply bind_returns in H as (x & w0 & Hp & H). apply part_ok in Hp as (-> & -> & Hc).
  apply bind_returns in H as ([] & w1 & Hm & H).
  apply bind_returns in H as ([] & w2 & Hj & H). unfold ret in H. injection H as <- <-.
  destruct (user_file_written u "auth_2fa.json" _ w w1 w2 Hm Hj) as (Hf & Hud & Hdirs & Hnd).
  fold (auth_path R u) in Hf, Hnd.
  split; [reflexivity|]. split.
  - unfold get_user_2fa. rewrite (bind_ok _ _ _ _ _ (part_pass u _ Hc)).
    rewrite (bind_ok _ _ _ _ _ (exists_run _ _)).
    assert (Hfile : files (with_faults [] w2) !! auth_path R u
                    = Some (Doc (JDict [("enabled", JBool enabled);
                                        ("secret", match secret with
                                                   | Some s => JStr s | None => JNull end)]))).
    { simpl. rewrite Hf. apply lookup_insert_eq. }
    unfold exists_on, is_file. rewrite Hfile. simpl.
    apply json_load_pass; [reflexivity | | exact Hfile].
    rewrite is_dir_with_faults. unfold auth_path. rewrite Hdirs. exact Hnd.
  - intros v Hv. unfold get_user_2fa, part.
    destruct (component v); [|reflexivity].
    rewrite !(bind_ok _ _ _ _ _ (eq_refl : ret v _ = (Ok v, _))).
    rewrite !(bind_ok _ _ _ _ _ (exists_run _ _)).
    assert (Hsame : files w2 !! auth_path R v = files w !! auth_path R v).
    { rewrite Hf. apply lookup_insert_ne. intros Heq. symmetry in Heq.
      revert Heq. apply user_file_ne, Hv. }
    assert (Hsamed : is_dir w2 (auth_path R v) = is_dir w (auth_path R v)) by apply Hdirs.
    unfold exists_on, is_file. rewrite !is_dir_with_faults. simpl. rewrite Hsame, Hsamed.
    destruct (match files w !! auth_path R v with Some _ => true | None => false end
              || is_dir w (auth_path R v)); [|reflexivity].
    apply json_load_fst; [reflexivity | exact Hsamed | exact Hsame].
Qed.

(** X14.  A password hash without white space written by
    [update_user_password] is what [get_persisted_password_hash] returns. *)
Theorem password_hash_is_read_back u h w w' :
  PySpec.nonspace h = true ->
  update_user_password R u h w = (Ok tt, w') ->
  get_persisted_password_hash R u (with_faults [] w') = (Ok (Some h), with_faults [] w').
Proof.
  unfold update_user_password. intros Hns H.
  apply bind_returns in H as (x & w0 & Hp & H). apply part_ok in Hp as (-> & -> & Hc).
  apply bind_returns in H as ([] & w1 & Hm & H).
  destruct (user_file_written u "password.hash" _ w w1 w' Hm H) as (Hf & Hud & Hdirs & Hnd).
  fold (hash_path R u) in Hf, Hnd.
  unfold get_persisted_password_hash. rewrite (bind_ok _ _ _ _ _ (part_pass u _ Hc)).
  rewrite (bind_ok _ _ _ _ _ (exists_run _ _)).
  assert (Hfile : files (with_faults [] w') !! hash_path R u = Some (Data (Py.encode h))).
  { simpl. rewrite Hf. apply lookup_insert_eq. }
  unfold exists_on, is_file. rewrite Hfile. simpl.
  rewrite (bind_ok _ _ _ _ _
             (read_text_pass (hash_path R u) (Data (Py.encode h)) h (with_faults [] w')
                eq_refl (eq_trans (Hdirs u "password.hash") Hnd) Hfile
                (PyFacts.decode_encode h))).
  rewrite (PyFacts.strip_nonspace h Hns). reflexivity.
Qed.

(** X15.  [update_user_profile] returns the profile the user had (the
    default one when no file holds it) with the given fields replaced or
    added, the other fields as they were, and [get_user_profile] reads it
    back. *)
Theorem profile_update_merges u data w cur w' :
  NoDup (data.*1) ->
  update_user_profile R u data w = (Ok cur, w') ->
  exists old,
    match files w !! profile_path R u with
    | Some c => c = Doc (JDict old)
    | None => JDict old = default_profile u
    end
    /\ cur = JDict (dict_update old data)
    /\ (forall k, dict_get k (dict_update old data)
                  = match dict_get k data with
                    | Some v => Some v
                    | None => dict_get k old
                    end)
    /\ get_user_profile R u (with_faults [] w') = (Ok cur, with_faults [] w').
Proof.
  unfold update_user_profile. intros Hnd H.
  apply bind_returns in H as (x & w0 & Hp & H). apply part_ok in Hp as (-> & -> & Hc).
  apply bind_returns in H as ([] & w1 & Hm & H).
  apply bind_returns in H as (current & w2 & Hg & H).
  destruct current as [| | | | |old]; try discriminate.
  apply bind_returns in H as ([] & w3 & Hj & H). unfold ret in H. injection H as <- <-.
  (* the profile that was read *)
  unfold get_user_profile in Hg. rewrite (bind_ok _ _ _ _ _ (part_pass u _ Hc)) in Hg.
  rewrite (bind_ok _ _ _ _ _ (exists_run _ _)) in Hg.
  assert (Hlong : is_dir w1 (profile_path R u) = is_dir w (profile_path R u)
                  /\ files w1 = files w).
  { apply (makedirs_keeps_longer _ _ _ _ Hm). unfold profile_path, user_dir.
    rewrite !length_app. simpl. lia. }
  destruct Hlong as [Hd1 Hf1].
  assert (Hold : match files w !! profile_path R u with
                 | Some c => c = Doc (JDict old)
                 | None => JDict old = default_profile u
                 end
                 /\ files w2 = files w1 /\ dirs w2 = dirs w1).
  { destruct (exists_on w1 (profile_path R u)) eqn:Ex.
    - pose proof (json_load_run _ _ _ _ Hg) as [Hf2 Hd2].
      apply json_load_ok in Hg as [Hfile Hnd1]. rewrite Hf1 in Hfile. rewrite Hfile. auto.
    - unfold ret in Hg. injection Hg as Hg <-. unfold exists_on, is_file in Ex.
      rewrite Hf1 in Ex. destruct (files w !! profile_path R u); [discriminate|].
      subst old. auto. }
  destruct Hold as (Hold & Hf2 & Hd2).
  exists old. split; [exact Hold|]. split; [reflexivity|].
  split; [intros k; apply dict_update_get, Hnd|].
  apply open_write_ok in Hj as (Hf3 & Hd3 & Hnd3 & _).
  unfold get_user_profile. rewrite (bind_ok _ _ _ _ _ (part_pass u _ Hc)).
  rewrite (bind_ok _ _ _ _ _ (exists_run _ _)).
  assert (Hfile : files (with_faults [] w3) !! profile_path R u
                  = Some (Doc (JDict (dict_update old data)))).
  { simpl. rewrite Hf3. apply lookup_insert_eq. }
  unfold exists_on, is_file. rewrite Hfile. simpl.
  apply json_load_pass; [reflexivity | | exact Hfile].
  rewrite is_dir_with_faults. unfold is_dir in *. rewrite Hd3. exact Hnd3.
Qed.

Lemma other_keys_app key_id l1 l2 :
  other_keys key_id (l1 ++ l2)
  = match other_keys key_id l1, other_keys key_id l2 with
    | inl k1, inl k2 => inl (k1 ++ k2)
    | inl _, inr e => inr e
    | inr e, _ => inr e
    end.
Proof.
  induction l1 as [|k l1 IH]; simpl.
  - destruct (other_keys key_id l2); reflexivity.
  - destruct (subscript k "id") as [id|e]; [|reflexivity]. rewrite IH.
    destruct (other_keys key_id l1) as [k1|e1]; [|reflexivity].
    destruct (other_keys key_id l2) as [k2|e2]; [|reflexivity].
    destruct (negb (Json.eq_str id key_id)); reflexivity.
Qed.

(** X16.  [add_user_key] returns the keys the user had (those of the file
    that holds them, none when there is no such file) followed by an entry
    whose identifier is the first eight hexadecimal digits of the SHA-256
    of the key, and [get_user_keys] reads the list back; deleting that
    identifier afterwards leaves the earlier keys that have another
    identifier. *)
Theorem added_key_is_listed_then_deleted u key_data w keys w1 :
  add_user_key R u key_data w = (Ok (inl keys), w1) ->
  exists old key title,
    match files w !! keys_path R u with
    | Some c => c = Doc (JList old)
    | None => old = []
    end
    /\ dict_get "key" key_data = Some (JStr key)
    /\ dict_get "title" key_data = Some title
    /\ keys = JList (old ++ [JDict [("id", JStr (Py.slice 0 8 (sha256_hexdigest (Py.encode key))));
                                    ("title", title); ("key", JStr key);
                                    ("created_at", JStr timestamp)]])
    /\ get_user_keys R u (with_faults [] w1) = (Ok keys, with_faults [] w1)
    /\ forall kept,
         other_keys (Py.slice 0 8 (sha256_hexdigest (Py.encode key))) old = inl kept ->
         exists w2,
           delete_user_key R u (Py.slice 0 8 (sha256_hexdigest (Py.encode key)))
             (with_faults [] w1)
           = (Ok (inl (JList kept)), w2)
           /\ get_user_keys R u (with_faults [] w2) = (Ok (JList kept), with_faults [] w2).
Proof.
  unfold add_user_key. intros H.
  apply bind_returns in H as (x & w0 & Hp & H). apply part_ok in Hp as (-> & -> & Hc).
  apply bind_returns in H as ([] & wa & Hm & H).
  apply bind_returns in H as (keys0 & wb & Hg & H).
  unfold bindr in H. apply bind_returns in H as (r & wc & Hn & H).
  destruct r as [new|e]; [|unfold ret in H; discriminate].
  unfold new_key, ret, raise in Hn.
  destruct (dict_get "key" key_data) as [[| | |key| |]|] eqn:Hkey; try discriminate.
  destruct (dict_get "title" key_data) as [title|] eqn:Htitle; [|discriminate].
  injection Hn as <- <-.
  destruct keys0 as [| | | |old|]; try discriminate.
  (* the keys that were read *)
  assert (Hold : match files w !! keys_path R u with
                 | Some c => c = Doc (JList old)
                 | None => old = []
                 end).
  { assert (Hlong : is_dir wa (keys_path R u) = is_dir w (keys_path R u) /\ files wa = files w).
    { apply (makedirs_keeps_longer _ _ _ _ Hm). unfold keys_path, user_dir.
      rewrite !length_app. simpl. lia. }
    destruct Hlong as [_ Hfa].
    unfold get_user_keys in Hg. rewrite (bind_ok _ _ _ _ _ (part_pass u _ Hc)) in Hg.
    rewrite (bind_ok _ _ _ _ _ (exists_run _ _)) in Hg.
    destruct (exists_on wa (keys_path R u)) eqn:Ex.
    - apply json_load_ok in Hg as [Hfile _]. rewrite Hfa in Hfile. rewrite Hfile. reflexivity.
    - unfold ret in Hg. injection Hg as <- _. unfold exists_on, is_file in Ex.
      rewrite Hfa in Ex. destruct (files w !! keys_path R u); [discriminate | reflexivity]. }
  apply bind_returns in H as ([] & wd & Hj & H). unfold ret in H. injection H as <- <-.
  set (id := Py.slice 0 8 (sha256_hexdigest (Py.encode key))) in *.
  set (new := JDict [("id", JStr id); ("title", title); ("key", JStr key);
                     ("created_at", JStr timestamp)]) in *.
  (* reading the keys changes nothing *)
  assert (Hb : files wb = files wa /\ dirs wb = dirs wa).
  { unfold get_user_keys in Hg. rewrite (bind_ok _ _ _ _ _ (part_pass u _ Hc)) in Hg.
    rewrite (bind_ok _ _ _ _ _ (exists_run _ _)) in Hg.
    destruct (exists_on wa (keys_path R u));
      [apply (json_load_run _ _ _ _ Hg) | unfold ret in Hg; injection Hg as _ <-; auto]. }
  destruct Hb as [Hfb Hdb].
  apply open_write_ok in Hj as (Hfd & Hdd & Hnd & _).
  assert (Hud : is_dir wd (user_dir R u) = true).
  { unfold is_dir in *. rewrite Hdd, Hdb. apply (makedirs_makes _ _ _ Hm), user_dir_ne. }
  assert (Hkd : is_dir wd (keys_path R u) = false).
  { unfold is_dir in *. rewrite Hdd. exact Hnd. }
  assert (Hfile : files (with_faults [] wd) !! keys_path R u = Some (Doc (JList (old ++ [new])))).
  { simpl. rewrite Hfd. apply lookup_insert_eq. }
  assert (Hget : get_user_keys R u (with_faults [] wd)
                 = (Ok (JList (old ++ [new])), with_faults [] wd)).
  { unfold get_user_keys. rewrite (bind_ok _ _ _ _ _ (part_pass u _ Hc)).
    rewrite (bind_ok _ _ _ _ _ (exists_run _ _)).
    unfold exists_on, is_file. rewrite Hfile. simpl.
    apply json_load_pass; [reflexivity | exact Hkd | exact Hfile]. }
  exists old, key, title. split; [exact Hold|].
  split; [reflexivity|]. split; [reflexivity|]. split; [reflexivity|]. split; [exact Hget|].
  intros kept Hkept. fold id in Hkept |- *.
  assert (Hother : other_keys id (old ++ [new]) = inl kept).
  { rewrite other_keys_app, Hkept. simpl. rewrite String.eqb_refl. simpl.
    rewrite app_nil_r. reflexivity. }
  set (w2 := World (<[keys_path R u := Doc (JList kept)]> (files wd)) (dirs wd) []
               (log wd ++ [EvWrite (keys_path R u) Written])).
  exists w2. split.
  - unfold delete_user_key. rewrite (bind_ok _ _ _ _ _ (part_pass u _ Hc)).
    rewrite (bind_ok _ _ _ _ _ (exists_run _ _)).
    unfold exists_on, is_file. rewrite Hfile. cbn [orb negb].
    rewrite (bind_ok _ _ _ _ _ Hget). cbn [iterate]. rewrite Hother.
    assert (Hw : json_dump (keys_path R u) (JList kept) (with_faults [] wd) = (Ok tt, w2)).
    { unfold json_dump. apply (open_write_pass _ _ (with_faults [] wd)); [reflexivity | exact Hkd|].
      unfold keys_path. rewrite parent_user_file. exact Hud. }
    rewrite (bind_ok _ _ _ _ _ Hw). reflexivity.
  - unfold get_user_keys. rewrite (bind_ok _ _ _ _ _ (part_pass u _ Hc)).
    rewrite (bind_ok _ _ _ _ _ (exists_run _ _)).
    assert (Hfile2 : files (with_faults [] w2) !! keys_path R u = Some (Doc (JList kept))).
    { simpl. apply lookup_insert_eq. }
    unfold exists_on, is_file. rewrite Hfile2. simpl.
    apply json_load_pass; [reflexivity | exact Hkd | exact Hfile2].
Qed.
End Root.

Lemma user_2fa_is_read_back_witness :
  get_user_2fa root "admin"
    (with_faults [] (snd (update_user_2fa root "admin" true (Some "JBSWY3DPEHPK3PXP") fresh_disk)))
  = (Ok (JDict [("enabled", JBool true); ("secret", JStr "JBSWY3DPEHPK3PXP")]),
     with_faults [] (snd (update_user_2fa root "admin" true (Some "JBSWY3DPEHPK3PXP") fresh_disk))).
Proof.
  destruct (user_2fa_is_read_back root "admin" true (Some "JBSWY3DPEHPK3PXP") fresh_disk
              (JDict [("enabled", JBool true); ("secret", JStr "JBSWY3DPEHPK3PXP")])
              (snd (update_user_2fa root "admin" true (Some "JBSWY3DPEHPK3PXP") fresh_disk)))
    as (_ & Hget & _).
  - apply (run_eq (update_user_2fa root "admin" true (Some "JBSWY3DPEHPK3PXP") fresh_disk)).
    vm_compute. reflexivity.
  - exact Hget.
Defined.

Lemma password_hash_is_read_back_witness :
  PySpec.nonspace "$2b$12$KIXQJ1nT0pFf3yq9VbN7Zu" = true
  /\ get_persisted_password_hash root "admin"
       (with_faults []
          (snd (update_user_password root "admin" "$2b$12$KIXQJ1nT0pFf3yq9VbN7Zu" fresh_disk)))
     = (Ok (Some "$2b$12$KIXQJ1nT0pFf3yq9VbN7Zu"),
        with_faults []
          (snd (update_user_password root "admin" "$2b$12$KIXQJ1nT0pFf3yq9VbN7Zu" fresh_disk))).
Proof.
  assert (Hns : PySpec.nonspace "$2b$12$KIXQJ1nT0pFf3yq9VbN7Zu" = true) by reflexivity.
  split; [exact Hns|].
  apply (password_hash_is_read_back root "admin" "$2b$12$KIXQJ1nT0pFf3yq9VbN7Zu" fresh_disk
           _ Hns).
  apply (run_eq (update_user_password root "admin" "$2b$12$KIXQJ1nT0pFf3yq9VbN7Zu" fresh_disk)).
  vm_compute. reflexivity.
Defined.

Lemma profile_update_merges_witness :
  NoDup ([("bio", JStr "Builds compilers"); ("location", JStr "Chennai")].*1)
  /\ exists cur w',
       update_user_profile root "admin"
         [("bio", JStr "Builds compilers"); ("location", JStr "Chennai")] fresh_disk
       = (Ok cur, w')
       /\ get_user_profile root "admin" (with_faults [] w') = (Ok cur, with_faults [] w').
Proof.
  assert (Hnd : NoDup ([("bio", JStr "Builds compilers"); ("location", JStr "Chennai")].*1))
    by (apply (bool_decide_unpack _); vm_compute; exact I).
  split; [exact Hnd|].
  destruct (update_user_profile root "admin"
              [("bio", JStr "Builds compilers"); ("location", JStr "Chennai")] fresh_disk)
    as [[cur|e] w'] eqn:E; [|vm_compute in E; discriminate].
  exists cur, w'. split; [reflexivity|].
  destruct (profile_update_merges root "admin" _ fresh_disk cur w' Hnd E)
    as (old & _ & _ & _ & Hget).
  exact Hget.
Defined.

Lemma added_key_is_listed_then_deleted_witness :
  exists first second,
    fst first_key_run = Ok (inl (JList [first]))
    /\ files (snd first_key_run) !! keys_path root "admin" = Some (Doc (JList [first]))
    /\ fst second_key_run = Ok (inl (JList [first; second]))
    /\ get_user_keys root "admin" (with_faults [] (snd second_key_run))
       = (Ok (JList [first; second]), with_faults [] (snd second_key_run)).
Proof.
  eexists _, _.
  split; [vm_compute; reflexivity|].
  split; [vm_compute; reflexivity|].
  split; [vm_compute; reflexivity|].
  match goal with
  | |- get_user_keys _ _ _ = (Ok ?k, _) =>
      destruct (added_key_is_listed_then_deleted root "admin"
                  [("title", JStr "desk"); ("key", JStr "ssh-ed25519 AAAAC3Nzb")]
                  (with_faults [] (snd first_key_run)) k (snd second_key_run))
        as (old & key & title & _ & _ & _ & _ & Hget & _)
  end.
  - apply (run_eq second_key_run). vm_compute. reflexivity.
  - exact Hget.
Defined.

End SvcsUsersFacts.

(** ** Identifiers as names of files *)

Module NameFacts.
Import NameSpec Paths FingerprintFacts.

Lemma all_chars_app P (a b : string) :
  all_chars P (a +:+ b) = all_chars P a && all_chars P b.
Proof.
  induction a as [|c a IH]; [reflexivity|].
  rewrite str_app_cons. simpl. rewrite IH. apply andb_assoc.
Qed.

Lemma contains_all_chars P (c : ascii) (s : string) :
  P c = false -> all_chars P s = true -> Py.contains c s = false.
Proof.
  intros Hc. induction s as [|d s IH]; simpl; [reflexivity|].
  intros H. apply andb_true_iff in H as [Hd Hs]. rewrite (IH Hs), orb_false_r.
  destruct (Ascii.eqb c d) eqn:E; [|reflexivity].
  apply Ascii.eqb_eq in E. congruence.
Qed.

(** A name made of such characters, followed by an extension, names one
    entry of a directory. *)
Lemma component_name (s ext : string) :
  all_chars namechar s = true -> s <> "" ->
  Py.contains "/" ext = false -> Py.contains NUL ext = false ->
  component (s +:+ ext) = true.
Proof.
  intros Hs Hne H1 H2. unfold component.
  rewrite !contains_app, H1, H2.
  rewrite (contains_all_chars namechar "/" s), (contains_all_chars namechar NUL s);
    [| reflexivity | exact Hs | reflexivity | exact Hs].
  destruct s as [|c s]; [contradiction|]. rewrite str_app_cons.
  simpl in Hs. apply andb_true_iff in Hs as [Hc _].
  unfold namechar in Hc. apply andb_true_iff in Hc as [_ Hc]. apply negb_true_iff in Hc.
  simpl. rewrite Hc. reflexivity.
Qed.

Lemma hex_digits_namechar (b : byte) :
  namechar (Py.hex_digit (N.shiftr (Byte.to_N b) 4)) = true
  /\ namechar (Py.hex_digit (N.land (Byte.to_N b) 15)) = true.
Proof. destruct b; split; reflexivity. Qed.

Lemma hex_of_bytes_namechar (bs : list byte) : all_chars namechar (Py.hex_of_bytes bs) = true.
Proof.
  induction bs as [|b bs IH]; [reflexivity|].
  destruct (hex_digits_namechar b) as [H1 H2].
  cbn [Py.hex_of_bytes all_chars]. rewrite H1, H2, IH. reflexivity.
Qed.

Lemma flat_map_be_bytes_length (l : list Z) :
  length (flat_map (SHA256.be_bytes 4) l) = 4 * length l.
Proof.
  induction l as [|x l IH]; [reflexivity|].
  cbn [flat_map]. rewrite length_app, IH. cbn [length SHA256.be_bytes]. lia.
Qed.

Lemma blocks_length (fuel : nat) :
  forall h bs, length h = 8 -> length (SHA256.blocks fuel h bs) = 8.
Proof.
  induction fuel as [|fuel IH]; intros h bs Hh; [exact Hh|].
  cbn [SHA256.blocks]. destruct bs as [|b bs]; [exact Hh|].
  apply IH. reflexivity.
Qed.

Lemma digest_length (msg : list byte) : length (SHA256.digest msg) = 32.
Proof.
  unfold SHA256.digest. rewrite length_map, flat_map_be_bytes_length, blocks_length; reflexivity.
Qed.

(** A digest in hexadecimal: its first four characters and the rest. *)
Lemma hexdigest_shape (msg : list byte) :
  exists b1 b2 rest,
    sha256_hexdigest msg
    = String (Py.hex_digit (N.shiftr (Byte.to_N b1) 4))
        (String (Py.hex_digit (N.land (Byte.to_N b1) 15))
           (String (Py.hex_digit (N.shiftr (Byte.to_N b2) 4))
              (String (Py.hex_digit (N.land (Byte.to_N b2) 15)) rest))).
Proof.
  unfold sha256_hexdigest. pose proof (digest_length msg) as Hlen.
  destruct (SHA256.digest msg) as [|b1 [|b2 r]]; try discriminate.
  exists b1, b2, (Py.hex_of_bytes r). reflexivity.
Qed.

Lemma hexdigest_namechar (msg : list byte) : all_chars namechar (sha256_hexdigest msg) = true.
Proof. apply hex_of_bytes_namechar. Qed.

Lemma hexdigest_ne (msg : list byte) : sha256_hexdigest msg <> "".
Proof. destruct (hexdigest_shape msg) as (b1 & b2 & rest & ->). discriminate. Qed.

Lemma hexdigest_components (msg : list byte) (ext : string) :
  Py.contains "/" ext = false -> Py.contains NUL ext = false ->
  component (Py.slice 0 2 (sha256_hexdigest msg)) = true
  /\ component (Py.slice 2 4 (sha256_hexdigest msg)) = true
  /\ component (sha256_hexdigest msg +:+ ext) = true.
Proof.
  intros H1 H2.
  split; [|split; [|apply component_name; auto using hexdigest_namechar, hexdigest_ne]].
  - destruct (hexdigest_shape msg) as (b1 & b2 & rest & ->).
    destruct (hex_digits_namechar b1) as [Ha Hb].
    change (Py.slice 0 2 _)
      with (String (Py.hex_digit (N.shiftr (Byte.to_N b1) 4))
              (String (Py.hex_digit (N.land (Byte.to_N b1) 15)) "") +:+ "").
    apply component_name; [simpl; rewrite Ha, Hb; reflexivity | discriminate | reflexivity..].
  - destruct (hexdigest_shape msg) as (b1 & b2 & rest & ->).
    destruct (hex_digits_namechar b2) as [Ha Hb].
    assert (Hs : Py.slice 2 4
                   (String (Py.hex_digit (N.shiftr (Byte.to_N b1) 4))
                      (String (Py.hex_digit (N.land (Byte.to_N b1) 15))
                         (String (Py.hex_digit (N.shiftr (Byte.to_N b2) 4))
                            (String (Py.hex_digit (N.land (Byte.to_N b2) 15)) rest))))
                 = String (Py.hex_digit (N.shiftr (Byte.to_N b2) 4))
                     (String (Py.hex_digit (N.land (Byte.to_N b2) 15)) "") +:+ "")
      by (destruct rest; reflexivity).
    rewrite Hs.
    apply component_name; [simpl; rewrite Ha, Hb; reflexivity | discriminate | reflexivity..].
Qed.

Lemma digit_namechar (n : N) : (n < 10)%N -> namechar (Py.digit n) = true.
Proof.
  intros H.
  assert (Hn : In n [0; 1; 2; 3; 4; 5; 6; 7; 8; 9]%N).
  { destruct n as [|p]; [left; reflexivity|].
    do 4 (try destruct p as [p|p|]); simpl; try lia; tauto. }
  simpl in Hn.
  repeat (destruct Hn as [<-|Hn]; [reflexivity|]). contradiction.
Qed.

Lemma dec_go_namechar (fuel : nat) :
  forall n acc, all_chars namechar acc = true -> all_chars namechar (Py.dec_go fuel n acc) = true.
Proof.
  induction fuel as [|fuel IH]; intros n acc Hacc; simpl; [exact Hacc|].
  assert (Hd : all_chars namechar (String (Py.digit (n mod 10)) acc) = true).
  { simpl. rewrite digit_namechar, Hacc; [reflexivity|]. apply N.mod_lt. discriminate. }
  destruct (n <? 10)%N; [exact Hd | apply IH, Hd].
Qed.

(** The identifier of a snapshot names a file. *)
Lemma snapshot_id_component tree_id parent sid :
  Svcs.snapshot_id_of tree_id parent = Some sid -> component (sid +:+ ".json") = true.
Proof.
  unfold Svcs.snapshot_id_of. destruct (Py.int16 _) as [n|]; [|discriminate].
  intros [= <-]. apply component_name; [|discriminate|reflexivity..].
  rewrite all_chars_app. simpl. apply dec_go_namechar. reflexivity.
Qed.

End NameFacts.

(** ** A snapshot that was saved, read through the router *)

Module SnapshotFacts.
Import Svcs SvcsSpec FSSpec FSFacts RunFacts Paths Raised Dyn SvcsFacts RepoRouter.
Import NameSpec NameFacts BlobSpec.

Lemma prefix_of (p q : path) : q ∈ prefixes p -> exists rest, q ++ rest = p.
Proof.
  unfold prefixes. intros H. apply list_elem_of_fmap in H as (n & -> & _).
  exists (skipn n p). apply firstn_skipn.
Qed.

Lemma read_work_file_ok data w b w' :
  read_work_file data w = (Ok b, w') -> b = data /\ files w' = files w /\ dirs w' = dirs w.
Proof.
  unfold read_work_file. pop w f w1. unfold ret, raise. intros H.
  destruct f; try discriminate. injection H as <- <-. auto.
Qed.

Lemma read_bytes_keeps p w r w' :
  read_bytes p w = (r, w') -> files w' = files w /\ dirs w' = dirs w.
Proof.
  unfold read_bytes. pop w f w1. unfold bind, get_world, raise, ret.
  destruct f; try (intros [= _ <-]; auto).
  destruct (is_dir w1 p); [intros [= _ <-]; auto|].
  destruct (files w1 !! p) as [c|]; intros [= _ <-]; auto.
Qed.

Lemma read_text_keeps p w r w' :
  read_text p w = (r, w') -> files w' = files w /\ dirs w' = dirs w.
Proof.
  unfold read_text, bind. destruct (read_bytes p w) as [[b|e] w1] eqn:E.
  - apply read_bytes_keeps in E. unfold ret, raise.
    destruct (Py.decode b); intros [= _ <-]; exact E.
  - apply read_bytes_keeps in E. intros [= _ <-]. exact E.
Qed.

Lemma _lock_repo_ok rp w fd w' :
  _lock_repo rp w = (Ok fd, w') ->
  is_dir w rp = true /\ dirs w' = dirs w
  /\ (files w' = files w \/ files w' = <[rp ++ ["repo.lock"] := Data []]> (files w)).
Proof.
  unfold _lock_repo. pop w f w1. intros H.
  destruct f; try discriminate.
  unfold bind, get_world, raise, ret, set_file in H.
  assert (Hdir : forall q, is_dir w1 q = is_dir w q).
  { intros q. unfold is_dir. rewrite Hd. reflexivity. }
  rewrite !Hdir in H.
  destruct (is_dir w (rp ++ ["repo.lock"])); [discriminate|].
  destruct (is_dir w rp); [|discriminate]. simpl in H.
  destruct (is_file w1 (rp ++ ["repo.lock"])); injection H as _ <-; simpl; rewrite ?Hf; auto.
Qed.

Section Runs.
Variable R : path.
Variable repo : string.

Lemma grows_refl w w' : dirs w' = dirs w -> grows R repo w w'.
Proof. intros H q Hq. left. rewrite <- H. exact Hq. Qed.

Lemma grows_trans w1 w2 w3 : grows R repo w1 w2 -> grows R repo w2 w3 -> grows R repo w1 w3.
Proof.
  intros H12 H23 q Hq. destruct (H23 q Hq) as [H|H]; [apply H12, H | right; exact H].
Qed.

Lemma makedirs_grows p w w' :
  made_dir R repo p -> makedirs p w = (Ok tt, w') -> grows R repo w w'.
Proof.
  intros (rest & Hp) H q Hq. apply makedirs_ok in H as [_ Hd].
  apply Hd in Hq as [Hq|Hq]; [left; exact Hq|]. right.
  apply prefix_of in Hq as (rest1 & <-). exists (rest1 ++ rest).
  rewrite app_assoc. exact Hp.
Qed.

Lemma made_dir_blobs : made_dir R repo (blobs_dir R repo).
Proof.
  exists [""; ""]. right. right. exists "". reflexivity.
Qed.

Lemma made_dir_blob_sub id : made_dir R repo (blob_sub (blobs_dir R repo) id).
Proof. exists []. right. right. exists id. apply app_nil_r. Qed.

Lemma made_dir_trees : made_dir R repo (trees_dir R repo).
Proof. exists []. left. apply app_nil_r. Qed.

Lemma made_dir_snapshots : made_dir R repo (snapshots_dir R repo).
Proof. exists []. right. left. apply app_nil_r. Qed.

Ltac made_neq H :=
  unfold blob_file, blob_sub, tree_file, snapshot_file, blobs_dir, trees_dir, snapshots_dir,
    repo_path in H;
  rewrite <- ?app_assoc in H; simpl in H;
  repeat (apply app_inv_head in H); discriminate.

Lemma made_dir_not_blob id : ~ made_dir R repo (blob_file (blobs_dir R repo) id).
Proof. intros (rest & [H|[H|[id' H]]]); made_neq H. Qed.

Lemma made_dir_not_tree id : ~ made_dir R repo (tree_file (trees_dir R repo) id).
Proof. intros (rest & [H|[H|[id' H]]]); made_neq H. Qed.

Lemma made_dir_not_snapshot id : ~ made_dir R repo (snapshot_file (snapshots_dir R repo) id).
Proof. intros (rest & [H|[H|[id' H]]]); made_neq H. Qed.

Lemma grows_not_dir w w' p :
  grows R repo w w' -> ~ made_dir R repo p -> is_dir w p = false -> is_dir w' p = false.
Proof.
  intros Hg Hm Hd. destruct p as [|c p]; [discriminate|].
  simpl in *. apply bool_decide_eq_false. apply bool_decide_eq_false in Hd.
  intros Hin. destruct (Hg _ Hin) as [H|H]; [exact (Hd H) | exact (Hm H)].
Qed.

Lemma blob_file_inj bd id id' : blob_file bd id = blob_file bd id' -> id = id'.
Proof.
  unfold blob_file. intros H. apply app_inj_tail in H as [_ H].
  apply str_app_inv_tail in H. exact H.
Qed.


Lemma hashed_same w w' : files w' = files w -> hashed R repo w -> hashed R repo w'.
Proof. unfold hashed. intros ->. auto. Qed.

Lemma hashed_insert w w' p c :
  files w' = <[p := c]> (files w) ->
  (forall id, p = blob_file (blobs_dir R repo) id -> _hash_content (content_bytes c) = id) ->
  hashed R repo w -> hashed R repo w'.
Proof.
  unfold hashed. intros -> Hp H id c' Hc'.
  destruct (decide (p = blob_file (blobs_dir R repo) id)) as [Heq|Hne].
  - rewrite Heq, lookup_insert_eq in Hc'. injection Hc' as <-. apply Hp, Heq.
  - rewrite lookup_insert_ne in Hc' by exact Hne. apply (H _ _ Hc').
Qed.

Lemma sound_of w w' :
  sound w (blobs_dir R repo) -> grows R repo w w' -> hashed R repo w' -> sound w' (blobs_dir R repo).
Proof.
  intros Hs Hg Hh id. split; [|apply Hh].
  apply (grows_not_dir w w'); [exact Hg | apply made_dir_not_blob | apply Hs].
Qed.

Lemma sound_hashed w : sound w (blobs_dir R repo) -> hashed R repo w.
Proof. intros Hs id. apply Hs. Qed.

(** One file of the working directory: the directories that may appear,
    and the blob, found there or written. *)
Lemma build_tree_step_ok entries f w entries' w' :
  build_tree_step (blobs_dir R repo) entries f w = (Ok entries', w') ->
  grows R repo w w'
  /\ exists_on w' (blob_file (blobs_dir R repo) (_hash_content (snd f))) = true
  /\ (files w' = files w
      \/ files w' = <[blob_file (blobs_dir R repo) (_hash_content (snd f)) := Data (snd f)]>
                      (files w)).
Proof.
  unfold build_tree_step. intros H.
  apply bind_returns in H as (data & w1 & Hr & H). apply read_work_file_ok in Hr as (-> & Hf1 & Hd1).
  apply bind_returns in H as ([] & w2 & Hm & H).
  pose proof (makedirs_grows _ _ _ (made_dir_blob_sub _) Hm) as Hg.
  apply makedirs_ok in Hm as [Hf2 _].
  apply bind_returns in H as (present & w3 & He & H). unfold exists_ in He. injection He as <- <-.
  fold (exists_on w2 (blob_file (blobs_dir R repo) (_hash_content (snd f)))) in H.
  assert (Hg1 : grows R repo w w2).
  { apply (grows_trans w w1 w2); [apply grows_refl, Hd1 | exact Hg]. }
  destruct (exists_on w2 (blob_file (blobs_dir R repo) (_hash_content (snd f)))) eqn:Ex.
  - unfold bind, ret in H. injection H as _ <-.
    split; [exact Hg1|]. split; [exact Ex|]. left. congruence.
  - apply bind_returns in H as ([] & w4 & Hw & H). unfold ret in H. injection H as _ <-.
    apply open_write_ok in Hw as (Hf4 & Hd4 & _).
    split; [apply (grows_trans w w2 w4); [exact Hg1 | apply grows_refl, Hd4]|].
    split; [unfold exists_on, is_file; rewrite Hf4, lookup_insert_eq; reflexivity|].
    right. rewrite Hf4, Hf2, Hf1. reflexivity.
Qed.

Lemma foldM_build_ok l :
  forall entries w entries' w',
    foldM (build_tree_step (blobs_dir R repo)) l entries w = (Ok entries', w') ->
    grows R repo w w'
    /\ (sound w (blobs_dir R repo) ->
        hashed R repo w'
        /\ forall f, f ∈ l ->
             is_Some (files w' !! blob_file (blobs_dir R repo) (_hash_content (snd f)))).
Proof.
  induction l as [|f l IH]; intros entries w entries' w' H; simpl in H.
  - unfold ret in H. injection H as _ <-. split; [apply grows_refl; reflexivity|].
    intros Hs. split; [apply sound_hashed, Hs|]. intros f Hf. inversion Hf.
  - apply bind_returns in H as (e1 & w1 & Hstep & H).
    pose proof (foldM_build_run _ _ _ _ _ _ H) as (evs & T & _).
    apply build_tree_step_ok in Hstep as (Hg1 & Hex & Hfiles).
    apply IH in H as (Hg2 & K).
    split; [apply (grows_trans w w1 w'); assumption|].
    intros Hs.
    assert (Hh1 : hashed R repo w1).
    { destruct Hfiles as [Hsame|Hins].
      - apply (hashed_same w); [exact Hsame | apply sound_hashed, Hs].
      - apply (hashed_insert w w1 _ _ Hins); [|apply sound_hashed, Hs].
        intros id Hid. apply blob_file_inj in Hid. exact Hid. }
    pose proof (sound_of w w1 Hs Hg1 Hh1) as Hs1.
    destruct (K Hs1) as [Hh Hall]. split; [exact Hh|].
    intros g Hg. apply elem_of_cons in Hg as [->|Hg]; [|apply Hall, Hg].
    destruct T as (_ & _ & M & _). apply M.
    unfold exists_on, is_file in Hex. destruct (Hs1 (_hash_content (snd f))) as [Hnd _].
    rewrite Hnd, orb_false_r in Hex.
    destruct (files w1 !! blob_file (blobs_dir R repo) (_hash_content (snd f)));
      [eauto | discriminate].
Qed.

Lemma _build_tree_ok wd w tree w' :
  _build_tree wd (blobs_dir R repo) w = (Ok tree, w') ->
  tree = tree_of wd
  /\ grows R repo w w'
  /\ (sound w (blobs_dir R repo) ->
      hashed R repo w'
      /\ forall f, f ∈ walk [] wd ->
           is_Some (files w' !! blob_file (blobs_dir R repo) (_hash_content (snd f))))
  /\ dirs w ⊆ dirs w'.
Proof.
  intros H. pose proof (_build_tree_run _ _ _ _ _ H) as (evs & T & _ & K).
  destruct (K _ eq_refl) as (Htree & _).
  unfold _build_tree in H. apply bind_returns in H as (entries & w1 & Hfold & H).
  assert (Hw : w1 = w') by (unfold ret in H; inversion H; auto). subst w1.
  apply foldM_build_ok in Hfold as (G & K').
  split; [exact Htree|]. split; [exact G|]. split; [exact K'|]. apply T.
Qed.

Lemma _store_tree_ok tree td w tree_id w' :
  _store_tree tree td w = (Ok tree_id, w') ->
  tree_id = tree_hash tree
  /\ files w' = <[tree_file td (tree_hash tree) := Doc tree]> (files w)
  /\ dirs w' = dirs w
  /\ is_dir w (tree_file td (tree_hash tree)) = false.
Proof.
  unfold _store_tree. fold (tree_hash tree). generalize (tree_hash tree) as h. intros h H.
  apply bind_returns in H as ([] & w1 & Hw & H).
  assert (Hend : tree_id = h /\ w1 = w') by (unfold ret in H; inversion H; auto).
  destruct Hend as [-> ->].
  apply open_write_ok in Hw as (Hf & Hd & Hnd & _). auto.
Qed.

(** What a successful [save_snapshot] leaves of the directories and of the
    blobs. *)
Lemma save_snapshot_stages msg wd w sid w' :
  save_snapshot R repo msg wd w = (Ok sid, w') ->
  grows R repo w w'
  /\ is_dir w' (repo_path R repo) = true
  /\ is_dir w' (tree_file (trees_dir R repo) (tree_id_of wd)) = false
  /\ is_dir w' (snapshot_file (snapshots_dir R repo) sid) = false
  /\ (sound w (blobs_dir R repo) ->
      sound w' (blobs_dir R repo)
      /\ forall f, f ∈ walk [] wd ->
           is_Some (files w' !! blob_file (blobs_dir R repo) (_hash_content (snd f)))).
Proof.
  unfold save_snapshot. intros H.
  apply bind_returns in H as (fd & w0 & Hlock & H).
  unfold _unlock_repo in H. rewrite try_finally_ret in H.
  apply _lock_repo_ok in Hlock as (Hrepo & Hd0 & Hf0).
  unfold save_snapshot_locked in H.
  apply bind_returns in H as (present & wa & He & H). unfold exists_ in He. injection He as <- <-.
  apply bind_returns in H as (parent & w1 & Hp & H).
  assert (Hk1 : files w1 = files w0 /\ dirs w1 = dirs w0).
  { destruct (is_file w0 (ref_path R repo) || is_dir w0 (ref_path R repo)).
    - apply bind_returns in Hp as (s & wb & Hr & Hp). unfold ret in Hp. injection Hp as _ <-.
      apply (read_text_keeps _ _ _ _ Hr).
    - unfold ret in Hp. injection Hp as _ <-. auto. }
  destruct Hk1 as [Hf1 Hd1].
  apply bind_returns in H as ([] & w2 & Hm2 & H).
  apply bind_returns in H as ([] & w3 & Hm3 & H).
  apply bind_returns in H as ([] & w4 & Hm4 & H).
  apply bind_returns in H as (tree & w5 & Hb & H).
  apply _build_tree_ok in Hb as (-> & G5 & K5 & D5).
  apply bind_returns in H as (tree_id & w6 & Hs & H).
  apply _store_tree_ok in Hs as (-> & Hf6 & Hd6 & Hnd6).
  fold (tree_id_of wd) in *.
  destruct (snapshot_id_of (tree_id_of wd) parent) as [sid'|] eqn:Hsid; [|discriminate].
  apply bind_returns in H as ([] & w7 & Hj & H).
  apply bind_returns in H as ([] & w8 & Hw & H).
  assert (Hend : sid' = sid /\ w8 = w') by (unfold ret in H; inversion H; auto).
  destruct Hend as [-> ->].
  (* the directories *)
  pose proof (makedirs_grows _ _ _ made_dir_blobs Hm2) as G2.
  pose proof (makedirs_grows _ _ _ made_dir_trees Hm3) as G3.
  pose proof (makedirs_grows _ _ _ made_dir_snapshots Hm4) as G4.
  apply makedirs_ok in Hm2 as [Hf2 Hd2], Hm3 as [Hf3 Hd3], Hm4 as [Hf4 Hd4].
  apply open_write_ok in Hj as (Hf7 & Hd7 & Hnd7 & _).
  apply open_write_ok in Hw as (Hf8 & Hd8 & _).
  assert (G04 : grows R repo w w4).
  { apply (grows_trans w w1 w4); [apply grows_refl; congruence|].
    apply (grows_trans w1 w2 w4); [exact G2|].
    apply (grows_trans w2 w3 w4); assumption. }
  assert (G08 : grows R repo w w').
  { apply (grows_trans w w4 w'); [exact G04|].
    apply (grows_trans w4 w5 w'); [exact G5 | apply grows_refl; congruence]. }
  split; [exact G08|]. split.
  { (* the repository *)
    apply in_dir. rewrite Hd8, Hd7, Hd6.
    assert (Hsub : forall q, q ∈ dirs w -> q ∈ dirs w4).
    { intros q Hq. apply Hd4. left. apply Hd3. left. apply Hd2. left. congruence. }
    assert (Hin : repo_path R repo ∈ dirs w).
    { unfold repo_path in *. destruct R; simpl in Hrepo; apply bool_decide_eq_true in Hrepo;
        exact Hrepo. }
    apply D5, Hsub, Hin. }
  split.
  { unfold is_dir in *. rewrite Hd8, Hd7, Hd6. exact Hnd6. }
  split.
  { unfold is_dir in *. rewrite Hd8, Hd7. exact Hnd7. }
  intros Hsound.
  assert (Hs4 : sound w4 (blobs_dir R repo)).
  { apply (sound_of w w4 Hsound G04).
    assert (Hh0 : hashed R repo w0).
    { destruct Hf0 as [Hsame|Hins].
      - apply (hashed_same w); [exact Hsame | apply sound_hashed, Hsound].
      - apply (hashed_insert w w0 _ _ Hins); [|apply sound_hashed, Hsound].
        intros id Hid. exfalso. revert Hid. path_neq. }
    apply (hashed_same w0); [congruence | exact Hh0]. }
  destruct (K5 Hs4) as [Hh5 Hall].
  assert (Hh8 : hashed R repo w').
  { apply (hashed_insert w7 w' _ _ Hf8); [intros id Hid; exfalso; revert Hid; path_neq|].
    apply (hashed_insert w6 w7 _ _ Hf7); [intros id Hid; exfalso; revert Hid; path_neq|].
    apply (hashed_insert w5 w6 _ _ Hf6); [intros id Hid; exfalso; revert Hid; path_neq|].
    exact Hh5. }
  split; [apply (sound_of w w' Hsound G08 Hh8)|].
  intros f Hf. specialize (Hall f Hf).
  rewrite Hf8, lookup_insert_ne by path_neq.
  rewrite Hf7, lookup_insert_ne by path_neq.
  rewrite Hf6, lookup_insert_ne by path_neq.
  exact Hall.
Qed.

(** A successful [save_snapshot] changes no file but the lock, the blobs,
    the tree, the snapshot and [refs/main]. *)
Lemma save_snapshot_frame msg wd w sid w' p :
  save_snapshot R repo msg wd w = (Ok sid, w') ->
  p <> lock_path R repo -> (forall id, p <> blob_file (blobs_dir R repo) id) ->
  p <> tree_file (trees_dir R repo) (tree_id_of wd) ->
  p <> snapshot_file (snapshots_dir R repo) sid -> p <> ref_path R repo ->
  files w' !! p = files w !! p.
Proof.
  intros H Hl Hb Ht Hs Hr.
  apply save_snapshot_run in H as [([e He] & _)|Hreach]; [discriminate|].
  destruct Hreach.
  destruct o; try (destruct Hout as [[e He] _]; discriminate).
  destruct Hout as [[= <-] _].
  pose proof (trans_app _ _ _ _ _ Hpre Href) as T.
  apply (trans_frame _ _ _ _ T).
  rewrite fmap_app. intros Hin. apply elem_of_app in Hin as [Hin|Hin].
  - apply list_elem_of_fmap in Hin as (ev & Hp & Hin).
    rewrite Forall_forall in Hobj. destruct (Hobj ev Hin) as [_ [Hx|[[b Hx]|[Hx|Hx]]]];
      rewrite <- Hp in Hx.
    + exact (Hl Hx).
    + exact (Hb _ Hx).
    + exact (Ht Hx).
    + exact (Hs Hx).
  - simpl in Hin. apply list_elem_of_singleton in Hin. exact (Hr Hin).
Qed.

End Runs.

(** The entry of a file in the tree of a working directory. *)
Lemma tree_step_get_other (l : list (string * list byte)) :
  forall acc k, k ∉ l.*1 ->
    dict_get k (fold_left tree_step l acc) = dict_get k acc.
Proof.
  induction l as [|f l IH]; intros acc k Hk; simpl; [reflexivity|].
  rewrite fmap_cons in Hk. apply not_elem_of_cons in Hk as [Hne Hk].
  rewrite (IH _ _ Hk). unfold tree_step. apply dict_get_set_ne. exact Hne.
Qed.

Lemma tree_step_get (l : list (string * list byte)) :
  forall acc k data, NoDup (l.*1) -> (k, data) ∈ l ->
    dict_get k (fold_left tree_step l acc) = Some (blob_entry (_hash_content data)).
Proof.
  induction l as [|f l IH]; intros acc k data Hnd Hin; [inversion Hin|].
  rewrite fmap_cons in Hnd. apply NoDup_cons in Hnd as [Hf Hnd].
  apply elem_of_cons in Hin as [<-|Hin]; simpl.
  - rewrite tree_step_get_other by exact Hf. unfold tree_step. apply dict_get_set_eq.
  - apply IH; assumption.
Qed.

Section Served.
Variable R : path.

(** After a successful [save_snapshot], the router finds the repository,
    the snapshot and its tree. *)
Lemma snapshot_tree_after_save repo msg wd w sid w' :
  component repo = true ->
  save_snapshot R repo msg wd w = (Ok sid, w') ->
  check_repo_access R repo (with_faults [] w') = (Ok (inl repo), with_faults [] w')
  /\ snapshot_tree R sid repo (with_faults [] w')
     = (Ok (inl (tree_of wd)), with_faults [] w').
Proof.
  intros Hc H.
  pose proof (save_snapshot_stages R repo msg wd w sid w' H) as (_ & Hrepo & Htd & Hsd & _).
  apply save_snapshot_ok in H as (parent & _ & Hsid & _ & Hsnap & Htree & _).
  split.
  - unfold check_repo_access. rewrite (bind_ok _ _ _ _ _ (part_pass repo _ Hc)).
    rewrite (bind_ok _ _ _ _ _ (exists_run _ _)).
    unfold exists_on. rewrite is_dir_with_faults, Hrepo, orb_true_r. reflexivity.
  - unfold snapshot_tree. rewrite (bind_ok _ _ _ _ _ (part_pass repo _ Hc)).
    rewrite (bind_ok _ _ _ _ _ (part_pass _ _ (snapshot_id_component _ _ _ Hsid))).
    fold (snapshot_file (snapshots_dir R repo) sid).
    rewrite (bind_ok _ _ _ _ _ (exists_run _ _)).
    assert (Hs' : files (with_faults [] w') !! snapshot_file (snapshots_dir R repo) sid
                  = Some (Doc (snapshot_doc sid (tree_id_of wd) parent msg))) by exact Hsnap.
    unfold exists_on at 1, is_file. rewrite Hs'. cbn [orb negb].
    rewrite (bind_ok _ _ _ _ _
               (json_load_pass _ _ (with_faults [] w') eq_refl Hsd Hs')).
    cbn [snapshot_doc subscript dict_get String.eqb Ascii.eqb Bool.eqb format_id].
    destruct (hexdigest_components (Py.encode (Json.dumps true (tree_of wd))) ".json"
                eq_refl eq_refl) as (_ & _ & Hct).
    fold (tree_hash (tree_of wd)) in Hct. fold (tree_id_of wd) in Hct.
    rewrite (bind_ok _ _ _ _ _ (part_pass _ _ Hct)).
    fold (tree_file (trees_dir R repo) (tree_id_of wd)).
    rewrite (bind_ok _ _ _ _ _ (exists_run _ _)).
    assert (Ht' : files (with_faults [] w') !! tree_file (trees_dir R repo) (tree_id_of wd)
                  = Some (Doc (tree_of wd))) by exact Htree.
    unfold exists_on at 1, is_file. rewrite Ht'. cbn [orb negb].
    rewrite (bind_ok _ _ _ _ _
               (json_load_pass _ _ (with_faults [] w') eq_refl Htd Ht')).
    reflexivity.
Qed.

Lemma blob_file_length repo id : length (blob_file (blobs_dir R repo) id) = length R + 6.
Proof.
  unfold blob_file, blob_sub, blobs_dir, repo_path. rewrite !length_app. simpl. lia.
Qed.

(** A disk without files, whose directories are no deeper than the root,
    has sound blobs. *)
Lemma sound_empty repo w :
  files w = ∅ -> (forall q, q ∈ dirs w -> length q <= length R) ->
  sound w (blobs_dir R repo).
Proof.
  intros Hf Hd id. split.
  - apply not_dir.
    + intros Heq. apply (f_equal (@length string)) in Heq.
      rewrite blob_file_length in Heq. simpl in Heq. lia.
    + intros Hin. apply Hd in Hin. rewrite blob_file_length in Hin. lia.
  - intros c Hc. rewrite Hf, lookup_empty in Hc. discriminate.
Qed.

(** [init_repo] keeps the blobs sound. *)
Lemma init_repo_sound repo w p w' fl :
  init_repo R repo w = (Ok p, w') -> sound w (blobs_dir R repo) ->
  sound (with_faults fl w') (blobs_dir R repo).
Proof.
  intros H Hs id.
  pose proof (init_repo_ok R repo w p w' H) as (_ & _ & Hframe).
  assert (Hfile : files w' !! blob_file (blobs_dir R repo) id
                  = files w !! blob_file (blobs_dir R repo) id).
  { apply Hframe; path_neq. }
  destruct (Hs id) as [Hnd Hh]. split.
  - rewrite is_dir_with_faults.
    unfold init_repo in H.
    apply bind_returns in H as ([] & w1 & H1 & H). apply bind_returns in H as ([] & w2 & H2 & H).
    apply bind_returns in H as ([] & w3 & H3 & H). apply bind_returns in H as ([] & w4 & H4 & H).
    assert (Hw : w4 = w') by (unfold ret in H; inversion H; auto). subst w4.
    apply makedirs_ok in H1 as [_ Hd1], H3 as [_ Hd3].
    apply open_write_ok in H2 as (_ & Hd2 & _), H4 as (_ & Hd4 & _).
    apply not_dir.
    + intros Heq. apply (f_equal (@length string)) in Heq.
      rewrite blob_file_length in Heq. simpl in Heq. lia.
    + rewrite Hd4, Hd3, Hd2, Hd1. intros [[Hin|Hin]|Hin].
      * destruct (blob_file (blobs_dir R repo) id) eqn:E;
          [apply (f_equal (@length string)) in E; rewrite blob_file_length in E;
           simpl in E; lia|].
        simpl in Hnd. apply bool_decide_eq_false in Hnd. exact (Hnd Hin).
      * apply prefixes_length in Hin. rewrite blob_file_length in Hin.
        unfold repo_path in Hin. rewrite length_app in Hin. simpl in Hin. lia.
      * apply prefixes_length in Hin. rewrite blob_file_length in Hin.
        unfold repo_path in Hin. rewrite !length_app in Hin. simpl in Hin. lia.
  - intros c Hc. apply Hh. rewrite <- Hfile. exact Hc.
Qed.

(** The path [get_file] gives the blob of [data] is the one
    [_build_tree] wrote it to. *)
Lemma blob_path_of_digest repo data w :
  blob_path R repo (JStr (_hash_content data)) w
  = (Ok (inl (blob_file (blobs_dir R repo) (_hash_content data))), w).
Proof.
  destruct (hexdigest_components data ".blob" eq_refl eq_refl) as (Ha & Hb & Hf).
  fold (_hash_content data) in Ha, Hb, Hf.
  unfold blob_path, part. rewrite Ha, Hb, Hf.
  unfold blob_file, blob_sub. rewrite <- app_assoc. reflexivity.
Qed.

(** X17.  After a successful [save_snapshot] in a repository whose name is
    one path component, [check_repo_access] finds the repository and
    [get_tree], asked for the identifier that was returned, answers with
    the tree of the working directory: each file under its path, with the
    SHA-256 of its content. *)
Theorem saved_tree_is_served repo msg wd w sid w' :
  component repo = true ->
  NoDup ((walk [] wd).*1) ->
  save_snapshot R repo msg wd w = (Ok sid, w') ->
  check_repo_access R repo (with_faults [] w') = (Ok (inl repo), with_faults [] w')
  /\ exists entries,
       get_tree R sid repo (with_faults [] w')
       = (Ok (inl (JDict [("entries", JDict entries)])), with_faults [] w')
       /\ forall file data, (file, data) ∈ walk [] wd ->
            dict_get file entries
            = Some (JDict [("type", JStr "blob"); ("id", JStr (_hash_content data))]).
Proof.
  intros Hc Hnd H.
  destruct (snapshot_tree_after_save repo msg wd w sid w' Hc H) as [Hacc Ht].
  split; [exact Hacc|]. exists (tree_entries wd). split; [exact Ht|].
  intros file data Hin. apply tree_step_get; assumption.
Qed.

(** X18.  After a successful [save_snapshot] on a disk whose blobs are
    sound, [get_file], asked for the identifier that was returned and the
    path of a file of the working directory, answers with bytes that have
    the SHA-256 of the content of that file. *)
Theorem saved_file_is_served repo msg wd w sid w' file data :
  component repo = true ->
  sound w (blobs_dir R repo) ->
  NoDup ((walk [] wd).*1) ->
  save_snapshot R repo msg wd w = (Ok sid, w') ->
  (file, data) ∈ walk [] wd ->
  exists served,
    get_file R sid file repo (with_faults [] w') = (Ok (inl served), with_faults [] w')
    /\ _hash_content served = _hash_content data.
Proof.
  intros Hc Hsound Hnd H Hin.
  destruct (snapshot_tree_after_save repo msg wd w sid w' Hc H) as [_ Ht].
  pose proof (save_snapshot_stages R repo msg wd w sid w' H) as (_ & _ & _ & _ & K).
  destruct (K Hsound) as [Hs' Hall]. specialize (Hall _ Hin). cbn [snd] in Hall.
  destruct Hall as [c Hfile]. destruct (Hs' (_hash_content data)) as [Hnd' Hhash].
  exists (content_bytes c). split; [|apply Hhash, Hfile].
  unfold get_file, bindr. rewrite (bind_ok _ _ _ _ _ Ht).
  cbn [tree_of get dict_get String.eqb Ascii.eqb Bool.eqb default].
  rewrite (bind_ok _ _ _ _ _ (eq_refl : ret (JDict (tree_entries wd)) _ = (Ok _, _))).
  cbn [get]. rewrite (tree_step_get _ [] file data Hnd Hin : dict_get file (tree_entries wd) = _).
  cbn [default].
  rewrite (bind_ok _ _ _ _ _ (eq_refl : ret (blob_entry (_hash_content data)) _ = (Ok _, _))).
  cbn [blob_entry Json.truthy negb subscript dict_get String.eqb Ascii.eqb Bool.eqb].
  rewrite (bind_ok _ _ _ _ _ (blob_path_of_digest repo data (with_faults [] w'))).
  rewrite (bind_ok _ _ _ _ _ (exists_run _ _)).
  assert (Hfile' : files (with_faults [] w') !! blob_file (blobs_dir R repo) (_hash_content data)
                   = Some c) by exact Hfile.
  unfold exists_on at 1, is_file. rewrite Hfile'. cbn [orb negb].
  rewrite (bind_ok _ _ _ _ _ (read_bytes_pass _ _ (with_faults [] w') eq_refl Hnd' Hfile')).
  reflexivity.
Qed.

(** X19.  After a successful [save_snapshot], [get_file], asked for the
    identifier that was returned and a path that is no file of the working
    directory, answers 404, "File not found in snapshot". *)
Theorem unsaved_path_is_not_found repo msg wd w sid w' file :
  component repo = true ->
  save_snapshot R repo msg wd w = (Ok sid, w') ->
  file ∉ (walk [] wd).*1 ->
  get_file R sid file repo (with_faults [] w')
  = (Ok (inr (Http (Dependencies.HTTPException 404 "File not found in snapshot"))), with_faults [] w').
Proof.
  intros Hc H Hno.
  destruct (snapshot_tree_after_save repo msg wd w sid w' Hc H) as [_ Ht].
  unfold get_file, bindr. rewrite (bind_ok _ _ _ _ _ Ht).
  cbn [tree_of get dict_get String.eqb Ascii.eqb Bool.eqb default from_option id].
  rewrite (bind_ok _ _ _ _ _ (eq_refl : ret (JDict (tree_entries wd)) _ = (Ok _, _))).
  cbn [get].
  rewrite (tree_step_get_other _ [] file Hno : dict_get file (tree_entries wd) = _).
  reflexivity.
Qed.

(** X20.  A successful [save_snapshot] keeps the blobs sound, and leaves a
    blob for every file of the working directory. *)
Theorem save_snapshot_keeps_blobs_sound repo msg wd w sid w' :
  sound w (blobs_dir R repo) ->
  save_snapshot R repo msg wd w = (Ok sid, w') ->
  sound w' (blobs_dir R repo)
  /\ forall file data, (file, data) ∈ walk [] wd ->
       exists c, files w' !! blob_file (blobs_dir R repo) (_hash_content data) = Some c
                 /\ _hash_content (content_bytes c) = _hash_content data.
Proof.
  intros Hsound H.
  pose proof (save_snapshot_stages R repo msg wd w sid w' H) as (_ & _ & _ & _ & K).
  destruct (K Hsound) as [Hs' Hall]. split; [exact Hs'|].
  intros file data Hin. destruct (Hall _ Hin) as [c Hc]. cbn [snd] in Hc.
  exists c. split; [exact Hc|]. apply (Hs' (_hash_content data)), Hc.
Qed.

End Served.

Lemma demo0_sound : sound (with_faults [] demo0) (blobs_dir root "demo").
Proof.
  apply (init_repo_sound root "demo" fresh_disk (repo_path root "demo")).
  - apply (run_eq (init_repo root "demo" fresh_disk)). vm_compute. reflexivity.
  - apply sound_empty; [reflexivity|].
    intros q Hq. unfold fresh_disk in Hq. simpl in Hq.
    apply elem_of_singleton in Hq. subst q. simpl. lia.
Defined.

Lemma saved_tree_is_served_witness :
  check_repo_access root "demo" (with_faults [] (snd first_save))
  = (Ok (inl "demo"), with_faults [] (snd first_save))
  /\ exists entries,
       get_tree root "s_181379010" "demo" (with_faults [] (snd first_save))
       = (Ok (inl (JDict [("entries", JDict entries)])), with_faults [] (snd first_save))
       /\ dict_get "hello.txt" entries
          = Some (JDict [("type", JStr "blob"); ("id", JStr hello_blob_id)]).
Proof.
  destruct (saved_tree_is_served root "demo" "first" hello_dir (with_faults [] demo0)
              "s_181379010" (snd first_save)) as (Hacc & entries & Hget & Hfiles).
  - reflexivity.
  - apply (bool_decide_unpack _). vm_compute. exact I.
  - apply (run_eq first_save). vm_compute. reflexivity.
  - split; [exact Hacc|]. exists entries. split; [exact Hget|].
    rewrite (Hfiles "hello.txt" (Py.encode ("hi" +:+ Py.nl))) by (simpl; left).
    vm_compute. reflexivity.
Defined.

Lemma saved_file_is_served_witness :
  exists served,
    get_file root "s_181379010" "hello.txt" "demo" (with_faults [] (snd first_save))
    = (Ok (inl served), with_faults [] (snd first_save))
    /\ _hash_content served = hello_blob_id.
Proof.
  destruct (saved_file_is_served root "demo" "first" hello_dir (with_faults [] demo0)
              "s_181379010" (snd first_save) "hello.txt" (Py.encode ("hi" +:+ Py.nl)))
    as (served & Hget & Hhash).
  - reflexivity.
  - exact demo0_sound.
  - apply (bool_decide_unpack _). vm_compute. exact I.
  - apply (run_eq first_save). vm_compute. reflexivity.
  - simpl. left.
  - exists served. split; [exact Hget|]. rewrite Hhash. vm_compute. reflexivity.
Defined.

Lemma unsaved_path_is_not_found_witness :
  get_file root "s_181379010" "notes.txt" "demo" (with_faults [] (snd first_save))
  = (Ok (inr (Http (Dependencies.HTTPException 404 "File not found in snapshot"))),
     with_faults [] (snd first_save)).
Proof.
  apply (unsaved_path_is_not_found root "demo" "first" hello_dir (with_faults [] demo0)).
  - reflexivity.
  - apply (run_eq first_save). vm_compute. reflexivity.
  - apply (bool_decide_unpack _). vm_compute. exact I.
Defined.

Lemma save_snapshot_keeps_blobs_sound_witness :
  sound (snd first_save) (blobs_dir root "demo")
  /\ is_Some (files (snd first_save) !! blob_file (blobs_dir root "demo") hello_blob_id).
Proof.
  destruct (save_snapshot_keeps_blobs_sound root "demo" "first" hello_dir
              (with_faults [] demo0) "s_181379010" (snd first_save)) as [Hs Hall].
  - exact demo0_sound.
  - apply (run_eq first_save). vm_compute. reflexivity.
  - split; [exact Hs|].
    destruct (Hall "hello.txt" (Py.encode ("hi" +:+ Py.nl))) as (c & Hc & _); [simpl; left|].
    assert (Hid : _hash_content (Py.encode ("hi" +:+ Py.nl)) = hello_blob_id)
      by (vm_compute; reflexivity).
    rewrite Hid in Hc. exists c. exact Hc.
Defined.

End SnapshotFacts.

(** ** The objects on disk when [refs/main] is opened *)

Module OrderFacts.
Import Svcs SvcsSpec FSSpec FSFacts RunFacts SvcsFacts BlobSpec SnapshotFacts RetrySpec.



Section Runs.
Variable R : path.
Variable repo : string.






End Runs.



End OrderFacts.

(** ** The difference between two snapshots *)

Module DiffFacts.
Import Svcs SvcsSpec FSSpec FSFacts RunFacts Paths Raised Dyn SvcsFacts SvcsDiff.
Import NameSpec NameFacts BlobSpec SnapshotFacts DiffSpec.

(** The loop of [get_diff] over two trees of blobs: the three lists are
    the paths it visits, filtered. *)
Lemma diff_loop_blobs (old new : list (string * string)) (paths : list string) :
  forall d0,
    diff_loop (List.map (fun kv => (fst kv, blob_entry (snd kv))) old)
              (List.map (fun kv => (fst kv, blob_entry (snd kv))) new) paths d0
    = inl (Diff (added d0 ++ List.filter (is_added old new) paths)
                (removed d0 ++ List.filter (is_removed old new) paths)
                (modified d0 ++ List.filter (is_modified old new) paths)).
Proof.
  induction paths as [|p paths IH]; intros d0; cbn [diff_loop List.filter].
  - rewrite !app_nil_r. destruct d0; reflexivity.
  - unfold diff_step, is_added, is_removed, is_modified, dict_has.
    rewrite !ParityFacts.dict_get_map.
    destruct (dict_get p old) as [a|]; cbn [fmap option_fmap option_map negb andb].
    + destruct (dict_get p new) as [b|]; cbn [fmap option_fmap option_map negb andb].
      * cbn [blob_entry subscript dict_get String.eqb Ascii.eqb Bool.eqb py_eqb].
        destruct (negb (a =? b)%string); rewrite IH; cbn [added removed modified];
          rewrite <- ?app_assoc; reflexivity.
      * rewrite IH. cbn [added removed modified]. rewrite <- ?app_assoc. reflexivity.
    + rewrite IH. cbn [added removed modified]. rewrite <- ?app_assoc.
      destruct (dict_get p new); reflexivity.
Qed.

Lemma keys_of_entries (ids : list (string * string)) :
  (List.map (fun kv => (fst kv, blob_entry (snd kv))) ids).*1 = ids.*1.
Proof.
  induction ids as [|[k v] ids IH]; [reflexivity|].
  cbn [List.map]. rewrite !fmap_cons, IH. reflexivity.
Qed.

Lemma tree_file_inj td a b : tree_file td a = tree_file td b -> a = b.
Proof.
  unfold tree_file. intros H. apply app_inj_tail in H as [_ H].
  apply str_app_inv_tail in H. exact H.
Qed.

Section Runs.
Variable R : path.
Variable set_order : list string -> list string -> list string.

(** [_load_tree] on a disk that holds the snapshot and its tree. *)
Lemma _load_tree_pass repo sid tid par msg tree w :
  faults w = [] ->
  component (sid +:+ ".json") = true -> component (tid +:+ ".json") = true ->
  files w !! snapshot_file (snapshots_dir R repo) sid
  = Some (Doc (snapshot_doc sid tid par msg)) ->
  is_dir w (snapshot_file (snapshots_dir R repo) sid) = false ->
  files w !! tree_file (trees_dir R repo) tid = Some (Doc tree) ->
  is_dir w (tree_file (trees_dir R repo) tid) = false ->
  _load_tree R repo sid w = (Ok (inl tree), w).
Proof.
  intros Hf Hcs Hct Hs Hsd Ht Htd. unfold _load_tree.
  rewrite (bind_ok _ _ _ _ _ (part_pass _ _ Hcs)).
  fold (snapshot_file (snapshots_dir R repo) sid).
  rewrite (bind_ok _ _ _ _ _ (json_load_pass _ _ w Hf Hsd Hs)).
  cbn [snapshot_doc subscript dict_get String.eqb Ascii.eqb Bool.eqb format_id].
  rewrite (bind_ok _ _ _ _ _ (part_pass _ _ Hct)).
  fold (tree_file (trees_dir R repo) tid).
  rewrite (bind_ok _ _ _ _ _ (json_load_pass _ _ w Hf Htd Ht)).
  reflexivity.
Qed.

(** X21.  After two successful calls of [save_snapshot] in a repository,
    the second right after the first, that returned two identifiers and
    whose trees do not collide, [get_diff] from the first to the second
    does not raise; whatever the order in which it visits the paths, a path
    is [added] when only the second tree has it, [removed] when only the
    first has it, and [modified] when both have it with different blob
    identifiers. *)
Theorem diff_of_two_saves repo msg1 msg2 wd1 wd2 w0 sid1 w1 fl sid2 w2 :
  (forall a b p, p ∈ set_order a b <-> p ∈ a \/ p ∈ b) ->
  component repo = true ->
  save_snapshot R repo msg1 wd1 w0 = (Ok sid1, w1) ->
  save_snapshot R repo msg2 wd2 (with_faults fl w1) = (Ok sid2, w2) ->
  sid1 <> sid2 ->
  (tree_id_of wd1 = tree_id_of wd2 -> tree_of wd1 = tree_of wd2) ->
  exists added removed modified,
    get_diff R set_order repo sid1 sid2 (with_faults [] w2)
    = (Ok (inl (JDict [("added", JList (List.map JStr added));
                       ("removed", JList (List.map JStr removed));
                       ("modified", JList (List.map JStr modified))])),
       with_faults [] w2)
    /\ forall p,
         (p ∈ added <->
            dict_get p (blob_ids wd1) = None /\ dict_get p (blob_ids wd2) <> None)
         /\ (p ∈ removed <->
               dict_get p (blob_ids wd1) <> None /\ dict_get p (blob_ids wd2) = None)
         /\ (p ∈ modified <->
               exists a b, dict_get p (blob_ids wd1) = Some a
                           /\ dict_get p (blob_ids wd2) = Some b /\ a <> b).
Proof.
  intros Hset Hc H1 H2 Hsid Hcoll.
  pose proof (save_snapshot_stages R repo msg1 wd1 w0 sid1 w1 H1) as (_ & _ & Htd1 & Hsd1 & _).
  pose proof (save_snapshot_stages R repo msg2 wd2 _ sid2 w2 H2) as (G2 & _ & Htd2 & Hsd2 & _).
  pose proof (save_snapshot_ok R repo msg1 wd1 w0 sid1 w1 H1)
    as (par1 & _ & Hid1 & _ & Hsnap1 & Htree1 & _).
  pose proof (save_snapshot_ok R repo msg2 wd2 _ sid2 w2 H2)
    as (par2 & _ & Hid2 & _ & Hsnap2 & Htree2 & _ & Hothers).
  (* the first snapshot and its tree are still there *)
  assert (Hsnap1' : files w2 !! snapshot_file (snapshots_dir R repo) sid1
                    = Some (Doc (snapshot_doc sid1 (tree_id_of wd1) par1 msg1))).
  { rewrite (Hothers sid1 Hsid). exact Hsnap1. }
  assert (Htree1' : files w2 !! tree_file (trees_dir R repo) (tree_id_of wd1)
                    = Some (Doc (tree_of wd1))).
  { destruct (decide (tree_id_of wd1 = tree_id_of wd2)) as [Heq|Hne].
    - rewrite (Hcoll Heq), Heq. exact Htree2.
    - rewrite (save_snapshot_frame R repo msg2 wd2 _ sid2 w2 _ H2); [exact Htree1|..].
      + unfold lock_path. path_neq.
      + intros id. path_neq.
      + intros Heq. apply tree_file_inj in Heq. contradiction.
      + path_neq.
      + path_neq. }
  assert (Hsd1' : is_dir w2 (snapshot_file (snapshots_dir R repo) sid1) = false).
  { apply (grows_not_dir R repo _ w2 _ G2); [apply made_dir_not_snapshot | exact Hsd1]. }
  assert (Htd1' : is_dir w2 (tree_file (trees_dir R repo) (tree_id_of wd1)) = false).
  { apply (grows_not_dir R repo _ w2 _ G2); [apply made_dir_not_tree | exact Htd1]. }
  assert (Hct : forall wd, component (tree_id_of wd +:+ ".json") = true).
  { intros wd.
    destruct (hexdigest_components (Py.encode (Json.dumps true (tree_of wd))) ".json"
                eq_refl eq_refl) as (_ & _ & Hx). exact Hx. }
  pose proof (_load_tree_pass repo sid1 _ _ _ _ (with_faults [] w2) eq_refl
                (snapshot_id_component _ _ _ Hid1) (Hct wd1) Hsnap1' Hsd1' Htree1' Htd1') as L1.
  pose proof (_load_tree_pass repo sid2 _ _ _ _ (with_faults [] w2) eq_refl
                (snapshot_id_component _ _ _ Hid2) (Hct wd2) Hsnap2 Hsd2 Htree2 Htd2) as L2.
  set (order := set_order (blob_ids wd1).*1 (blob_ids wd2).*1).
  exists (List.filter (is_added (blob_ids wd1) (blob_ids wd2)) order),
         (List.filter (is_removed (blob_ids wd1) (blob_ids wd2)) order),
         (List.filter (is_modified (blob_ids wd1) (blob_ids wd2)) order).
  split.
  - unfold get_diff, bindr. rewrite (bind_ok _ _ _ _ _ (part_pass repo _ Hc)).
    rewrite (bind_ok _ _ _ _ _ L1). rewrite (bind_ok _ _ _ _ _ L2).
    unfold tree_of. rewrite !tree_entries_blob_ids.
    cbn [get dict_get String.eqb Ascii.eqb Bool.eqb default from_option id].
    unfold bind, ret, keys. rewrite !keys_of_entries. unfold ret. fold order.
    rewrite diff_loop_blobs. reflexivity.
  - assert (Hin : forall p, p ∈ order
                    <-> dict_get p (blob_ids wd1) <> None \/ dict_get p (blob_ids wd2) <> None).
    { intros p. unfold order. rewrite Hset.
      assert (Hk : forall l : list (string * string), p ∈ l.*1 <-> dict_get p l <> None).
      { intros l. pose proof (dict_get_None_keys_iff p l) as Hn.
        destruct (dict_get p l) eqn:E.
        - split; [discriminate|]. intros _.
          destruct (decide (p ∈ l.*1)) as [Hyes|Hno]; [exact Hyes|].
          apply Hn in Hno. discriminate.
        - split; [|contradiction]. intros Hyes. exfalso. exact (proj1 Hn eq_refl Hyes). }
      rewrite !Hk. reflexivity. }
    intros p. rewrite !list_elem_of_In, !filter_In, <- !list_elem_of_In, !Hin.
    unfold is_added, is_removed, is_modified, dict_has.
    destruct (dict_get p (blob_ids wd1)) as [a|], (dict_get p (blob_ids wd2)) as [b|];
      cbn [negb andb].
    + split; [|split].
      * split; [intros [_ ?]; discriminate | intros [? _]; discriminate].
      * split; [intros [_ ?]; discriminate | intros [_ ?]; discriminate].
      * split.
        -- intros [_ Hne]. exists a, b. split; [reflexivity|]. split; [reflexivity|].
           apply negb_true_iff, String.eqb_neq in Hne. exact Hne.
        -- intros (a' & b' & [= <-] & [= <-] & Hne). split; [left; discriminate|].
           apply negb_true_iff, String.eqb_neq. exact Hne.
    + split; [|split].
      * split; [intros [_ ?]; discriminate | intros [? _]; discriminate].
      * split; [intros _; split; [discriminate | reflexivity]|].
        intros _. split; [left; discriminate | reflexivity].
      * split; [intros [_ ?]; discriminate | intros (a' & b' & _ & ? & _); discriminate].
    + split; [|split].
      * split; [intros _; split; [reflexivity | discriminate]|].
        intros _. split; [right; discriminate | reflexivity].
      * split; [intros [_ ?]; discriminate | intros [? _]; contradiction].
      * split; [intros [_ ?]; discriminate | intros (a' & b' & ? & _); discriminate].
    + split; [|split].
      * split; [intros [[?|?] _]; contradiction | intros [_ ?]; contradiction].
      * split; [intros [_ ?]; discriminate | intros [? _]; contradiction].
      * split; [intros [_ ?]; discriminate | intros (a' & b' & ? & _); discriminate].
Qed.

End Runs.

Lemma first_seen_spec (a b : list string) (p : string) :
  p ∈ first_seen a b <-> p ∈ a \/ p ∈ b.
Proof.
  unfold first_seen. rewrite elem_of_app, list_elem_of_difference.
  destruct (decide (p ∈ a)); tauto.
Qed.

Lemma diff_of_two_saves_witness :
  "s_181379010" <> "s_2747986177"
  /\ exists added removed modified,
       get_diff root first_seen "demo" "s_181379010" "s_2747986177"
         (with_faults [] (snd edited_save))
       = (Ok (inl (JDict [("added", JList (List.map JStr added));
                          ("removed", JList (List.map JStr removed));
                          ("modified", JList (List.map JStr modified))])),
          with_faults [] (snd edited_save))
       /\ "notes.txt" ∈ added /\ "hello.txt" ∈ modified.
Proof.
  assert (Hne : "s_181379010" <> "s_2747986177") by discriminate.
  split; [exact Hne|].
  destruct (diff_of_two_saves root first_seen "demo" "first" "second" hello_dir edited_dir
              (with_faults [] demo0) "s_181379010" (snd first_save) []
              "s_2747986177" (snd edited_save))
    as (added & removed & modified & Hget & Hsort).
  - exact first_seen_spec.
  - reflexivity.
  - apply (run_eq first_save). vm_compute. reflexivity.
  - apply (run_eq edited_save). vm_compute. reflexivity.
  - exact Hne.
  - intros Heq. vm_compute in Heq. discriminate.
  - exists added, removed, modified. split; [exact Hget|]. split.
    + apply (Hsort "notes.txt"). vm_compute. split; [reflexivity | discriminate].
    + apply (Hsort "hello.txt"). eexists _, _. vm_compute.
      split; [reflexivity|]. split; [reflexivity | discriminate].
Defined.

End DiffFacts.

(** ** Revoking a refresh token *)

Module RevokeFacts.
Import TokenManager RefreshTokenManager TokenSpec TokenFamily TokenManagerFacts RefreshTokenFacts.

Lemma validate_and_rotate_unknown tok fp now fresh (s : store) :
  dict_get (hash_token tok) s = None -> validate_and_rotate tok fp now fresh s = (None, s).
Proof. unfold validate_and_rotate. intros ->. reflexivity. Qed.

(** X22.  [revoke_token] only removes records.  Afterwards the token is
    refused, and when the token had a record, so is every token from whose
    record the rotations lead to it: the tokens it replaced. *)
Theorem revoked_token_is_refused tok (s : store) :
  NoDup (s.*1) ->
  snd (revoke_token tok s) `sublist_of` s
  /\ (forall fp now fresh,
        validate_and_rotate tok fp now fresh (snd (revoke_token tok s))
        = (None, snd (revoke_token tok s)))
  /\ (fst (revoke_token tok s) = true ->
      forall old, rotates_into s (hash_token old) (hash_token tok) ->
        forall fp now fresh,
          validate_and_rotate old fp now fresh (snd (revoke_token tok s))
          = (None, snd (revoke_token tok s))).
Proof.
  intros Hnd. unfold revoke_token, dict_has.
  destruct (dict_get (hash_token tok) s) as [d|] eqn:E; cbn [fst snd].
  - destruct (invalidate_fuel_closed _ _ _ _ Hnd (_invalidate_token_family_eq (hash_token tok) s))
      as [P2 P3].
    split; [apply _invalidate_token_family_sublist|].
    split; [intros fp now fresh; apply validate_and_rotate_unknown, P2|].
    intros _ old Hold fp now fresh. apply validate_and_rotate_unknown.
    remember (hash_token old) as k eqn:Ek. remember (hash_token tok) as h eqn:Eh.
    clear Ek old. induction Hold as [k d' h Hk Hrot | k d' m h Hk Hrot Hm IHm].
    + apply (P3 k d' h Hk Hrot). left. reflexivity.
    + apply (P3 k d' m Hk Hrot). right. split; [|apply IHm; assumption].
      destruct Hm; eauto.
  - split; [reflexivity|].
    split; [intros fp now fresh; apply validate_and_rotate_unknown, E | discriminate].
Qed.

Lemma revoked_token_is_refused_witness :
  NoDup (rotated.*1)
  /\ fst (revoke_token "R2" rotated) = true
  /\ validate_and_rotate "R2" (Some "fp") 20 "R3" (snd (revoke_token "R2" rotated))
     = (None, snd (revoke_token "R2" rotated))
  /\ validate_and_rotate "R1" (Some "fp") 20 "R3" (snd (revoke_token "R2" rotated))
     = (None, snd (revoke_token "R2" rotated)).
Proof.
  assert (Hnd : NoDup (rotated.*1)).
  { apply (bool_decide_unpack _). vm_compute. exact I. }
  assert (Hfound : fst (revoke_token "R2" rotated) = true) by (vm_compute; reflexivity).
  split; [exact Hnd|]. split; [exact Hfound|].
  destruct (revoked_token_is_refused "R2" rotated Hnd) as (_ & H2 & H1).
  split; [apply H2|].
  apply (H1 Hfound "R1"). eapply rotates_now; vm_compute; reflexivity.
Defined.

End RevokeFacts.
